(** * The client-side voice session orchestrator of the movie-search chatbot

    A shallow embedding of [lib/javascript.js] (the browser client served by
    the interface-handler lambda): the audio front-end ([downsampleBuffer],
    [pcmEncode], [convertAudioToBinaryMessage]), the playback sequencer
    ([queueProcessor]), the control channel ([websocketApplication...]), the
    transcription channel ([websocketTranscribeConnect] and its listeners),
    the utterance assembler ([handleEventStreamMessage]), the listeners of
    the buttons, of the keyboard and of the text field, and the stored
    settings ([getLocalStorageValue]).

    Conventions of the embedding.
    - The module-level [let]/[const] variables and the DOM properties the
      script reads or writes form one record, [Session]; every function of the
      script becomes a function on [Session].
    - JavaScript numbers are modelled by [number]: the special values are
      kept, finite values are rationals, and the sign of zero is not
      modelled.  Rounding is explicit: [binary64] rounds a rational to the
      nearest double and [binary32] to the nearest single, as IEEE 754
      prescribes.  [downsampleBuffer] is the function with every operation
      exact; [downsampleBuffer_ieee] is the function with the roundings of
      the program (double arithmetic, [Float32Array] stores), and the
      statements about the values of samples use it.
    - JavaScript strings are [string]s of 8-bit code units.  Transcripts reach
      the script through [String.fromCharCode] applied to the bytes of a frame,
      so their code units are below 256.
    - Functions of the libraries the script imports (microphone-stream, the
      event-stream marshaller) and the URI built-ins are fields of the class
      [Platform].
    - A listener of an event is a function named after its target and the
      event ([audioDiv_ended], [websocketTranscribe_close], ...).  What the
      browser does before it runs the listener (a socket changes its
      [readyState]) is part of that function.
    - A promise is cut at its suspension point: [websocketApplicationConnect]
      and [startStreamAudio] count the request they start, and the
      continuation is a function of its own ([fetch_resolved],
      [websocketTranscribeConnect]).
    - Console logging ([consoleLogger], [reasoningLogger]) is not modelled,
      nor is the rendering of the control panel
      ([updateControlDisplayValue]). *)

From Stdlib Require Import ZArith QArith Qround Qabs Lqa Lia String Ascii Bool
  List.
From stdpp Require Import base strings gmap list pretty.
Import ListNotations.

Set Primitive Projections.

(* ------------------------------------------------------------------ *)
(** ** Numbers *)

Inductive number : Type :=
  | Fin (q : Q)
  | PosInf
  | NegInf
  | NaN.

(** [a + b] *)
Definition number_add (a b : number) : number :=
  match a, b with
  | NaN, _ | _, NaN => NaN
  | PosInf, NegInf | NegInf, PosInf => NaN
  | PosInf, _ | _, PosInf => PosInf
  | NegInf, _ | _, NegInf => NegInf
  | Fin x, Fin y => Fin (x + y)%Q
  end.

(** [a / count] for a loop counter [count] (a non-negative integer). *)
Definition number_div_count (a : number) (count : nat) : number :=
  match count with
  | O =>
      match a with
      | Fin x =>
          if Qlt_le_dec 0%Q x then PosInf
          else if Qlt_le_dec x 0%Q then NegInf else NaN
      | other => other
      end
  | S _ =>
      match a with
      | Fin x => Fin (x / inject_Z (Z.of_nat count))%Q
      | other => other
      end
  end.

(** [a * k] for a positive finite constant [k]. *)
Definition number_scale (a : number) (k : Q) : number :=
  match a with
  | Fin x => Fin (x * k)%Q
  | other => other
  end.

(** [a < 0] *)
Definition number_negative (a : number) : bool :=
  match a with
  | Fin x => if Qlt_le_dec x 0%Q then true else false
  | NegInf => true
  | PosInf | NaN => false
  end.

(** [Math.min(Fin k, a)] *)
Definition Math_min (k : Q) (a : number) : number :=
  match a with
  | Fin x => if Qlt_le_dec x k then Fin x else Fin k
  | PosInf => Fin k
  | NegInf => NegInf
  | NaN => NaN
  end.

(** [Math.max(Fin k, a)] *)
Definition Math_max (k : Q) (a : number) : number :=
  match a with
  | Fin x => if Qlt_le_dec k x then Fin x else Fin k
  | PosInf => PosInf
  | NegInf => Fin k
  | NaN => NaN
  end.

(** [Math.round]: the nearest integer, ties towards plus infinity. *)
Definition Math_round (q : Q) : Z := Qfloor (q + (1 # 2))%Q.

(** Truncation towards zero, the first step of the integer conversions. *)
Definition Qtruncate (q : Q) : Z :=
  if Qlt_le_dec q 0%Q then Qceiling q else Qfloor q.

(** [ToInt16]: truncate, reduce modulo 2^16, read as two's complement. *)
Definition ToInt16 (a : number) : Z :=
  match a with
  | Fin q =>
      let int16bit := (Qtruncate q mod 65536)%Z in
      if (32768 <=? int16bit)%Z then (int16bit - 65536)%Z else int16bit
  | PosInf | NegInf | NaN => 0%Z
  end.

(* ------------------------------------------------------------------ *)
(** ** Audio front-end *)

(** [view.setInt16(offset, value, true)]: the two bytes written, low byte
    first. *)
Definition setInt16_littleEndian (value : number) : list Z :=
  let bits := (ToInt16 value mod 65536)%Z in
  [Z.land bits 255; Z.shiftr bits 8].

(** The sample as [pcmEncode] quantises it, before it is written. *)
Definition pcmSample (x : number) : number :=
  let s := Math_max (-1)%Q (Math_min 1%Q x) in
  if number_negative s then number_scale s 32768%Q else number_scale s 32767%Q.

Definition pcmEncode (input : list number) : list Z :=
  flat_map (fun x => setInt16_littleEndian (pcmSample x)) input.

(** [buffer[i]] added to a number: an index outside the array reads
    [undefined], which the addition turns into [NaN]. *)
Definition buffer_get (buffer : list number) (i : Z) : number :=
  if (i <? 0)%Z then NaN else nth (Z.to_nat i) buffer NaN.

(** The inner [for] loop of [downsampleBuffer]; [fuel] bounds the number of
    iterations. *)
Fixpoint window_loop (buffer : list number) (fuel : nat)
    (i nextOffsetBuffer : Z) (accum : number) (count : nat) : number * nat :=
  match fuel with
  | O => (accum, count)
  | S fuel' =>
      if ((i <? nextOffsetBuffer) && (i <? Z.of_nat (length buffer)))%Z then
        window_loop buffer fuel' (i + 1)%Z nextOffsetBuffer
          (number_add accum (buffer_get buffer i)) (S count)
      else (accum, count)
  end.

(** The [for] loop run from [offsetBuffer]: it makes exactly
    [min(nextOffsetBuffer, buffer.length) - offsetBuffer] iterations when that
    is positive and none otherwise. *)
Definition window (buffer : list number) (offsetBuffer nextOffsetBuffer : Z)
    : number * nat :=
  window_loop buffer
    (Z.to_nat (Z.min nextOffsetBuffer (Z.of_nat (length buffer)) - offsetBuffer)%Z)
    offsetBuffer nextOffsetBuffer (Fin 0) O.

(** The [while] loop of [downsampleBuffer]: for each of the [remaining]
    output slots, the pair [(accum, count)] its window produces. *)
Fixpoint downsample_while (buffer : list number) (sampleRateRatio : Q)
    (remaining : nat) (offsetResult offsetBuffer : Z) : list (number * nat) :=
  match remaining with
  | O => []
  | S remaining' =>
      let nextOffsetBuffer :=
        Math_round (inject_Z (offsetResult + 1) * sampleRateRatio)%Q in
      window buffer offsetBuffer nextOffsetBuffer
        :: downsample_while buffer sampleRateRatio remaining'
             (offsetResult + 1)%Z nextOffsetBuffer
  end.

(** The windows [downsampleBuffer] averages when the two rates differ. *)
Definition downsample_windows (buffer : list number)
    (inputSampleRate outputSampleRate : Q) : list (number * nat) :=
  let sampleRateRatio := (inputSampleRate / outputSampleRate)%Q in
  let newLength :=
    Math_round (inject_Z (Z.of_nat (length buffer)) / sampleRateRatio)%Q in
  downsample_while buffer sampleRateRatio (Z.to_nat newLength) 0%Z 0%Z.

Definition downsampleBuffer (buffer : list number)
    (inputSampleRate outputSampleRate : Q) : list number :=
  if Qeq_bool outputSampleRate inputSampleRate then buffer
  else
    map (fun w => number_div_count (fst w) (snd w))
      (downsample_windows buffer inputSampleRate outputSampleRate).

(** The wording of the specification, to compare [downsampleBuffer] with:
    the samples at the indices of [[a, b)], and their arithmetic mean. *)
Definition samples_between (buffer : list number) (a b : Z) : list number :=
  firstn (Z.to_nat (b - a)%Z) (skipn (Z.to_nat a) buffer).

Definition arithmetic_mean (w : list number) : number :=
  number_div_count (fold_left number_add w (Fin 0)) (length w).


(* ------------------------------------------------------------------ *)
(** ** The arithmetic of the program

    IEEE 754 binary formats with rounding to nearest, ties to even. *)



















(* ------------------------------------------------------------------ *)
(** ** Strings *)

(** [\w] of a regular expression without flags. *)
Definition isWordChar (c : ascii) : bool :=
  let n := nat_of_ascii c in
  ((48 <=? n) && (n <=? 57)) || ((65 <=? n) && (n <=? 90))
  || ((97 <=? n) && (n <=? 122)) || (n =? 95).

(** White space and line terminators, as [trim] strips them (those with a
    code below 256). *)
Definition isWhiteSpace (c : ascii) : bool :=
  let n := nat_of_ascii c in
  ((9 <=? n) && (n <=? 13)) || (n =? 32) || (n =? 160).

Fixpoint trimStart (s : string) : string :=
  match s with
  | EmptyString => EmptyString
  | String c rest => if isWhiteSpace c then trimStart rest else s
  end.

Definition trim (s : string) : string :=
  String.rev (trimStart (String.rev (trimStart s))).

(** [s.split(/\W+/)]: [current] is the substring since the last separator,
    [inSeparator] tells that the previous character was matched by [\W+]. *)
Fixpoint split_loop (s : string) (current : string) (inSeparator : bool)
    : list string :=
  match s with
  | EmptyString => [current]
  | String c rest =>
      if isWordChar c then
        split_loop rest (current +:+ String c EmptyString) false
      else if inSeparator then split_loop rest current true
      else current :: split_loop rest EmptyString true
  end.

Definition split_nonword (s : string) : list string :=
  split_loop s EmptyString false.

(* ------------------------------------------------------------------ *)
(** ** Messages and the platform *)

Inductive ReadyState : Type := CONNECTING | OPEN | CLOSING | CLOSED.

(** [socket.readyState === socket.OPEN] for the socket held by a variable. *)
Definition readyState_is_OPEN (socket : option ReadyState) : bool :=
  match socket with
  | Some OPEN => true
  | _ => false
  end.

(** An item of the action queue: a message of the control channel, or the
    ringtone the script queues itself. *)
Record QueueItem : Type := mkQueueItem {
  action : string;
  value : string;
  type : option string;
}.

(** A message for the conversational backend. *)
Record ControlMessage : Type := mkControlMessage {
  msg_action : string;
  msg_utterance : option string;
  msg_controls : option string;
}.

(** The argument of the marshaller. *)
Record EventStreamMessage : Type := mkEventStreamMessage {
  headers : list (string * (string * string));
  body : list Z;
}.

(** One entry of [messageJson.Transcript.Results], with the transcripts of
    its alternatives. *)
Record TranscriptResult : Type := mkTranscriptResult {
  IsPartial : bool;
  Alternatives : list string;
}.

(** A call [displayText(text, type, url)] that returned. *)
Record DisplayCall : Type := mkDisplayCall {
  shown_text : option string;
  shown_type : string;
  shown_url : option string;
}.

(** What the script takes from its libraries and from the language:
    [mic.toRaw] of microphone-stream ([None] for [null]), [marshall] of the
    event-stream marshaller, [decodeURIComponent] ([None] when it throws
    [URIError]) and [escape]. *)
Class Platform : Type := mkPlatform {
  mic_toRaw : list Z -> option (list number);
  marshall : EventStreamMessage -> list Z;
  decodeURIComponent : string -> option string;
  escape : string -> string;
}.

(* ------------------------------------------------------------------ *)
(** ** The session *)

Record Session : Type := mkSession {
  websocketApplicationQueue : list ControlMessage;  (* unsent control messages *)
  websocketQueue : list QueueItem;  (* the action queue of the sequencer *)
  websocketApplication : option ReadyState;  (* [None]: the variable is still undefined *)
  websocketApplicationUrl : option string;
  websocketTranscribe : option ReadyState;
  websocketTranscribeUrl : option string;
  isQueueProcessing : bool;
  isSpeaking : bool;
  isListening : bool;
  micStream : option bool;  (* [Some true]: recording, [Some false]: stopped *)
  micSampleRate : option Q;
  transcription : string;
  utteranceLastEvent : option Z;
  utterance : string;
  allowAudioInput : bool;
  allowAudioInputOnly : bool;
  audioDiv_src : string;  (* [audioDiv.src] *)
  audioDiv_type : string;  (* [audioDiv.type] *)
  statusDiv : string * string * string;  (* status text, type and icon shown in [statusDiv] *)
  inputText_value : string;  (* [inputText.value], a plain string property *)
  disabled : gmap string bool;  (* the [disabled] property, by element id *)
  display : gmap string string;  (* [style.display], by element id *)
  messages : list DisplayCall;  (* the children of [#messages], as the calls that built them *)
  splash : bool;  (* whether an element with id [splash] exists *)
  errorModal : option (string * string);  (* title and body of the error dialog, once shown *)
  applicationSent : list ControlMessage;  (* messages handed to [websocketApplication.send] *)
  transcribeSent : list (option (list Z));  (* frames handed to [websocketTranscribe.send] *)
  fetchRequests : nat;  (* [fetch] calls for the control channel URL *)
  getUserMediaRequests : nat;  (* [getUserMedia] calls *)
  audioDiv_plays : list (string * string);  (* [audioDiv.play()] calls, with the source and type playing *)
  processed : list QueueItem;  (* instrumentation: the items dequeued by [queueProcessor], oldest first *)
}.

Definition set_websocketApplicationQueue (v : list ControlMessage) (s : Session) : Session :=
  mkSession v (websocketQueue s) (websocketApplication s)
    (websocketApplicationUrl s) (websocketTranscribe s)
    (websocketTranscribeUrl s) (isQueueProcessing s) (isSpeaking s)
    (isListening s) (micStream s) (micSampleRate s) (transcription s)
    (utteranceLastEvent s) (utterance s) (allowAudioInput s)
    (allowAudioInputOnly s) (audioDiv_src s) (audioDiv_type s) (statusDiv s)
    (inputText_value s) (disabled s) (display s) (messages s) (splash s)
    (errorModal s) (applicationSent s) (transcribeSent s) (fetchRequests s)
    (getUserMediaRequests s) (audioDiv_plays s) (processed s).

Definition set_websocketQueue (v : list QueueItem) (s : Session) : Session :=
  mkSession (websocketApplicationQueue s) v (websocketApplication s)
    (websocketApplicationUrl s) (websocketTranscribe s)
    (websocketTranscribeUrl s) (isQueueProcessing s) (isSpeaking s)
    (isListening s) (micStream s) (micSampleRate s) (transcription s)
    (utteranceLastEvent s) (utterance s) (allowAudioInput s)
    (allowAudioInputOnly s) (audioDiv_src s) (audioDiv_type s) (statusDiv s)
    (inputText_value s) (disabled s) (display s) (messages s) (splash s)
    (errorModal s) (applicationSent s) (transcribeSent s) (fetchRequests s)
    (getUserMediaRequests s) (audioDiv_plays s) (processed s).

Definition set_websocketApplication (v : option ReadyState) (s : Session) : Session :=
  mkSession (websocketApplicationQueue s) (websocketQueue s) v
    (websocketApplicationUrl s) (websocketTranscribe s)
    (websocketTranscribeUrl s) (isQueueProcessing s) (isSpeaking s)
    (isListening s) (micStream s) (micSampleRate s) (transcription s)
    (utteranceLastEvent s) (utterance s) (allowAudioInput s)
    (allowAudioInputOnly s) (audioDiv_src s) (audioDiv_type s) (statusDiv s)
    (inputText_value s) (disabled s) (display s) (messages s) (splash s)
    (errorModal s) (applicationSent s) (transcribeSent s) (fetchRequests s)
    (getUserMediaRequests s) (audioDiv_plays s) (processed s).

Definition set_websocketApplicationUrl (v : option string) (s : Session) : Session :=
  mkSession (websocketApplicationQueue s) (websocketQueue s)
    (websocketApplication s) v (websocketTranscribe s) (websocketTranscribeUrl
    s) (isQueueProcessing s) (isSpeaking s) (isListening s) (micStream s)
    (micSampleRate s) (transcription s) (utteranceLastEvent s) (utterance s)
    (allowAudioInput s) (allowAudioInputOnly s) (audioDiv_src s)
    (audioDiv_type s) (statusDiv s) (inputText_value s) (disabled s) (display
    s) (messages s) (splash s) (errorModal s) (applicationSent s)
    (transcribeSent s) (fetchRequests s) (getUserMediaRequests s)
    (audioDiv_plays s) (processed s).

Definition set_websocketTranscribe (v : option ReadyState) (s : Session) : Session :=
  mkSession (websocketApplicationQueue s) (websocketQueue s)
    (websocketApplication s) (websocketApplicationUrl s) v
    (websocketTranscribeUrl s) (isQueueProcessing s) (isSpeaking s)
    (isListening s) (micStream s) (micSampleRate s) (transcription s)
    (utteranceLastEvent s) (utterance s) (allowAudioInput s)
    (allowAudioInputOnly s) (audioDiv_src s) (audioDiv_type s) (statusDiv s)
    (inputText_value s) (disabled s) (display s) (messages s) (splash s)
    (errorModal s) (applicationSent s) (transcribeSent s) (fetchRequests s)
    (getUserMediaRequests s) (audioDiv_plays s) (processed s).

Definition set_websocketTranscribeUrl (v : option string) (s : Session) : Session :=
  mkSession (websocketApplicationQueue s) (websocketQueue s)
    (websocketApplication s) (websocketApplicationUrl s) (websocketTranscribe
    s) v (isQueueProcessing s) (isSpeaking s) (isListening s) (micStream s)
    (micSampleRate s) (transcription s) (utteranceLastEvent s) (utterance s)
    (allowAudioInput s) (allowAudioInputOnly s) (audioDiv_src s)
    (audioDiv_type s) (statusDiv s) (inputText_value s) (disabled s) (display
    s) (messages s) (splash s) (errorModal s) (applicationSent s)
    (transcribeSent s) (fetchRequests s) (getUserMediaRequests s)
    (audioDiv_plays s) (processed s).

Definition set_isQueueProcessing (v : bool) (s : Session) : Session :=
  mkSession (websocketApplicationQueue s) (websocketQueue s)
    (websocketApplication s) (websocketApplicationUrl s) (websocketTranscribe
    s) (websocketTranscribeUrl s) v (isSpeaking s) (isListening s) (micStream
    s) (micSampleRate s) (transcription s) (utteranceLastEvent s) (utterance
    s) (allowAudioInput s) (allowAudioInputOnly s) (audioDiv_src s)
    (audioDiv_type s) (statusDiv s) (inputText_value s) (disabled s) (display
    s) (messages s) (splash s) (errorModal s) (applicationSent s)
    (transcribeSent s) (fetchRequests s) (getUserMediaRequests s)
    (audioDiv_plays s) (processed s).

Definition set_isSpeaking (v : bool) (s : Session) : Session :=
  mkSession (websocketApplicationQueue s) (websocketQueue s)
    (websocketApplication s) (websocketApplicationUrl s) (websocketTranscribe
    s) (websocketTranscribeUrl s) (isQueueProcessing s) v (isListening s)
    (micStream s) (micSampleRate s) (transcription s) (utteranceLastEvent s)
    (utterance s) (allowAudioInput s) (allowAudioInputOnly s) (audioDiv_src s)
    (audioDiv_type s) (statusDiv s) (inputText_value s) (disabled s) (display
    s) (messages s) (splash s) (errorModal s) (applicationSent s)
    (transcribeSent s) (fetchRequests s) (getUserMediaRequests s)
    (audioDiv_plays s) (processed s).

Definition set_isListening (v : bool) (s : Session) : Session :=
  mkSession (websocketApplicationQueue s) (websocketQueue s)
    (websocketApplication s) (websocketApplicationUrl s) (websocketTranscribe
    s) (websocketTranscribeUrl s) (isQueueProcessing s) (isSpeaking s) v
    (micStream s) (micSampleRate s) (transcription s) (utteranceLastEvent s)
    (utterance s) (allowAudioInput s) (allowAudioInputOnly s) (audioDiv_src s)
    (audioDiv_type s) (statusDiv s) (inputText_value s) (disabled s) (display
    s) (messages s) (splash s) (errorModal s) (applicationSent s)
    (transcribeSent s) (fetchRequests s) (getUserMediaRequests s)
    (audioDiv_plays s) (processed s).

Definition set_micStream (v : option bool) (s : Session) : Session :=
  mkSession (websocketApplicationQueue s) (websocketQueue s)
    (websocketApplication s) (websocketApplicationUrl s) (websocketTranscribe
    s) (websocketTranscribeUrl s) (isQueueProcessing s) (isSpeaking s)
    (isListening s) v (micSampleRate s) (transcription s) (utteranceLastEvent
    s) (utterance s) (allowAudioInput s) (allowAudioInputOnly s) (audioDiv_src
    s) (audioDiv_type s) (statusDiv s) (inputText_value s) (disabled s)
    (display s) (messages s) (splash s) (errorModal s) (applicationSent s)
    (transcribeSent s) (fetchRequests s) (getUserMediaRequests s)
    (audioDiv_plays s) (processed s).

Definition set_micSampleRate (v : option Q) (s : Session) : Session :=
  mkSession (websocketApplicationQueue s) (websocketQueue s)
    (websocketApplication s) (websocketApplicationUrl s) (websocketTranscribe
    s) (websocketTranscribeUrl s) (isQueueProcessing s) (isSpeaking s)
    (isListening s) (micStream s) v (transcription s) (utteranceLastEvent s)
    (utterance s) (allowAudioInput s) (allowAudioInputOnly s) (audioDiv_src s)
    (audioDiv_type s) (statusDiv s) (inputText_value s) (disabled s) (display
    s) (messages s) (splash s) (errorModal s) (applicationSent s)
    (transcribeSent s) (fetchRequests s) (getUserMediaRequests s)
    (audioDiv_plays s) (processed s).

Definition set_transcription (v : string) (s : Session) : Session :=
  mkSession (websocketApplicationQueue s) (websocketQueue s)
    (websocketApplication s) (websocketApplicationUrl s) (websocketTranscribe
    s) (websocketTranscribeUrl s) (isQueueProcessing s) (isSpeaking s)
    (isListening s) (micStream s) (micSampleRate s) v (utteranceLastEvent s)
    (utterance s) (allowAudioInput s) (allowAudioInputOnly s) (audioDiv_src s)
    (audioDiv_type s) (statusDiv s) (inputText_value s) (disabled s) (display
    s) (messages s) (splash s) (errorModal s) (applicationSent s)
    (transcribeSent s) (fetchRequests s) (getUserMediaRequests s)
    (audioDiv_plays s) (processed s).

Definition set_utteranceLastEvent (v : option Z) (s : Session) : Session :=
  mkSession (websocketApplicationQueue s) (websocketQueue s)
    (websocketApplication s) (websocketApplicationUrl s) (websocketTranscribe
    s) (websocketTranscribeUrl s) (isQueueProcessing s) (isSpeaking s)
    (isListening s) (micStream s) (micSampleRate s) (transcription s) v
    (utterance s) (allowAudioInput s) (allowAudioInputOnly s) (audioDiv_src s)
    (audioDiv_type s) (statusDiv s) (inputText_value s) (disabled s) (display
    s) (messages s) (splash s) (errorModal s) (applicationSent s)
    (transcribeSent s) (fetchRequests s) (getUserMediaRequests s)
    (audioDiv_plays s) (processed s).

Definition set_utterance (v : string) (s : Session) : Session :=
  mkSession (websocketApplicationQueue s) (websocketQueue s)
    (websocketApplication s) (websocketApplicationUrl s) (websocketTranscribe
    s) (websocketTranscribeUrl s) (isQueueProcessing s) (isSpeaking s)
    (isListening s) (micStream s) (micSampleRate s) (transcription s)
    (utteranceLastEvent s) v (allowAudioInput s) (allowAudioInputOnly s)
    (audioDiv_src s) (audioDiv_type s) (statusDiv s) (inputText_value s)
    (disabled s) (display s) (messages s) (splash s) (errorModal s)
    (applicationSent s) (transcribeSent s) (fetchRequests s)
    (getUserMediaRequests s) (audioDiv_plays s) (processed s).

Definition set_allowAudioInput (v : bool) (s : Session) : Session :=
  mkSession (websocketApplicationQueue s) (websocketQueue s)
    (websocketApplication s) (websocketApplicationUrl s) (websocketTranscribe
    s) (websocketTranscribeUrl s) (isQueueProcessing s) (isSpeaking s)
    (isListening s) (micStream s) (micSampleRate s) (transcription s)
    (utteranceLastEvent s) (utterance s) v (allowAudioInputOnly s)
    (audioDiv_src s) (audioDiv_type s) (statusDiv s) (inputText_value s)
    (disabled s) (display s) (messages s) (splash s) (errorModal s)
    (applicationSent s) (transcribeSent s) (fetchRequests s)
    (getUserMediaRequests s) (audioDiv_plays s) (processed s).

Definition set_allowAudioInputOnly (v : bool) (s : Session) : Session :=
  mkSession (websocketApplicationQueue s) (websocketQueue s)
    (websocketApplication s) (websocketApplicationUrl s) (websocketTranscribe
    s) (websocketTranscribeUrl s) (isQueueProcessing s) (isSpeaking s)
    (isListening s) (micStream s) (micSampleRate s) (transcription s)
    (utteranceLastEvent s) (utterance s) (allowAudioInput s) v (audioDiv_src
    s) (audioDiv_type s) (statusDiv s) (inputText_value s) (disabled s)
    (display s) (messages s) (splash s) (errorModal s) (applicationSent s)
    (transcribeSent s) (fetchRequests s) (getUserMediaRequests s)
    (audioDiv_plays s) (processed s).

Definition set_audioDiv_src (v : string) (s : Session) : Session :=
  mkSession (websocketApplicationQueue s) (websocketQueue s)
    (websocketApplication s) (websocketApplicationUrl s) (websocketTranscribe
    s) (websocketTranscribeUrl s) (isQueueProcessing s) (isSpeaking s)
    (isListening s) (micStream s) (micSampleRate s) (transcription s)
    (utteranceLastEvent s) (utterance s) (allowAudioInput s)
    (allowAudioInputOnly s) v (audioDiv_type s) (statusDiv s) (inputText_value
    s) (disabled s) (display s) (messages s) (splash s) (errorModal s)
    (applicationSent s) (transcribeSent s) (fetchRequests s)
    (getUserMediaRequests s) (audioDiv_plays s) (processed s).

Definition set_audioDiv_type (v : string) (s : Session) : Session :=
  mkSession (websocketApplicationQueue s) (websocketQueue s)
    (websocketApplication s) (websocketApplicationUrl s) (websocketTranscribe
    s) (websocketTranscribeUrl s) (isQueueProcessing s) (isSpeaking s)
    (isListening s) (micStream s) (micSampleRate s) (transcription s)
    (utteranceLastEvent s) (utterance s) (allowAudioInput s)
    (allowAudioInputOnly s) (audioDiv_src s) v (statusDiv s) (inputText_value
    s) (disabled s) (display s) (messages s) (splash s) (errorModal s)
    (applicationSent s) (transcribeSent s) (fetchRequests s)
    (getUserMediaRequests s) (audioDiv_plays s) (processed s).

Definition set_statusDiv (v : string * string * string) (s : Session) : Session :=
  mkSession (websocketApplicationQueue s) (websocketQueue s)
    (websocketApplication s) (websocketApplicationUrl s) (websocketTranscribe
    s) (websocketTranscribeUrl s) (isQueueProcessing s) (isSpeaking s)
    (isListening s) (micStream s) (micSampleRate s) (transcription s)
    (utteranceLastEvent s) (utterance s) (allowAudioInput s)
    (allowAudioInputOnly s) (audioDiv_src s) (audioDiv_type s) v
    (inputText_value s) (disabled s) (display s) (messages s) (splash s)
    (errorModal s) (applicationSent s) (transcribeSent s) (fetchRequests s)
    (getUserMediaRequests s) (audioDiv_plays s) (processed s).

Definition set_inputText_value (v : string) (s : Session) : Session :=
  mkSession (websocketApplicationQueue s) (websocketQueue s)
    (websocketApplication s) (websocketApplicationUrl s) (websocketTranscribe
    s) (websocketTranscribeUrl s) (isQueueProcessing s) (isSpeaking s)
    (isListening s) (micStream s) (micSampleRate s) (transcription s)
    (utteranceLastEvent s) (utterance s) (allowAudioInput s)
    (allowAudioInputOnly s) (audioDiv_src s) (audioDiv_type s) (statusDiv s) v
    (disabled s) (display s) (messages s) (splash s) (errorModal s)
    (applicationSent s) (transcribeSent s) (fetchRequests s)
    (getUserMediaRequests s) (audioDiv_plays s) (processed s).

Definition set_disabled (v : gmap string bool) (s : Session) : Session :=
  mkSession (websocketApplicationQueue s) (websocketQueue s)
    (websocketApplication s) (websocketApplicationUrl s) (websocketTranscribe
    s) (websocketTranscribeUrl s) (isQueueProcessing s) (isSpeaking s)
    (isListening s) (micStream s) (micSampleRate s) (transcription s)
    (utteranceLastEvent s) (utterance s) (allowAudioInput s)
    (allowAudioInputOnly s) (audioDiv_src s) (audioDiv_type s) (statusDiv s)
    (inputText_value s) v (display s) (messages s) (splash s) (errorModal s)
    (applicationSent s) (transcribeSent s) (fetchRequests s)
    (getUserMediaRequests s) (audioDiv_plays s) (processed s).

Definition set_display (v : gmap string string) (s : Session) : Session :=
  mkSession (websocketApplicationQueue s) (websocketQueue s)
    (websocketApplication s) (websocketApplicationUrl s) (websocketTranscribe
    s) (websocketTranscribeUrl s) (isQueueProcessing s) (isSpeaking s)
    (isListening s) (micStream s) (micSampleRate s) (transcription s)
    (utteranceLastEvent s) (utterance s) (allowAudioInput s)
    (allowAudioInputOnly s) (audioDiv_src s) (audioDiv_type s) (statusDiv s)
    (inputText_value s) (disabled s) v (messages s) (splash s) (errorModal s)
    (applicationSent s) (transcribeSent s) (fetchRequests s)
    (getUserMediaRequests s) (audioDiv_plays s) (processed s).

Definition set_messages (v : list DisplayCall) (s : Session) : Session :=
  mkSession (websocketApplicationQueue s) (websocketQueue s)
    (websocketApplication s) (websocketApplicationUrl s) (websocketTranscribe
    s) (websocketTranscribeUrl s) (isQueueProcessing s) (isSpeaking s)
    (isListening s) (micStream s) (micSampleRate s) (transcription s)
    (utteranceLastEvent s) (utterance s) (allowAudioInput s)
    (allowAudioInputOnly s) (audioDiv_src s) (audioDiv_type s) (statusDiv s)
    (inputText_value s) (disabled s) (display s) v (splash s) (errorModal s)
    (applicationSent s) (transcribeSent s) (fetchRequests s)
    (getUserMediaRequests s) (audioDiv_plays s) (processed s).

Definition set_splash (v : bool) (s : Session) : Session :=
  mkSession (websocketApplicationQueue s) (websocketQueue s)
    (websocketApplication s) (websocketApplicationUrl s) (websocketTranscribe
    s) (websocketTranscribeUrl s) (isQueueProcessing s) (isSpeaking s)
    (isListening s) (micStream s) (micSampleRate s) (transcription s)
    (utteranceLastEvent s) (utterance s) (allowAudioInput s)
    (allowAudioInputOnly s) (audioDiv_src s) (audioDiv_type s) (statusDiv s)
    (inputText_value s) (disabled s) (display s) (messages s) v (errorModal s)
    (applicationSent s) (transcribeSent s) (fetchRequests s)
    (getUserMediaRequests s) (audioDiv_plays s) (processed s).

Definition set_errorModal (v : option (string * string)) (s : Session) : Session :=
  mkSession (websocketApplicationQueue s) (websocketQueue s)
    (websocketApplication s) (websocketApplicationUrl s) (websocketTranscribe
    s) (websocketTranscribeUrl s) (isQueueProcessing s) (isSpeaking s)
    (isListening s) (micStream s) (micSampleRate s) (transcription s)
    (utteranceLastEvent s) (utterance s) (allowAudioInput s)
    (allowAudioInputOnly s) (audioDiv_src s) (audioDiv_type s) (statusDiv s)
    (inputText_value s) (disabled s) (display s) (messages s) (splash s) v
    (applicationSent s) (transcribeSent s) (fetchRequests s)
    (getUserMediaRequests s) (audioDiv_plays s) (processed s).

Definition set_applicationSent (v : list ControlMessage) (s : Session) : Session :=
  mkSession (websocketApplicationQueue s) (websocketQueue s)
    (websocketApplication s) (websocketApplicationUrl s) (websocketTranscribe
    s) (websocketTranscribeUrl s) (isQueueProcessing s) (isSpeaking s)
    (isListening s) (micStream s) (micSampleRate s) (transcription s)
    (utteranceLastEvent s) (utterance s) (allowAudioInput s)
    (allowAudioInputOnly s) (audioDiv_src s) (audioDiv_type s) (statusDiv s)
    (inputText_value s) (disabled s) (display s) (messages s) (splash s)
    (errorModal s) v (transcribeSent s) (fetchRequests s)
    (getUserMediaRequests s) (audioDiv_plays s) (processed s).

Definition set_transcribeSent (v : list (option (list Z))) (s : Session) : Session :=
  mkSession (websocketApplicationQueue s) (websocketQueue s)
    (websocketApplication s) (websocketApplicationUrl s) (websocketTranscribe
    s) (websocketTranscribeUrl s) (isQueueProcessing s) (isSpeaking s)
    (isListening s) (micStream s) (micSampleRate s) (transcription s)
    (utteranceLastEvent s) (utterance s) (allowAudioInput s)
    (allowAudioInputOnly s) (audioDiv_src s) (audioDiv_type s) (statusDiv s)
    (inputText_value s) (disabled s) (display s) (messages s) (splash s)
    (errorModal s) (applicationSent s) v (fetchRequests s)
    (getUserMediaRequests s) (audioDiv_plays s) (processed s).

Definition set_fetchRequests (v : nat) (s : Session) : Session :=
  mkSession (websocketApplicationQueue s) (websocketQueue s)
    (websocketApplication s) (websocketApplicationUrl s) (websocketTranscribe
    s) (websocketTranscribeUrl s) (isQueueProcessing s) (isSpeaking s)
    (isListening s) (micStream s) (micSampleRate s) (transcription s)
    (utteranceLastEvent s) (utterance s) (allowAudioInput s)
    (allowAudioInputOnly s) (audioDiv_src s) (audioDiv_type s) (statusDiv s)
    (inputText_value s) (disabled s) (display s) (messages s) (splash s)
    (errorModal s) (applicationSent s) (transcribeSent s) v
    (getUserMediaRequests s) (audioDiv_plays s) (processed s).

Definition set_getUserMediaRequests (v : nat) (s : Session) : Session :=
  mkSession (websocketApplicationQueue s) (websocketQueue s)
    (websocketApplication s) (websocketApplicationUrl s) (websocketTranscribe
    s) (websocketTranscribeUrl s) (isQueueProcessing s) (isSpeaking s)
    (isListening s) (micStream s) (micSampleRate s) (transcription s)
    (utteranceLastEvent s) (utterance s) (allowAudioInput s)
    (allowAudioInputOnly s) (audioDiv_src s) (audioDiv_type s) (statusDiv s)
    (inputText_value s) (disabled s) (display s) (messages s) (splash s)
    (errorModal s) (applicationSent s) (transcribeSent s) (fetchRequests s) v
    (audioDiv_plays s) (processed s).

Definition set_audioDiv_plays (v : list (string * string)) (s : Session) : Session :=
  mkSession (websocketApplicationQueue s) (websocketQueue s)
    (websocketApplication s) (websocketApplicationUrl s) (websocketTranscribe
    s) (websocketTranscribeUrl s) (isQueueProcessing s) (isSpeaking s)
    (isListening s) (micStream s) (micSampleRate s) (transcription s)
    (utteranceLastEvent s) (utterance s) (allowAudioInput s)
    (allowAudioInputOnly s) (audioDiv_src s) (audioDiv_type s) (statusDiv s)
    (inputText_value s) (disabled s) (display s) (messages s) (splash s)
    (errorModal s) (applicationSent s) (transcribeSent s) (fetchRequests s)
    (getUserMediaRequests s) v (processed s).

Definition set_processed (v : list QueueItem) (s : Session) : Session :=
  mkSession (websocketApplicationQueue s) (websocketQueue s)
    (websocketApplication s) (websocketApplicationUrl s) (websocketTranscribe
    s) (websocketTranscribeUrl s) (isQueueProcessing s) (isSpeaking s)
    (isListening s) (micStream s) (micSampleRate s) (transcription s)
    (utteranceLastEvent s) (utterance s) (allowAudioInput s)
    (allowAudioInputOnly s) (audioDiv_src s) (audioDiv_type s) (statusDiv s)
    (inputText_value s) (disabled s) (display s) (messages s) (splash s)
    (errorModal s) (applicationSent s) (transcribeSent s) (fetchRequests s)
    (getUserMediaRequests s) (audioDiv_plays s) v.

(** How a piece of the script ends: it returns, or an exception propagates
    out of it.  The session is the one the script has built so far. *)
Inductive completion : Type :=
  | Normal (s : Session)
  | Throw (s : Session).

Definition session_of (c : completion) : Session :=
  match c with
  | Normal s | Throw s => s
  end.

Definition andThen (c : completion) (k : Session -> completion) : completion :=
  match c with
  | Normal s => k s
  | Throw s => Throw s
  end.

(* ------------------------------------------------------------------ *)
(** ** Constants of the script *)

Definition pathRingToneUrl : string := "assets/audio/start_tone.wav".
Definition pathEmptyToneUrl : string := "assets/audio/empty_tone.wav".
Definition transcribeSampleRate : Q := 16000%Q.
Definition newline : string := String "010"%char EmptyString.
Definition websocketErrorText : string :=
  "An error has occurred with the application websocket." +:+ newline
  +:+ " Please reload your browser.".

(* ------------------------------------------------------------------ *)
(** ** Output helpers *)

Definition setDisabled (id : string) (b : bool) (s : Session) : Session :=
  set_disabled (<[id := b]> (disabled s)) s.

Definition setDisplay (id v : string) (s : Session) : Session :=
  set_display (<[id := v]> (display s)) s.

Definition updateStatus (status type icon : string) (s : Session) : Session :=
  set_statusDiv (status, type, icon) s.

Definition showErrorMessage (title message : string) (s : Session) : Session :=
  set_errorModal (Some (title, message)) s.

(** [audioDiv.play()] *)
Definition audioDiv_play (s : Session) : Session :=
  set_audioDiv_plays (audioDiv_plays s ++ [(audioDiv_src s, audioDiv_type s)]) s.

Definition audioPlay (url type : string) (s : Session) : Session :=
  let s := set_audioDiv_src url s in
  let s := set_audioDiv_type type s in
  audioDiv_play s.

(** [clearAudio], as far as the session records the audio element: the
    source is replaced ([removeAttribute] and [pause] leave no trace in it). *)
Definition clearAudio (s : Session) : Session :=
  set_audioDiv_src pathEmptyToneUrl s.

(** [displayText(text, type, url)].  Every path through the function
    evaluates [type.toLowerCase()] before it changes the document, so a
    missing [type] throws [TypeError] and leaves the session as it was;
    otherwise the call is recorded. *)
Definition displayText (text : option string) (type : option string)
    (url : option string) (s : Session) : completion :=
  match type with
  | None => Throw s
  | Some type =>
      Normal (set_messages (messages s ++ [mkDisplayCall text type url]) s)
  end.

(** The [playing] listener of [audioDiv]; its [ended] listener,
    [audioDiv_ended], follows [queueProcessor]. *)
Definition audioDiv_playing (s : Session) : Session :=
  let s := set_isSpeaking true s in
  let s := setDisabled "stopProcessButton" true s in
  let type := audioDiv_type s in
  if (type =? "FEEDBACK")%string then
    updateStatus "Generating Feedback" "success" "megaphone" s
  else if (type =? "RESPONSE")%string then
    updateStatus "Speaking" "success" "volume-up" s
  else s.

(* ------------------------------------------------------------------ *)
(** ** Control channel *)

(** The [while] loop of [websocketApplicationQueueProcessor]. *)
Fixpoint websocketApplication_flush (queue sent : list ControlMessage)
    : list ControlMessage :=
  match queue with
  | [] => sent
  | message :: queue' => websocketApplication_flush queue' (sent ++ [message])
  end.

Definition websocketApplicationQueueProcessor (data : option ControlMessage)
    (s : Session) : Session :=
  let s :=
    match data with
    | Some d =>
        set_websocketApplicationQueue (websocketApplicationQueue s ++ [d]) s
    | None => s
    end in
  match websocketApplicationQueue s, websocketApplication s with
  | _ :: _, Some OPEN =>
      let s :=
        set_applicationSent
          (websocketApplication_flush (websocketApplicationQueue s)
             (applicationSent s)) s in
      set_websocketApplicationQueue [] s
  | _, _ => s
  end.

(** [websocketApplicationConnect]: up to the [fetch]; its continuations are
    [fetch_resolved] and [fetch_rejected]. *)
Definition websocketApplicationConnect (s : Session) : Session :=
  let s := websocketApplicationQueueProcessor None s in
  set_fetchRequests (S (fetchRequests s)) s.

Definition fetch_resolved (websocket_url : string) (s : Session) : Session :=
  let s := set_websocketApplicationUrl (Some websocket_url) s in
  set_websocketApplication (Some CONNECTING) s.

Definition fetch_rejected (s : Session) : Session :=
  showErrorMessage "Websocket Error" websocketErrorText s.

Definition websocketApplicationDisconnect (s : Session) : completion :=
  let s := set_websocketApplicationQueue [] s in
  match websocketApplication s with
  | None => Throw s
  | Some (CONNECTING | OPEN) => Normal (set_websocketApplication (Some CLOSING) s)
  | Some (CLOSING | CLOSED) => Normal s
  end.

(** The callback of [setInterval]. *)
Definition keepalive_tick (s : Session) : Session :=
  match websocketApplication s with
  | None => websocketApplicationConnect s
  | Some _ =>
      let message := mkControlMessage "ping" None None in
      websocketApplicationQueueProcessor (Some message) s
  end.

Definition startStreamAudio (s : Session) : Session :=
  set_getUserMediaRequests (S (getUserMediaRequests s)) s.

(* ------------------------------------------------------------------ *)
(** ** Playback sequencer *)

(** [queueProcessor], with [queueProcessorCompletedAction] unfolded at its
    calls.  Each nested call has taken one item off the queue; [fuel] bounds
    the nesting and [None] reports that it ran out. *)
Fixpoint queueProcessor_rec (fuel : nat) (data : option QueueItem)
    (s : Session) : option completion :=
  match fuel with
  | O => None
  | S fuel' =>
      let queueProcessorCompletedAction (s : Session) :=
        queueProcessor_rec fuel' None (set_isQueueProcessing false s) in
      let s :=
        match data with
        | Some d => set_websocketQueue (websocketQueue s ++ [d]) s
        | None => s
        end in
      let drained :=
        match websocketQueue s with
        | queueItem :: rest =>
            if isQueueProcessing s then Some (Normal s)
            else
              let s := set_isQueueProcessing true s in
              let s := set_websocketQueue rest s in
              let s := set_processed (processed s ++ [queueItem]) s in
              if (action queueItem =? "PLAY_RESPONSE")%string then
                Some (Normal (audioPlay (value queueItem) "RESPONSE" s))
              else if (action queueItem =? "PLAY_FEEDBACK")%string then
                Some (Normal (audioPlay (value queueItem) "FEEDBACK" s))
              else if (action queueItem =? "PLAY_RINGTONE")%string then
                let s := setDisabled "speakButton" false s in
                let s := setDisabled "inputText" false s in
                Some (Normal (audioPlay (value queueItem) "RINGTONE" s))
              else if ((action queueItem =? "DISPLAY_RESPONSE")%string
                       && bool_decide (type queueItem = Some "IMAGE")) then
                match displayText None (Some "RESPONSE")
                        (Some (value queueItem)) s with
                | Normal s => queueProcessorCompletedAction s
                | Throw s => Some (Throw s)
                end
              else if (action queueItem =? "DISPLAY_RESPONSE")%string then
                match displayText (Some (value queueItem)) (Some "RESPONSE")
                        None s with
                | Normal s => queueProcessorCompletedAction s
                | Throw s => Some (Throw s)
                end
              else if (action queueItem =? "DISPLAY_FEEDBACK")%string then
                match displayText (Some (value queueItem)) (Some "FEEDBACK")
                        None s with
                | Normal s => queueProcessorCompletedAction s
                | Throw s => Some (Throw s)
                end
              else if (action queueItem =? "REASONING")%string then
                queueProcessorCompletedAction s
              else if (action queueItem =? "TRANSCRIBE_CONNECTION")%string then
                let s := set_websocketTranscribeUrl (Some (value queueItem)) s in
                let s := if allowAudioInput s then startStreamAudio s else s in
                queueProcessorCompletedAction s
              else if (action queueItem =? "FEEDBACK_END")%string then
                let s :=
                  if allowAudioInput s then
                    let s := setDisplay "startProcessButton" "inline" s in
                    let s := setDisplay "stopProcessButton" "none" s in
                    setDisabled "speakButton" false s
                  else s in
                let s := setDisabled "inputText" false s in
                queueProcessorCompletedAction s
              else if (action queueItem =? "WAIT")%string then
                let s := updateStatus "Processing" "success" "arrow-down-up" s in
                match displayText (Some (value queueItem)) (type queueItem)
                        None s with
                | Normal s => queueProcessorCompletedAction s
                | Throw s => Some (Throw s)
                end
              else if (action queueItem =? "ERROR")%string then
                let s :=
                  updateStatus "Processing" "success" "exclamation-square" s in
                match displayText (Some (value queueItem)) (type queueItem)
                        None s with
                | Normal s => queueProcessorCompletedAction s
                | Throw s => Some (Throw s)
                end
              else queueProcessorCompletedAction s
        | [] => Some (Normal s)
        end in
      match drained with
      | Some (Normal s) =>
          match websocketQueue s with
          | [] => Some (Normal (updateStatus "Ready" "success" "check-square" s))
          | _ :: _ => Some (Normal s)
          end
      | other => other
      end
  end.

(** A call from outside: the nesting is at most one deeper than the queue is
    long once [data] is pushed ([queueProcessor_total] below). *)
Definition queueProcessor (data : option QueueItem) (s : Session)
    : option completion :=
  queueProcessor_rec (S (S (length (websocketQueue s)))) data s.

Definition queueProcessorCompletedAction (s : Session) : option completion :=
  let s := set_isQueueProcessing false s in
  queueProcessor None s.

Definition audioDiv_ended (s : Session) : option completion :=
  let s := set_isSpeaking false s in
  let s := setDisabled "stopProcessButton" false s in
  queueProcessorCompletedAction s.

(** The listeners of the control channel socket.  The browser has moved the
    socket to the state of the event before it runs the listener. *)
Definition websocketApplication_open (controls : string) (s : Session)
    : Session :=
  let s := set_websocketApplication (Some OPEN) s in
  websocketApplicationQueueProcessor
    (Some (mkControlMessage "startProcess" None (Some controls))) s.

Definition websocketApplication_message (data : QueueItem) (s : Session)
    : option completion :=
  let c :=
    if (action data =? "FEEDBACK_END")%string then
      websocketApplicationDisconnect s
    else if (action data =? "PROVIDE_FEEDBACK")%string then
      Normal (updateStatus "Generating Feedback" "success" "megaphone" s)
    else Normal s in
  match c with
  | Normal s => queueProcessor (Some data) s
  | Throw s => Some (Throw s)
  end.

Definition websocketApplication_close (s : Session) : Session :=
  let s := set_websocketApplication (Some CLOSED) s in
  websocketApplicationQueueProcessor None s.

(** The [error] event belongs to the closing of the socket: the browser
    fires it with the socket closed, and the [close] event follows it. *)
Definition websocketApplication_error (s : Session) : Session :=
  let s := set_websocketApplication (Some CLOSED) s in
  websocketApplicationConnect s.

(* ------------------------------------------------------------------ *)
(** ** Utterance assembler *)

Definition sendUtterance (utterance : string) (s : Session) : Session :=
  let message := mkControlMessage "sendUtterance" (Some utterance) None in
  let s := updateStatus "Processing" "success" "arrow-down-up" s in
  let s := websocketApplicationQueueProcessor (Some message) s in
  (* [utterance = ''] assigns the parameter, not the variable of the module *)
  set_transcription EmptyString s.

(** The click listener of [sendButton]. *)
Definition sendButton_click (s : Session) : completion :=
  if (0 <? String.length (inputText_value s))%nat then
    let s := set_websocketQueue [] s in
    let s := set_websocketApplicationQueue [] s in
    let s := audioDiv_play s in
    let s :=
      match websocketApplication s with
      | None => websocketApplicationConnect s
      | Some _ => s
      end in
    let s := set_isListening false s in
    let s := if splash s then set_messages [] s else s in
    let s :=
      if allowAudioInput s then
        let s := setDisplay "startProcessButton" "none" s in
        let s := setDisplay "stopProcessButton" "inline" s in
        let s := setDisabled "stopProcessButton" false s in
        setDisabled "speakButton" false s
      else s in
    let s := setDisabled "inputText" false s in
    let s := sendUtterance (inputText_value s) s in
    andThen (displayText (Some (inputText_value s)) (Some "UTTERANCE") None s)
      (fun s =>
    andThen (displayText (Some "BUILDING_RESPONSE") (Some "WAIT") None s)
      (fun s =>
    let s := set_inputText_value EmptyString s in
    Normal (setDisabled "sendButton" true s)))
  else Normal s.

(** [handleEventStreamMessage(messageJson)], given
    [messageJson.Transcript.Results] and the value of [Date.now()].
    [sendButton.click()] runs the listener above to its end; an exception of
    a listener does not reach the caller of [click]. *)
Definition handleEventStreamMessage `{Platform} (now : Z)
    (results : list TranscriptResult) (s : Session) : completion :=
  match results with
  | result0 :: _ =>
      match Alternatives result0 with
      | transcript :: _ =>
          let s := set_utteranceLastEvent (Some now) s in
          match decodeURIComponent transcript with
          | None => Throw s
          | Some transcript =>
              if negb (IsPartial result0) then
                let s :=
                  set_transcription
                    (transcription s +:+ transcript +:+ newline) s in
                let s := set_utterance (utterance s +:+ transcription s) s in
                Normal (set_transcription EmptyString s)
              else Normal s
          end
      | [] => Normal s
      end
  | [] =>
      if negb (isListening s) then
        if (2 <? length (split_nonword (trim (utterance s))))%nat then
          let s :=
            match decodeURIComponent (escape (utterance s)) with
            | Some decoded => set_utterance decoded s
            | None => s
            end in
          let s :=
            set_inputText_value
              (inputText_value s +:+ " " +:+ utterance s) s in
          let s := setDisabled "sendButton" false s in
          let s :=
            if allowAudioInputOnly s then session_of (sendButton_click s)
            else s in
          let s := set_utterance EmptyString s in
          Normal (set_transcription EmptyString s)
        else Normal s
      else Normal s
  end.

(* ------------------------------------------------------------------ *)
(** ** Transcription channel *)

Definition getAudioEventMessage (buffer : list Z) : EventStreamMessage :=
  mkEventStreamMessage
    [(":message-type", ("string", "event"));
     (":event-type", ("string", "AudioEvent"))]
    buffer.

(** [convertAudioToBinaryMessage(audioChunk)]; [None] is [undefined].  An
    undefined [micSampleRate] selects the default of the parameter of
    [downsampleBuffer]. *)
Definition convertAudioToBinaryMessage `{Platform} (audioChunk : list Z)
    (s : Session) : option (list Z) :=
  match mic_toRaw audioChunk with
  | None => None
  | Some raw =>
      let downsampledBuffer :=
        downsampleBuffer raw (default 44100%Q (micSampleRate s))
          transcribeSampleRate in
      let pcmEncodedBuffer := pcmEncode downsampledBuffer in
      let audioEventMessage := getAudioEventMessage pcmEncodedBuffer in
      Some (marshall audioEventMessage)
  end.

(** [websocketTranscribe.send(data)]: [InvalidStateError] while connecting,
    the data is dropped once the socket is closing or closed. *)
Definition websocketTranscribe_send (data : option (list Z)) (s : Session)
    : completion :=
  match websocketTranscribe s with
  | None | Some CONNECTING => Throw s
  | Some OPEN => Normal (set_transcribeSent (transcribeSent s ++ [data]) s)
  | Some (CLOSING | CLOSED) => Normal s
  end.

Definition micStream_stop (s : Session) : Session :=
  set_micStream (Some false) s.

(** [websocketTranscribeConnect(userMediaStream)], up to the registration of
    the listeners. *)
Definition websocketTranscribeConnect (s : Session) : Session :=
  let s := set_micStream (Some true) s in
  set_websocketTranscribe (Some CONNECTING) s.

Definition micStream_format (sampleRate : Q) (s : Session) : Session :=
  set_micSampleRate (Some sampleRate) s.

(** [new Uint8Array(16384)] *)
Definition emptyChunk : list Z := repeat 0%Z (Z.to_nat 16384).

(** The listener of the microphone's [data] event, which the [open] listener
    installs. *)
Definition micStream_data `{Platform} (rawAudioChunk : list Z) (s : Session)
    : completion :=
  let binary := convertAudioToBinaryMessage rawAudioChunk s in
  if readyState_is_OPEN (websocketTranscribe s)
     && negb (isSpeaking s) && isListening s then
    let s := updateStatus "Listening" "success" "mic" s in
    websocketTranscribe_send binary s
  else
    let empty := emptyChunk in
    let emptyBinary := convertAudioToBinaryMessage empty s in
    websocketTranscribe_send emptyBinary s.

(** The [open] listener, up to the installation of the [data] listener
    [micStream_data]. *)
Definition websocketTranscribe_open (s : Session) : option completion :=
  let s := set_websocketTranscribe (Some OPEN) s in
  let s := websocketApplicationQueueProcessor None s in
  queueProcessor (Some (mkQueueItem "PLAY_RINGTONE" pathRingToneUrl None)) s.

(** The [message] listener, given the value of the [:message-type] header
    and the parsed body. *)
Definition websocketTranscribe_message `{Platform} (now : Z)
    (messageType : string) (results : list TranscriptResult) (s : Session)
    : completion :=
  if (messageType =? "event")%string then
    handleEventStreamMessage now results s
  else Normal s.

(** The [error] listener.  The browser fires [error] with the socket
    closed.  The last statement of the listener,
    [websocketTranscribeConnect;], names the function without calling it. *)
Definition websocketTranscribe_error (s : Session) : Session :=
  let s := set_websocketTranscribe (Some CLOSED) s in
  showErrorMessage "Websocket Error" websocketErrorText s.

(** The [close] listener, given [closeEvent.code]. *)
Definition websocketTranscribe_close (code : Z) (s : Session) : Session :=
  let s := set_websocketTranscribe (Some CLOSED) s in
  let s := micStream_stop s in
  if negb (code =? 1000)%Z then
    showErrorMessage "Websocket Error" websocketErrorText s
  else s.

(** A failure of the transcription channel, as the script sees it: in one
    task the browser closes the socket, fires [error] and then fires [close]
    with the code of the closure. *)
Definition websocketTranscribe_failure (code : Z) (s : Session) : Session :=
  websocketTranscribe_close code (websocketTranscribe_error s).

Definition websocketTranscribeDisconnect `{Platform} (s : Session)
    : completion :=
  match websocketTranscribe s with
  | None => Throw s
  | Some OPEN =>
      let s := micStream_stop s in
      let emptyMessage := getAudioEventMessage [] in
      let emptyBuffer := marshall emptyMessage in
      websocketTranscribe_send (Some emptyBuffer) s
  | Some _ => Normal s
  end.

(* ------------------------------------------------------------------ *)
(** ** Listening controls *)

Definition whileListeningStart (s : Session) : Session :=
  let s := clearAudio s in
  let s := set_websocketQueue [] s in
  let s := set_websocketApplicationQueue [] s in
  let s := audioDiv_play s in
  let s := set_isSpeaking false s in
  let s := set_isListening true s in
  let s :=
    if allowAudioInput s then
      let s := setDisplay "startProcessButton" "none" s in
      let s := setDisplay "stopProcessButton" "inline" s in
      let s := setDisabled "stopProcessButton" true s in
      setDisabled "speakButton" false s
    else s in
  let s := setDisabled "inputText" true s in
  let s := setDisabled "sendButton" true s in
  updateStatus "Listening" "success" "mic" s.

Definition whileListeningStop (s : Session) : Session :=
  let s := set_isListening false s in
  let s :=
    if allowAudioInput s then
      let s := setDisplay "startProcessButton" "none" s in
      let s := setDisplay "stopProcessButton" "inline" s in
      let s := setDisabled "stopProcessButton" false s in
      setDisabled "speakButton" false s
    else s in
  let s := setDisabled "inputText" false s in
  updateStatus "Ready" "success" "check-square" s.

(* ------------------------------------------------------------------ *)
(** ** Start of the page *)

Definition blankSession : Session :=
  mkSession [] [] None None None None false false false None None
    EmptyString None EmptyString true true EmptyString EmptyString
    (EmptyString, EmptyString, EmptyString) EmptyString ∅ ∅ [] false None
    [] [] 0 0 [] [].

(** The statements the script runs when it is loaded in a browser with
    [getUserMedia]. *)
Definition loadedSession : Session :=
  let s := blankSession in
  let s := updateStatus "Stopped" "success" "slash-square" s in
  let s := setDisabled "speakButton" true s in
  let s := set_inputText_value EmptyString s in
  let s := setDisabled "inputText" false s in
  let s := setDisabled "sendButton" true s in
  let s :=
    if negb (allowAudioInput s) then
      let s := setDisplay "startProcessButton" "none" s in
      let s := setDisplay "stopProcessButton" "none" s in
      setDisplay "speakButton" "none" s
    else if allowAudioInputOnly s then setDisplay "input-controls" "none" s
    else s in
  websocketApplicationConnect s.

(* ------------------------------------------------------------------ *)
(** ** The sequencer as a transition system *)

(** What reaches the sequencer: a call [queueProcessor(data)] with an item,
    and the [ended] event of the audio element. *)
Inductive SequencerEvent : Type :=
  | Enqueue (data : QueueItem)
  | Ended.

Definition sequencer_step (e : SequencerEvent) (s : Session) : option Session :=
  match e with
  | Enqueue data => session_of <$> queueProcessor (Some data) s
  | Ended => session_of <$> audioDiv_ended s
  end.

Fixpoint sequencer_run (es : list SequencerEvent) (s : Session)
    : option Session :=
  match es with
  | [] => Some s
  | e :: es' =>
      match sequencer_step e s with
      | Some s' => sequencer_run es' s'
      | None => None
      end
  end.

Fixpoint enqueued (es : list SequencerEvent) : list QueueItem :=
  match es with
  | [] => []
  | Enqueue data :: es' => data :: enqueued es'
  | Ended :: es' => enqueued es'
  end.


(** The queue after [queueProcessor(data)] has pushed [data]. *)
Definition pushed (data : option QueueItem) (s : Session) : list QueueItem :=
  match data with
  | Some d => websocketQueue s ++ [d]
  | None => websocketQueue s
  end.

(* ------------------------------------------------------------------ *)
(** ** An executable platform

    The theorems below hold for every [Platform].  To run the model on
    concrete inputs, [browserPlatform] implements the four functions within
    the limits of the embedding. *)

(** [new Float32Array(chunk.buffer)]: one IEEE binary32 number for every four
    bytes, least significant byte first. *)
Definition float32_of_bits (bits : Z) : number :=
  let sign := Z.testbit bits 31 in
  let exponent := Z.land (Z.shiftr bits 23) 255 in
  let fraction := Z.land bits 8388607 in
  if (exponent =? 255)%Z then
    if (fraction =? 0)%Z then (if sign then NegInf else PosInf) else NaN
  else
    let significand :=
      if (exponent =? 0)%Z then fraction else (8388608 + fraction)%Z in
    let scale := if (exponent =? 0)%Z then (-149)%Z else (exponent - 150)%Z in
    let magnitude :=
      if (0 <=? scale)%Z then inject_Z (significand * 2 ^ scale)
      else Qmake significand (Z.to_pos (2 ^ (- scale))) in
    Fin (if sign then Qopp magnitude else magnitude).

Fixpoint float32_view (bytes : list Z) : list number :=
  match bytes with
  | b0 :: b1 :: b2 :: b3 :: rest =>
      float32_of_bits (b0 + 256 * b1 + 65536 * b2 + 16777216 * b3)%Z
        :: float32_view rest
  | _ => []
  end.

(** CRC-32 of the event-stream framing, one bit at a time. *)
Fixpoint crc32_bits (n : nat) (crc : Z) : Z :=
  match n with
  | O => crc
  | S n' =>
      crc32_bits n'
        (if Z.odd crc then Z.lxor (Z.shiftr crc 1) 3988292384
         else Z.shiftr crc 1)
  end.

Definition crc32 (bytes : list Z) : Z :=
  Z.lxor
    (fold_left (fun crc b => crc32_bits 8 (Z.lxor crc b)) bytes 4294967295%Z)
    4294967295%Z.

Definition uint_be (width : nat) (n : Z) : list Z :=
  map (fun i => Z.land (Z.shiftr n (8 * Z.of_nat i)) 255) (rev (seq 0 width)).

Definition bytes_of_string (s : string) : list Z :=
  map (fun c => Z.of_N (N_of_ascii c)) (list_ascii_of_string s).

(** A header with a string value: name length, name, type 7, value length,
    value. *)
Definition marshall_header (h : string * (string * string)) : list Z :=
  let name := bytes_of_string (fst h) in
  let val := bytes_of_string (snd (snd h)) in
  uint_be 1 (Z.of_nat (length name)) ++ name ++ [7%Z]
  ++ uint_be 2 (Z.of_nat (length val)) ++ val.

Definition eventstream_marshall (m : EventStreamMessage) : list Z :=
  let hs := flat_map marshall_header (headers m) in
  let total := Z.of_nat (16 + length hs + length (body m)) in
  let prelude := uint_be 4 total ++ uint_be 4 (Z.of_nat (length hs)) in
  let framed := prelude ++ uint_be 4 (crc32 prelude) ++ hs ++ body m in
  framed ++ uint_be 4 (crc32 framed).

Definition hexDigit (c : ascii) : option Z :=
  let n := Z.of_N (N_of_ascii c) in
  if ((48 <=? n) && (n <=? 57))%Z then Some (n - 48)%Z
  else if ((65 <=? n) && (n <=? 70))%Z then Some (n - 55)%Z
  else if ((97 <=? n) && (n <=? 102))%Z then Some (n - 87)%Z
  else None.

Definition ascii_of_Z (n : Z) : ascii := ascii_of_N (Z.to_N n).

(** The escape sequence [%XY] at the head of a string. *)
Definition percentByte (s : string) : option (Z * string) :=
  match s with
  | String "%" (String x (String y rest)) =>
      match hexDigit x, hexDigit y with
      | Some h, Some l => Some ((16 * h + l)%Z, rest)
      | _, _ => None
      end
  | _ => None
  end.

(** [decodeURIComponent] on strings of 8-bit code units.  [None] stands for
    [URIError] and also for a result that has a code unit above 255, which a
    [string] cannot hold. *)
Fixpoint uri_decode (fuel : nat) (s : string) : option string :=
  match fuel with
  | O => None
  | S fuel' =>
      match s with
      | EmptyString => Some EmptyString
      | String "%" _ =>
          match percentByte s with
          | None => None
          | Some (b, rest) =>
              if (b <? 128)%Z then
                String (ascii_of_Z b) <$> uri_decode fuel' rest
              else if ((194 <=? b) && (b <=? 195))%Z then
                match percentByte rest with
                | Some (b', rest') =>
                    if ((128 <=? b') && (b' <=? 191))%Z then
                      String (ascii_of_Z (64 * (b - 192) + (b' - 128)))
                        <$> uri_decode fuel' rest'
                    else None
                | None => None
                end
              else None
          end
      | String c rest => String c <$> uri_decode fuel' rest
      end
  end.

Definition hexChar (n : Z) : ascii :=
  ascii_of_Z (if (n <? 10)%Z then 48 + n else 55 + n).

(** [escape] on strings of 8-bit code units. *)
Fixpoint uri_escape (s : string) : string :=
  match s with
  | EmptyString => EmptyString
  | String c rest =>
      let n := Z.of_N (N_of_ascii c) in
      if isWordChar c
         || existsb (Z.eqb n) [64; 42; 43; 45; 46; 47]%Z then
        String c (uri_escape rest)
      else
        String "%" (String (hexChar (n / 16)) (String (hexChar (n mod 16))
          (uri_escape rest)))
  end.

Definition browserPlatform : Platform :=
  mkPlatform
    (fun chunk => Some (float32_view chunk))
    eventstream_marshall
    (fun s => uri_decode (S (String.length s)) s)
    uri_escape.

(* ------------------------------------------------------------------ *)
(** ** Notions used by the statements *)

(** Two numbers are the same value: rationals are compared as fractions,
    whatever their numerators and denominators. *)
Definition number_eq (a b : number) : Prop :=
  match a, b with
  | Fin x, Fin y => (x == y)%Q
  | PosInf, PosInf | NegInf, NegInf | NaN, NaN => True
  | _, _ => False
  end.


(** The value [pcmEncode] scales: the sample with [Math.min] and [Math.max]
    applied. *)
Definition clamped (q : Q) : Q :=
  match Math_max (-1)%Q (Math_min 1%Q (Fin q)) with
  | Fin s => s
  | PosInf | NegInf | NaN => 0%Q
  end.

(** The session right after [queueProcessor] has taken [queueItem] off the
    queue. *)
Definition dequeued (queueItem : QueueItem) (rest : list QueueItem)
    (s : Session) : Session :=
  set_processed (processed s ++ [queueItem])
    (set_websocketQueue rest (set_isQueueProcessing true s)).

(** [s'] has the queue, the processing flag and the trace of [s]. *)
Definition sequencer_frame (s s' : Session) : Prop :=
  websocketQueue s' = websocketQueue s
  /\ isQueueProcessing s' = isQueueProcessing s
  /\ processed s' = processed s.

(** The last statement of [queueProcessor]. *)
Definition ready_when_empty (s : Session) : Session :=
  match websocketQueue s with
  | [] => updateStatus "Ready" "success" "check-square" s
  | _ :: _ => s
  end.

Definition finalize (r : option completion) : option completion :=
  match r with
  | Some (Normal s) => Some (Normal (ready_when_empty s))
  | other => other
  end.

(** The actions whose branch starts the audio element and returns. *)
Definition playbackActions : list string :=
  ["PLAY_RESPONSE"; "PLAY_FEEDBACK"; "PLAY_RINGTONE"].

(** A transcript event whose first result is partial. *)
Definition isPartialEvent (results : list TranscriptResult) : bool :=
  match results with
  | result0 :: _ => IsPartial result0
  | [] => false
  end.

(** The re-decoding of the pending utterance, which keeps the text when
    [decodeURIComponent] throws. *)
Definition normalized `{Platform} (utterance : string) : string :=
  match decodeURIComponent (escape utterance) with
  | Some decoded => decoded
  | None => utterance
  end.

(** Transcript events handled one after the other, each with the time of
    its arrival. *)
Fixpoint transcript_run `{Platform}
    (events : list (Z * list TranscriptResult)) (s : Session) : Session :=
  match events with
  | [] => s
  | (now, results) :: events' =>
      transcript_run events'
        (session_of (handleEventStreamMessage now results s))
  end.

(** Inputs for the examples: a queue item with a given action, and a
    transcript event with one result and one alternative. *)
Definition item (a : string) : QueueItem := mkQueueItem a "url" None.

Definition heard (isPartial : bool) (transcript : string)
    : list TranscriptResult :=
  [mkTranscriptResult isPartial [transcript]].

(* ------------------------------------------------------------------ *)
(** ** Start and stop buttons *)

(** The click listener of [startProcessButton]. *)
Definition startProcessButton_click (s : Session) : Session :=
  let s := clearAudio s in
  let s := set_websocketQueue [] s in
  let s := set_websocketApplicationQueue [] s in
  let s := audioDiv_play s in
  let s := websocketApplicationConnect s in
  let s :=
    if allowAudioInput s then
      let s := setDisplay "startProcessButton" "none" s in
      let s := setDisplay "stopProcessButton" "inline" s in
      setDisabled "speakButton" true s
    else s in
  let s := set_inputText_value EmptyString s in
  let s := setDisabled "inputText" false s in
  let s := setDisabled "sendButton" true s in
  let s := set_messages [] s in
  updateStatus "Starting" "success" "arrow-repeat" s.

(** The click listener of [stopProcessButton]. *)
Definition stopProcessButton_click `{Platform} (s : Session) : completion :=
  andThen (websocketTranscribeDisconnect s)
    (fun s =>
  let s :=
    websocketApplicationQueueProcessor
      (Some (mkControlMessage "stopProcess" None None)) s in
  andThen (websocketApplicationDisconnect s)
    (fun s =>
  let s :=
    if allowAudioInput s then
      let s := setDisplay "startProcessButton" "inline" s in
      let s := setDisplay "stopProcessButton" "none" s in
      setDisabled "speakButton" true s
    else s in
  let s := setDisabled "inputText" false s in
  let s := setDisabled "sendButton" true s in
  Normal (updateStatus "Stopped" "success" "slash-square" s))).

(* ------------------------------------------------------------------ *)
(** ** Keyboard *)

(** The session together with [isListeningKeyDown], the variable of the
    keyboard listeners. *)
Record Page : Type := mkPage {
  session : Session;
  isListeningKeyDown : bool;
}.

(** [event.key === ' ' || event.key === 'Spacebar'] *)
Definition isSpaceKey (key : string) : bool :=
  (key =? " ")%string || (key =? "Spacebar")%string.

(** The [keydown] listener of [window], given [event.key]. *)
Definition window_keydown (key : string) (p : Page) : Page :=
  if isSpaceKey key && negb (isListeningKeyDown p)
     && allowAudioInputOnly (session p) then
    let s := session p in
    let s := setDisplay "mic-background" "inline" s in
    let s := setDisplay "mic-layer" "inline" s in
    mkPage (whileListeningStart s) true
  else p.

(** The [keyup] listener of [window], given [event.key]. *)
Definition window_keyup (key : string) (p : Page) : Page :=
  if isSpaceKey key && isListeningKeyDown p
     && allowAudioInputOnly (session p) then
    let s := session p in
    let s := setDisplay "mic-background" "none" s in
    let s := setDisplay "mic-layer" "none" s in
    mkPage (whileListeningStop s) false
  else p.

(* ------------------------------------------------------------------ *)
(** ** Text field *)

(** The [input] listener of [inputText]; the browser has put the edited
    text into [inputText.value] before it runs. *)
Definition inputText_input (value : string) (s : Session) : Session :=
  let s := set_inputText_value value s in
  if (0 <? String.length (inputText_value s))%nat then
    setDisabled "sendButton" false s
  else setDisabled "sendButton" true s.

(** The [keydown] listener of [inputText], given [event.key], a string
    (which the number [13] never equals). *)
Definition inputText_keydown (key : string) (s : Session) : Session :=
  if (key =? "Enter")%string then session_of (sendButton_click s) else s.

(** What the user does with the text field and the send button. *)
Inductive TextEvent : Type :=
  | Typed (value : string)
  | KeyDown (key : string)
  | SendClick.

Definition text_step (e : TextEvent) (s : Session) : Session :=
  match e with
  | Typed value => inputText_input value s
  | KeyDown key => inputText_keydown key s
  | SendClick => session_of (sendButton_click s)
  end.

Definition text_run (es : list TextEvent) (s : Session) : Session :=
  fold_left (fun s e => text_step e s) es s.

(* ------------------------------------------------------------------ *)
(** ** Stored settings *)

(** The values the settings functions handle.  A number is an integer that
    prints as its decimal digits (below [10^21] in magnitude), as the one
    number of the tables, [4], does. *)
Inductive JsValue : Type :=
  | VNumber (n : Z)
  | VString (s : string)
  | VUndefined.

(** The conversion [setItem] applies to the value it stores. *)
Definition ToString (v : JsValue) : string :=
  match v with
  | VNumber n => pretty n
  | VString s => s
  | VUndefined => "undefined"
  end.

(** [window.localStorage]: [None] when the browser has none. *)
Definition Storage : Type := option (gmap string string).

(** [controlValues].  The table of [scenarioSelection] is put into the
    script when it is deployed and is a parameter here.  The map holds the
    properties the literal defines; [objectPrototypeNames] are the names every
    object inherits from [Object.prototype]. *)
Definition controlValues (scenarioOptions : gmap string JsValue)
    : gmap string (gmap string JsValue) :=
  list_to_map
    [("audioPlaybackSpeed",
      list_to_map
        [("DEFAULT", VNumber 4); ("1", VString "x-slow");
         ("2", VString "slow"); ("3", VString "medium");
         ("4", VString "fast"); ("5", VString "x-fast")]);
     ("scenarioSelection", scenarioOptions);
     ("languageCode",
      list_to_map
        [("DEFAULT", VString "en-US"); ("en-US", VString "English");
         ("es-US", VString "Spanish"); ("fr-FR", VString "French");
         ("de-DE", VString "German")])].

Definition setLocalStorageValue (key : string) (value : JsValue)
    (localStorage : Storage) : Storage :=
  match localStorage with
  | Some items => Some (<[key := ToString value]> items)
  | None => None
  end.

(** The properties of [Object.prototype], which [controlValues[key]] finds
    for a [key] the literal does not define: functions, and for [__proto__]
    the prototype itself.  None of them has a property [DEFAULT]. *)
Definition objectPrototypeNames : list string :=
  ["constructor"; "hasOwnProperty"; "isPrototypeOf"; "propertyIsEnumerable";
   "toLocaleString"; "toString"; "valueOf"; "__proto__"; "__defineGetter__";
   "__defineSetter__"; "__lookupGetter__"; "__lookupSetter__"].

(** [getDefaultValue(key)]; [None] is the [TypeError] of reading [DEFAULT]
    from [undefined]. *)
Definition getDefaultValue (scenarioOptions : gmap string JsValue)
    (key : string) : option JsValue :=
  match controlValues scenarioOptions !! key with
  | Some table => Some (default VUndefined (table !! "DEFAULT"))
  | None =>
      if bool_decide (key ∈ objectPrototypeNames) then Some VUndefined
      else None
  end.

(** [getLocalStorageValue(key)]: the value returned and the storage left,
    or [None] when [getDefaultValue] throws (before anything is stored). *)
Definition getLocalStorageValue (scenarioOptions : gmap string JsValue)
    (key : string) (localStorage : Storage) : option (JsValue * Storage) :=
  match localStorage with
  | Some items =>
      match items !! key with
      | Some value => Some (VString value, localStorage)
      | None =>
          match getDefaultValue scenarioOptions key with
          | Some d => Some (d, setLocalStorageValue key d localStorage)
          | None => None
          end
      end
  | None =>
      match getDefaultValue scenarioOptions key with
      | Some d => Some (d, localStorage)
      | None => None
      end
  end.

(* ------------------------------------------------------------------ *)
(** ** Further notions used by the statements *)


(** The number zero. *)
Definition isZero (x : number) : Prop :=
  match x with
  | Fin q => (q == 0)%Q
  | PosInf | NegInf | NaN => False
  end.

(** What a transcript event with results adds to the pending utterance:
    the decoded first alternative of a first result that is final, and a
    newline. *)
Definition contribution `{Platform} (results : list TranscriptResult)
    : string :=
  match results with
  | result0 :: _ =>
      match Alternatives result0 with
      | transcript :: _ =>
          match decodeURIComponent transcript with
          | Some decoded =>
              if IsPartial result0 then EmptyString else decoded +:+ newline
          | None => EmptyString
          end
      | [] => EmptyString
      end
  | [] => EmptyString
  end.

(** The actions whose branch only shows a text. *)
Definition displayCall_of (queueItem : QueueItem) : DisplayCall :=
  mkDisplayCall (Some (value queueItem))
    (if (action queueItem =? "DISPLAY_RESPONSE")%string then "RESPONSE"
     else "FEEDBACK")
    None.

(** A queue item that shows a text: [DISPLAY_FEEDBACK], or
    [DISPLAY_RESPONSE] of a type other than [IMAGE]. *)
Definition isTextItem (queueItem : QueueItem) : Prop :=
  action queueItem = "DISPLAY_FEEDBACK"
  \/ (action queueItem = "DISPLAY_RESPONSE"
      /\ type queueItem <> Some "IMAGE").

(** [s'] has the two channels, the microphone, the transcript buffers, the
    text field and the error dialog of [s]. *)
Definition channels_frame (s s' : Session) : Prop :=
  websocketApplicationQueue s' = websocketApplicationQueue s
  /\ applicationSent s' = applicationSent s
  /\ websocketApplication s' = websocketApplication s
  /\ websocketTranscribe s' = websocketTranscribe s
  /\ transcribeSent s' = transcribeSent s
  /\ fetchRequests s' = fetchRequests s
  /\ micStream s' = micStream s
  /\ isListening s' = isListening s
  /\ utterance s' = utterance s
  /\ transcription s' = transcription s
  /\ inputText_value s' = inputText_value s
  /\ errorModal s' = errorModal s.

(** The send button is disabled exactly when the text field is empty. *)
Definition sendButton_follows_text (s : Session) : Prop :=
  disabled s !! "sendButton"
  = Some (String.length (inputText_value s) =? 0)%nat.






(* ------------------------------------------------------------------ *)
(** * Properties *)

(** ** Rounding *)



Lemma Qfloor_nonneg (x : Q) : (0 <= x)%Q -> (0 <= Qfloor x)%Z.
Proof.
  intros Hx.
  change 0%Z with (Qfloor 0).
  now apply Qfloor_resp_le.
Qed.



Lemma samples_between_nil (buffer : list number) (a b : Z) :
  (b <= a)%Z -> samples_between buffer a b = [].
Proof.
  intros Hba. unfold samples_between.
  replace (Z.to_nat (b - a)) with 0%nat by lia. reflexivity.
Qed.

Lemma samples_between_cons (buffer : list number) (a b : Z) :
  (0 <= a)%Z -> (a < b)%Z -> (a < Z.of_nat (length buffer))%Z ->
  samples_between buffer a b
  = buffer_get buffer a :: samples_between buffer (a + 1) b.
Proof.
  intros Ha Hab Hlen. unfold samples_between, buffer_get.
  destruct (Z.ltb_spec a 0) as [Hneg | _]; [lia |].
  replace (Z.to_nat (b - a)) with (S (Z.to_nat (b - (a + 1)))) by lia.
  replace (Z.to_nat (a + 1)) with (S (Z.to_nat a)) by lia.
  destruct (lookup_lt_is_Some_2 buffer (Z.to_nat a)) as [x Hx]; [lia |].
  rewrite (drop_S _ _ _ Hx). simpl.
  f_equal. symmetry. apply nth_lookup_Some with (d := NaN) in Hx. exact Hx.
Qed.


Lemma window_loop_spec (buffer : list number) (next : Z) :
  forall (fuel : nat) (i : Z) (accum : number) (count : nat),
    (0 <= i)%Z ->
    fuel = Z.to_nat (Z.min next (Z.of_nat (length buffer)) - i) ->
    window_loop buffer fuel i next accum count
    = (fold_left number_add
         (samples_between buffer i (Z.min next (Z.of_nat (length buffer))))
         accum,
       (count
        + length (samples_between buffer i
                    (Z.min next (Z.of_nat (length buffer)))))%nat).
Proof.
  induction fuel as [| fuel IH]; intros i accum count Hi Hfuel.
  - rewrite samples_between_nil by lia. simpl. f_equal. lia.
  - simpl.
    destruct (Z.ltb_spec i next) as [Hnext | Hnext]; [| lia].
    destruct (Z.ltb_spec i (Z.of_nat (length buffer))) as [Hlen | Hlen]; [| lia].
    simpl.
    rewrite IH by lia.
    rewrite (samples_between_cons buffer i) by lia.
    simpl. f_equal. lia.
Qed.

(** The [for] loop stops because its condition fails, not for want of
    fuel: more fuel changes nothing. *)
Lemma window_loop_fuel (buffer : list number) (next : Z) :
  forall (fuel extra : nat) (i : Z) (accum : number) (count : nat),
    (Z.to_nat (Z.min next (Z.of_nat (length buffer)) - i) <= fuel)%nat ->
    window_loop buffer (fuel + extra) i next accum count
    = window_loop buffer fuel i next accum count.
Proof.
  induction fuel as [| fuel IH]; intros extra i accum count Hfuel.
  - destruct extra as [| extra]; [reflexivity |]. simpl.
    destruct (Z.ltb_spec i next) as [Hnext | Hnext];
      destruct (Z.ltb_spec i (Z.of_nat (length buffer))) as [Hlen | Hlen];
      simpl; try reflexivity; lia.
  - simpl.
    destruct (Z.ltb_spec i next) as [Hnext | Hnext];
      destruct (Z.ltb_spec i (Z.of_nat (length buffer))) as [Hlen | Hlen];
      simpl; try reflexivity.
    apply IH. lia.
Qed.

Lemma window_spec (buffer : list number) (a b : Z) :
  (0 <= a)%Z ->
  window buffer a b
  = (fold_left number_add
       (samples_between buffer a (Z.min b (Z.of_nat (length buffer)))) (Fin 0),
     length (samples_between buffer a (Z.min b (Z.of_nat (length buffer))))).
Proof.
  intros Ha. unfold window. now rewrite window_loop_spec.
Qed.

Lemma window_mean (buffer : list number) (a b : Z) :
  (0 <= a)%Z ->
  number_div_count (fst (window buffer a b)) (snd (window buffer a b))
  = arithmetic_mean
      (samples_between buffer a (Z.min b (Z.of_nat (length buffer)))).
Proof.
  intros Ha. now rewrite window_spec.
Qed.



Lemma ratio_positive (i o : Q) : (0 < i)%Q -> (0 < o)%Q -> (0 < i / o)%Q.
Proof.
  intros Hi Ho. apply Qlt_shift_div_l; [exact Ho | lra].
Qed.





Lemma mean_of_one (x : number) : number_eq x (arithmetic_mean [x]).
Proof.
  destruct x as [q | | |]; simpl; try exact I.
  change (inject_Z (Z.of_nat 1)) with 1%Q. field.
Qed.

(** ** The downsampler in the arithmetic of the program *)



















(** ** PCM encoding *)

Lemma Qceiling_lower (x : Q) (n : Z) : (inject_Z n <= x)%Q -> (n <= Qceiling x)%Z.
Proof.
  intros H. rewrite <- (Qceiling_Z n). now apply Qceiling_resp_le.
Qed.

Lemma Qfloor_upper (x : Q) (n : Z) : (x <= inject_Z n)%Q -> (Qfloor x <= n)%Z.
Proof.
  intros H. rewrite <- (Qfloor_Z n). now apply Qfloor_resp_le.
Qed.

Lemma Qceiling_nonpos (x : Q) : (x <= 0)%Q -> (Qceiling x <= 0)%Z.
Proof.
  intros H. change 0%Z with (Qceiling 0). now apply Qceiling_resp_le.
Qed.

Lemma ToInt16_small (q : Q) :
  (-32768 <= Qtruncate q <= 32767)%Z -> ToInt16 (Fin q) = Qtruncate q.
Proof.
  intros H. unfold ToInt16.
  destruct (Z.leb_spec 32768 (Qtruncate q mod 65536)) as [Hhi | Hlo].
  - destruct (Z.lt_ge_cases (Qtruncate q) 0) as [Hneg | Hpos].
    + rewrite <- (Z.mod_add _ 1 65536) in * by lia.
      rewrite Z.mod_small in * by lia. lia.
    + rewrite Z.mod_small in Hhi by lia. lia.
  - destruct (Z.lt_ge_cases (Qtruncate q) 0) as [Hneg | Hpos].
    + rewrite <- (Z.mod_add _ 1 65536) in Hlo by lia.
      rewrite Z.mod_small in Hlo by lia. lia.
    + now rewrite Z.mod_small by lia.
Qed.

Lemma Qtruncate_comp (x y : Q) : (x == y)%Q -> Qtruncate x = Qtruncate y.
Proof.
  intros E. unfold Qtruncate.
  destruct (Qlt_le_dec x 0), (Qlt_le_dec y 0); try lra.
  - now rewrite E.
  - now rewrite E.
Qed.

Lemma clamped_spec (q : Q) :
  (-1 <= clamped q <= 1)%Q
  /\ ((q <= -1)%Q -> (clamped q == -1)%Q)
  /\ ((1 <= q)%Q -> (clamped q == 1)%Q)
  /\ ((-1 <= q <= 1)%Q -> (clamped q == q)%Q).
Proof.
  unfold clamped, Math_max, Math_min.
  repeat (destruct (Qlt_le_dec _ _); simpl); repeat split; intros; lra.
Qed.

Lemma pcmSample_finite (q : Q) :
  pcmSample (Fin q)
  = Fin (if Qlt_le_dec (clamped q) 0 then clamped q * 32768
         else clamped q * 32767)%Q.
Proof.
  unfold pcmSample, clamped, Math_min, Math_max, number_negative, number_scale.
  repeat (destruct (Qlt_le_dec _ _); simpl); try reflexivity; lra.
Qed.

Lemma pcm_truncate_range (s : Q) :
  (-1 <= s <= 1)%Q ->
  (-32768
   <= Qtruncate (if Qlt_le_dec s 0 then s * 32768 else s * 32767)%Q
   <= 32767)%Z.
Proof.
  intros [Hlo Hhi].
  unfold Qtruncate.
  destruct (Qlt_le_dec s 0) as [Hneg | Hpos].
  - destruct (Qlt_le_dec _ 0) as [_ | Hc]; [| lra].
    split.
    + apply Qceiling_lower. change (inject_Z (-32768)) with (-32768)%Q. lra.
    + assert (Qceiling (s * 32768) <= 0)%Z by (apply Qceiling_nonpos; lra). lia.
  - destruct (Qlt_le_dec _ 0) as [Hc | _]; [lra |].
    split.
    + assert (0 <= Qfloor (s * 32767))%Z by (apply Qfloor_nonneg; lra). lia.
    + apply Qfloor_upper. change (inject_Z 32767) with 32767%Q. lra.
Qed.

Lemma pcmSample_value (q : Q) :
  ToInt16 (pcmSample (Fin q))
  = Qtruncate (if Qlt_le_dec (clamped q) 0 then clamped q * 32768
               else clamped q * 32767)%Q.
Proof.
  rewrite pcmSample_finite.
  apply ToInt16_small, pcm_truncate_range, clamped_spec.
Qed.

Lemma ToInt16_range (x : number) : (-32768 <= ToInt16 x <= 32767)%Z.
Proof.
  destruct x as [q | | |]; simpl; try lia.
  destruct (Z.leb_spec 32768 (Qtruncate q mod 65536)) as [H | H];
    pose proof (Z.mod_pos_bound (Qtruncate q) 65536); lia.
Qed.

Lemma setInt16_littleEndian_spec (v : number) :
  exists lo hi : Z,
    setInt16_littleEndian v = [lo; hi]
    /\ (0 <= lo < 256)%Z /\ (0 <= hi < 256)%Z
    /\ (lo + 256 * hi = ToInt16 v mod 65536)%Z.
Proof.
  unfold setInt16_littleEndian.
  set (bits := (ToInt16 v mod 65536)%Z).
  assert (Hbits : (0 <= bits < 65536)%Z) by (apply Z.mod_pos_bound; lia).
  exists (Z.land bits 255), (Z.shiftr bits 8).
  change 255%Z with (Z.ones 8).
  rewrite Z.land_ones, Z.shiftr_div_pow2 by lia.
  change (2 ^ 8)%Z with 256%Z.
  split; [reflexivity |].
  pose proof (Z.mod_pos_bound bits 256).
  pose proof (Z.div_mod bits 256).
  assert (0 <= bits / 256 < 256)%Z.
  { split; [apply Z.div_pos; lia | apply Z.div_lt_upper_bound; lia]. }
  lia.
Qed.

Lemma pcmEncode_cons (x : number) (input : list number) :
  pcmEncode (x :: input) = setInt16_littleEndian (pcmSample x) ++ pcmEncode input.
Proof. reflexivity. Qed.

Lemma pcmEncode_length (input : list number) :
  length (pcmEncode input) = (2 * length input)%nat.
Proof.
  induction input as [| x input IH]; [reflexivity |].
  rewrite pcmEncode_cons, length_app, IH.
  destruct (setInt16_littleEndian_spec (pcmSample x)) as (lo & hi & -> & _).
  simpl. lia.
Qed.

(** The two bytes of sample [k] are at the indices [2 k] and [2 k + 1]. *)
Lemma pcmEncode_lookup (input : list number) :
  forall (k : nat) (x : number),
    input !! k = Some x ->
    exists lo hi : Z,
      setInt16_littleEndian (pcmSample x) = [lo; hi]
      /\ pcmEncode input !! (2 * k)%nat = Some lo
      /\ pcmEncode input !! (2 * k + 1)%nat = Some hi.
Proof.
  induction input as [| y input IH]; intros k x Hk; [discriminate |].
  rewrite pcmEncode_cons.
  destruct k as [| k].
  - injection Hk as ->.
    destruct (setInt16_littleEndian_spec (pcmSample x)) as (lo & hi & E & _).
    exists lo, hi. rewrite E. now repeat split.
  - destruct (IH k x Hk) as (lo & hi & E & Hlo & Hhi).
    exists lo, hi. split; [exact E |].
    destruct (setInt16_littleEndian_spec (pcmSample y)) as (a & b & -> & _).
    replace (2 * S k)%nat with (S (S (2 * k))) by lia.
    split; [exact Hlo | exact Hhi].
Qed.

(** C6.  [pcmEncode] writes two bytes for every sample of the buffer: the
    bytes at the indices [2 k] and [2 k + 1] are the low and the high byte of
    the two's complement of the value of sample [k], which lies in the signed
    16-bit range.  A finite sample is first clamped to [[-1, 1]]: samples at
    or below -1 give -32768, samples at or above 1 give 32767, a negative
    sample inside the range is scaled by 32768 and a non-negative one by
    32767 (and truncated).  In particular -1 encodes to -32768 and 1 to
    32767. *)
Theorem pcmEncode_clamps_then_scales (input : list number) :
  length (pcmEncode input) = (2 * length input)%nat
  /\ (forall (k : nat) (x : number),
        input !! k = Some x ->
        (-32768 <= ToInt16 (pcmSample x) <= 32767)%Z
        /\ (exists lo hi : Z,
              pcmEncode input !! (2 * k)%nat = Some lo
              /\ pcmEncode input !! (2 * k + 1)%nat = Some hi
              /\ (0 <= lo < 256)%Z /\ (0 <= hi < 256)%Z
              /\ (lo + 256 * hi = ToInt16 (pcmSample x) mod 65536)%Z)
        /\ (forall q : Q,
              x = Fin q ->
              ((q <= -1)%Q -> ToInt16 (pcmSample x) = (-32768)%Z)
              /\ ((-1 <= q < 0)%Q ->
                  ToInt16 (pcmSample x) = Qtruncate (q * 32768)%Q)
              /\ ((0 <= q <= 1)%Q ->
                  ToInt16 (pcmSample x) = Qtruncate (q * 32767)%Q)
              /\ ((1 <= q)%Q -> ToInt16 (pcmSample x) = 32767%Z)))
  /\ ToInt16 (pcmSample (Fin (-1))) = (-32768)%Z
  /\ ToInt16 (pcmSample (Fin 1)) = 32767%Z
  /\ pcmEncode [Fin (-1); Fin 1] = [0; 128; 255; 127]%Z.
Proof.
  split; [apply pcmEncode_length |].
  split.
  { intros k x Hk.
    split; [apply ToInt16_range |].
    split.
    { destruct (pcmEncode_lookup input k x Hk) as (lo & hi & E & Hlo & Hhi).
      destruct (setInt16_littleEndian_spec (pcmSample x))
        as (lo' & hi' & E' & Hb).
      rewrite E in E'. injection E' as <- <-.
      exists lo, hi. split; [exact Hlo |]. split; [exact Hhi | exact Hb]. }
    intros q ->. rewrite pcmSample_value.
    destruct (clamped_spec q) as (Hb & Hlow & Hhigh & Hmid).
    repeat split.
    - intros Hq. specialize (Hlow Hq).
      destruct (Qlt_le_dec (clamped q) 0); [| lra].
      now rewrite (Qtruncate_comp _ (-32768)) by lra.
    - intros Hq. assert (E : (clamped q == q)%Q) by (apply Hmid; lra).
      destruct (Qlt_le_dec (clamped q) 0); [| lra].
      apply Qtruncate_comp. now rewrite E.
    - intros Hq. assert (E : (clamped q == q)%Q) by (apply Hmid; lra).
      destruct (Qlt_le_dec (clamped q) 0); [lra |].
      apply Qtruncate_comp. now rewrite E.
    - intros Hq. specialize (Hhigh Hq).
      destruct (Qlt_le_dec (clamped q) 0); [lra |].
      now rewrite (Qtruncate_comp _ 32767) by lra. }
  repeat split; reflexivity.
Qed.

Lemma pcmEncode_clamps_then_scales_witness :
  exists lo hi : Z,
    pcmEncode [Fin 1; Fin (-1 # 2); Fin (3 # 2)] !! 2%nat = Some lo
    /\ pcmEncode [Fin 1; Fin (-1 # 2); Fin (3 # 2)] !! 3%nat = Some hi
    /\ (0 <= lo < 256)%Z /\ (0 <= hi < 256)%Z
    /\ (lo + 256 * hi = ToInt16 (pcmSample (Fin (-1 # 2))) mod 65536)%Z.
Proof.
  refine (proj1 (proj2 (proj1 (proj2
    (pcmEncode_clamps_then_scales [Fin 1; Fin (-1 # 2); Fin (3 # 2)]))
    1%nat (Fin (-1 # 2)) _))).
  reflexivity.
Defined.

(** ** Playback sequencer *)

Lemma sequencer_frame_refl (s : Session) : sequencer_frame s s.
Proof. now repeat split. Qed.

Lemma finalize_idempotent (r : option completion) :
  finalize (finalize r) = finalize r.
Proof.
  destruct r as [[s | s] |]; try reflexivity.
  unfold finalize, ready_when_empty.
  destruct (websocketQueue s) eqn:E; simpl; rewrite E; reflexivity.
Qed.

Ltac eqb_facts :=
  repeat match goal with
  | H : (_ =? _)%string = true |- _ => apply String.eqb_eq in H
  | H : (_ =? _)%string = false |- _ => apply String.eqb_neq in H
  end.

Ltac eqb_member :=
  eqb_facts; rewrite list_elem_of_In; simpl; intuition congruence.

(** One level of [queueProcessor]: nothing to take, a playback started, an
    exception, or a synchronous action followed by the nested call.  The
    session [s1] the branch leaves does not depend on the fuel, which the
    statement shows for two amounts at once. *)
Lemma queueProcessor_rec_step2 (fuel fuel' : nat) (data : option QueueItem)
    (s : Session) :
  match pushed data s with
  | [] =>
      forall f : nat,
        queueProcessor_rec (S f) data s
        = Some (Normal (updateStatus "Ready" "success" "check-square" s))
  | queueItem :: rest =>
      if isQueueProcessing s then
        forall f : nat,
          queueProcessor_rec (S f) data s
          = Some (Normal (set_websocketQueue (pushed data s) s))
      else
        exists s1 : Session,
          sequencer_frame (dequeued queueItem rest s) s1
          /\ ((action queueItem ∈ playbackActions
               /\ queueProcessor_rec (S fuel) data s
                  = Some (Normal (ready_when_empty s1))
               /\ queueProcessor_rec (S fuel') data s
                  = Some (Normal (ready_when_empty s1)))
              \/ (queueProcessor_rec (S fuel) data s = Some (Throw s1)
                  /\ queueProcessor_rec (S fuel') data s = Some (Throw s1))
              \/ ((action queueItem ∉ playbackActions)
                  /\ queueProcessor_rec (S fuel) data s
                     = finalize
                         (queueProcessor_rec fuel None
                            (set_isQueueProcessing false s1))
                  /\ queueProcessor_rec (S fuel') data s
                     = finalize
                         (queueProcessor_rec fuel' None
                            (set_isQueueProcessing false s1))))
  end.
Proof.
  assert (Hpush :
    forall (q : list QueueItem) (s0 : Session),
      websocketQueue s0 = q ->
      match q with
      | [] =>
          forall f : nat,
            queueProcessor_rec (S f) None s0
            = Some (Normal (updateStatus "Ready" "success" "check-square" s0))
      | queueItem :: rest =>
          if isQueueProcessing s0 then
            forall f : nat,
              queueProcessor_rec (S f) None s0 = Some (Normal s0)
          else
            exists s1 : Session,
              sequencer_frame (dequeued queueItem rest s0) s1
              /\ ((action queueItem ∈ playbackActions
                   /\ queueProcessor_rec (S fuel) None s0
                      = Some (Normal (ready_when_empty s1))
                   /\ queueProcessor_rec (S fuel') None s0
                      = Some (Normal (ready_when_empty s1)))
                  \/ (queueProcessor_rec (S fuel) None s0 = Some (Throw s1)
                      /\ queueProcessor_rec (S fuel') None s0
                         = Some (Throw s1))
                  \/ ((action queueItem ∉ playbackActions)
                      /\ queueProcessor_rec (S fuel) None s0
                         = finalize
                             (queueProcessor_rec fuel None
                                (set_isQueueProcessing false s1))
                      /\ queueProcessor_rec (S fuel') None s0
                         = finalize
                             (queueProcessor_rec fuel' None
                                (set_isQueueProcessing false s1))))
      end).
  { intros q s0 Hq. destruct q as [| queueItem rest].
    - intros f. cbn [queueProcessor_rec]. rewrite Hq. now rewrite Hq.
    - destruct (isQueueProcessing s0) eqn:Eflag.
      + intros f. cbn [queueProcessor_rec]. rewrite Hq, Eflag. now rewrite Hq.
      + cbn [queueProcessor_rec]. rewrite Hq, Eflag.
        fold (dequeued queueItem rest s0).
        repeat match goal with
        | |- context [if (?a =? ?b)%string then _ else _] =>
            destruct (a =? b)%string eqn:?
        | |- context [if (?a && ?b) then _ else _] =>
            destruct (a && b) eqn:?
        | |- context [displayText _ (type queueItem) _ _] =>
            destruct (type queueItem)
        end;
        cbn [displayText andb];
        first
          [ match goal with
            | |- context [queueProcessor_rec fuel None
                            (set_isQueueProcessing false ?A)] =>
                exists A; split;
                [| right; right; split;
                   [ eqb_member
                   | unfold finalize, ready_when_empty;
                     split;
                     (destruct (queueProcessor_rec _ None _) as [[x | x] |];
                      [destruct (websocketQueue x) | |]; reflexivity) ] ]
            end
          | match goal with
            | |- context [Some (Throw ?A)] =>
                exists A; split; [| right; left; split; reflexivity ]
            end
          | match goal with
            | |- context [updateStatus "Ready" "success" "check-square" ?A] =>
                exists A; split;
                [| left; split;
                   [ eqb_member
                   | unfold ready_when_empty;
                     destruct (websocketQueue A); split; reflexivity ] ]
            end ].
      all: try (cbn; repeat split; reflexivity).
      all: destruct (allowAudioInput _); cbn; repeat split; reflexivity. }
  destruct data as [d |]; simpl pushed.
  - specialize (Hpush (websocketQueue s ++ [d])
                  (set_websocketQueue (websocketQueue s ++ [d]) s) eq_refl).
    destruct (websocketQueue s ++ [d]) as [| queueItem rest] eqn:Eq.
    + now destruct (websocketQueue s).
    + cbn [isQueueProcessing set_websocketQueue] in Hpush.
      destruct (isQueueProcessing s) eqn:Eflag.
      * intros f. specialize (Hpush f). rewrite <- Hpush.
        cbn [queueProcessor_rec]. now rewrite Eq.
      * destruct Hpush as (s1 & Hframe & Hcases). exists s1.
        split; [exact Hframe |].
        assert (E : forall f,
                  queueProcessor_rec (S f) (Some d) s
                  = queueProcessor_rec (S f) None
                      (set_websocketQueue (queueItem :: rest) s)).
        { intros f. cbn [queueProcessor_rec]. now rewrite Eq. }
        now rewrite !E.
  - specialize (Hpush (websocketQueue s) s eq_refl).
    destruct (websocketQueue s) as [| queueItem rest] eqn:Eq; [exact Hpush |].
    destruct (isQueueProcessing s); [| exact Hpush].
    intros f. rewrite Hpush. do 2 f_equal. now rewrite <- Eq.
Qed.

Lemma queueProcessor_rec_step (fuel : nat) (data : option QueueItem)
    (s : Session) :
  match pushed data s with
  | [] =>
      queueProcessor_rec (S fuel) data s
      = Some (Normal (updateStatus "Ready" "success" "check-square" s))
  | queueItem :: rest =>
      if isQueueProcessing s then
        queueProcessor_rec (S fuel) data s
        = Some (Normal (set_websocketQueue (pushed data s) s))
      else
        exists s1 : Session,
          sequencer_frame (dequeued queueItem rest s) s1
          /\ ((action queueItem ∈ playbackActions
               /\ queueProcessor_rec (S fuel) data s
                  = Some (Normal (ready_when_empty s1)))
              \/ queueProcessor_rec (S fuel) data s = Some (Throw s1)
              \/ ((action queueItem ∉ playbackActions)
                  /\ queueProcessor_rec (S fuel) data s
                     = finalize
                         (queueProcessor_rec fuel None
                            (set_isQueueProcessing false s1))))
  end.
Proof.
  pose proof (queueProcessor_rec_step2 fuel fuel data s) as H.
  destruct (pushed data s) as [| queueItem rest]; [apply H |].
  destruct (isQueueProcessing s); [apply H |].
  destruct H as (s1 & Hframe & [(? & ? & _) | [(? & _) | (? & ? & _)]]);
    exists s1; eauto.
Qed.

Lemma ready_when_empty_frame (s : Session) :
  sequencer_frame s (ready_when_empty s).
Proof.
  unfold ready_when_empty. destruct (websocketQueue s) eqn:E; now repeat split.
Qed.

Lemma finalize_Some (r : option completion) (c : completion) :
  finalize r = Some c ->
  exists c0 : completion,
    r = Some c0 /\ sequencer_frame (session_of c0) (session_of c).
Proof.
  destruct r as [[s | s] |]; simpl; intros H; inversion H; subst.
  - eexists. split; [reflexivity |]. apply ready_when_empty_frame.
  - eexists. split; [reflexivity |]. apply sequencer_frame_refl.
Qed.

Lemma finalize_is_Some (r : option completion) :
  is_Some r -> is_Some (finalize r).
Proof.
  intros [[s | s] ->]; simpl; eauto.
Qed.

(** [queueProcessor] returns: the nesting never exceeds the length of the
    queue by more than one. *)
Lemma queueProcessor_rec_total (fuel : nat) :
  forall (data : option QueueItem) (s : Session),
    (length (pushed data s) < fuel)%nat ->
    is_Some (queueProcessor_rec fuel data s).
Proof.
  induction fuel as [| fuel IH]; intros data s Hfuel; [lia |].
  pose proof (queueProcessor_rec_step fuel data s) as Hstep.
  destruct (pushed data s) as [| queueItem rest] eqn:Eq.
  - rewrite Hstep. eauto.
  - destruct (isQueueProcessing s).
    + rewrite Hstep. eauto.
    + destruct Hstep as (s1 & (Hq & _ & _) & [[_ ->] | [-> | [_ ->]]]); eauto.
      apply finalize_is_Some, IH. simpl in *. rewrite Hq. simpl. lia.
Qed.

Lemma queueProcessor_total (data : option QueueItem) (s : Session) :
  is_Some (queueProcessor data s).
Proof.
  apply queueProcessor_rec_total.
  destruct data; simpl; rewrite ?length_app; simpl; lia.
Qed.

(** What one call does to the queue and to the trace.  [started] lists the
    items the call and its nested calls took off the queue. *)
Lemma queueProcessor_rec_result (fuel : nat) :
  forall (data : option QueueItem) (s : Session) (c : completion),
    queueProcessor_rec fuel data s = Some c ->
    exists started : list QueueItem,
      processed (session_of c) = processed s ++ started
      /\ started ++ websocketQueue (session_of c) = pushed data s
      /\ (isQueueProcessing s = true ->
          started = [] /\ isQueueProcessing (session_of c) = true)
      /\ (isQueueProcessing s = false ->
          forall (queueItem : QueueItem) (rest : list QueueItem),
            pushed data s = queueItem :: rest ->
            exists more : list QueueItem, started = queueItem :: more)
      /\ (forall (l : list QueueItem) (last : QueueItem),
            started = l ++ [last] ->
            action last ∈ playbackActions ->
            isQueueProcessing (session_of c) = true).
Proof.
  induction fuel as [| fuel IH]; intros data s c Hrun; [discriminate |].
  pose proof (queueProcessor_rec_step fuel data s) as Hstep.
  destruct (pushed data s) as [| queueItem rest] eqn:Eq.
  - rewrite Hstep in Hrun. inversion Hrun; subst c; clear Hrun.
    assert (Hq : websocketQueue s = []).
    { destruct data; simpl in Eq; [now destruct (websocketQueue s) | exact Eq]. }
    exists []. simpl. rewrite app_nil_r.
    repeat split; try congruence; try done.
    all: try (intros l last Hl; now destruct l).
  - destruct (isQueueProcessing s) eqn:Eflag.
    + rewrite Hstep in Hrun. inversion Hrun; subst c; clear Hrun.
      exists []. simpl. rewrite app_nil_r.
      repeat split; try congruence; try done.
      all: try (intros l last Hl; now destruct l).
    + destruct Hstep as (s1 & (Hq1 & Hf1 & Hp1) & Hcases).
      simpl in Hq1, Hf1, Hp1.
      destruct Hcases as [[Hplay Hres] | [Hres | [Hsync Hres]]];
        rewrite Hres in Hrun.
      * inversion Hrun; subst c; clear Hrun. simpl.
        destruct (ready_when_empty_frame s1) as (Hq & Hf & Hp).
        exists [queueItem]. rewrite Hq, Hf, Hp, Hq1, Hf1, Hp1.
        repeat split; try congruence; try done.
        all: try (intros _ ? ? [= <- <-]; now exists []).
      * inversion Hrun; subst c; clear Hrun. simpl.
        exists [queueItem]. rewrite Hq1, Hf1, Hp1.
        repeat split; try congruence; try done.
        all: try (intros _ ? ? [= <- <-]; now exists []).
      * apply finalize_Some in Hrun as (c0 & Hrun & Hq & Hf & Hp).
        apply IH in Hrun as (started & Hproc & Hqueue & _ & Hfirst & Hlast).
        simpl in Hproc, Hqueue.
        exists (queueItem :: started). rewrite Hq, Hf, Hp.
        rewrite Hproc, Hp1, <- app_assoc. simpl.
        rewrite Hqueue, Hq1.
        repeat split; try congruence; try done.
        -- intros _ ? ? [= <- <-]. now exists started.
        -- intros l last Hl Hplay. clear Hres.
           destruct l as [| y l']; simpl in Hl.
           ++ injection Hl as <- ->. contradiction.
           ++ injection Hl as <- Hl. eapply Hlast; [exact Hl | exact Hplay].
Qed.

Lemma finalize_inj (r r' : option completion) (c c' : completion) :
  finalize r = Some c -> finalize r' = Some c' ->
  (forall c0 c0', r = Some c0 -> r' = Some c0' -> c0 = c0') ->
  c = c'.
Proof.
  intros H H' Heq.
  destruct r as [c0 |]; [| discriminate].
  destruct r' as [c0' |]; [| discriminate].
  specialize (Heq c0 c0' eq_refl eq_refl). subst c0'. congruence.
Qed.

(** The result does not depend on the fuel, as long as there is enough. *)
Lemma queueProcessor_rec_fuel (fuel : nat) :
  forall (fuel' : nat) (data : option QueueItem) (s : Session)
         (c c' : completion),
    queueProcessor_rec fuel data s = Some c ->
    queueProcessor_rec fuel' data s = Some c' ->
    c = c'.
Proof.
  induction fuel as [| fuel IH]; intros fuel' data s c c' H H'; [discriminate |].
  destruct fuel' as [| fuel']; [discriminate |].
  pose proof (queueProcessor_rec_step2 fuel fuel' data s) as Hstep.
  destruct (pushed data s) as [| queueItem rest].
  - rewrite Hstep in H, H'. congruence.
  - destruct (isQueueProcessing s).
    + rewrite Hstep in H, H'. congruence.
    + destruct Hstep as (s1 & _ & [(_ & E & E') | [(E & E') | (_ & E & E')]]);
        rewrite E in H; rewrite E' in H'; try congruence.
      eapply finalize_inj; [exact H | exact H' |].
      intros c0 c0' H0 H0'. eapply IH; eassumption.
Qed.

(** The last statement of [queueProcessor] has run when it returns. *)
Lemma queueProcessor_rec_finalized (fuel : nat) (data : option QueueItem)
    (s : Session) :
  finalize (queueProcessor_rec fuel data s) = queueProcessor_rec fuel data s.
Proof.
  destruct fuel as [| fuel]; [reflexivity |].
  pose proof (queueProcessor_rec_step fuel data s) as Hstep.
  destruct (pushed data s) as [| queueItem rest] eqn:Eq.
  - rewrite Hstep. simpl. unfold ready_when_empty.
    assert (Hq : websocketQueue s = []).
    { destruct data; simpl in Eq; [now destruct (websocketQueue s) | exact Eq]. }
    simpl. now rewrite Hq.
  - destruct (isQueueProcessing s).
    + rewrite Hstep. reflexivity.
    + destruct Hstep as (s1 & _ & [[_ ->] | [-> | [_ ->]]]).
      * change (Some (Normal (ready_when_empty s1)))
          with (finalize (Some (Normal s1))).
        apply finalize_idempotent.
      * reflexivity.
      * apply finalize_idempotent.
Qed.



(** ** What the sequencer does with the items it takes *)

Lemma queueProcessor_rec_data (fuel : nat) (data : option QueueItem)
    (s : Session) :
  queueProcessor_rec (S fuel) data s
  = queueProcessor_rec (S fuel) None (set_websocketQueue (pushed data s) s).
Proof.
  destruct data; reflexivity.
Qed.














(** ** Transcription channel *)




Lemma websocketApplicationQueueProcessor_fetchRequests
    (data : option ControlMessage) (s : Session) :
  fetchRequests (websocketApplicationQueueProcessor data s) = fetchRequests s.
Proof.
  unfold websocketApplicationQueueProcessor.
  destruct data; simpl;
    repeat match goal with
    | |- context [match ?x with _ => _ end] => destruct x
    end; reflexivity.
Qed.

(** C7.  A failure of the transcription channel (the [error] event and the
    [close] event that follows it, whatever the close code) stops the
    microphone, shows the error dialog and leaves the socket closed, and
    changes nothing else: no reconnect is started.  So does a close with a
    code other than 1000 on its own.  The [error] listener itself shows the
    dialog; the microphone is stopped by the [close] listener, on every
    close.  Neither starts a [getUserMedia] request.  The [error] listener of
    the control channel, in contrast, starts a reconnect. *)
Theorem transcribe_failure_surfaces_error_without_retry
    (code : Z) (s : Session) :
  websocketTranscribe_failure code s
  = set_errorModal (Some ("Websocket Error", websocketErrorText))
      (set_micStream (Some false) (set_websocketTranscribe (Some CLOSED) s))
  /\ (code <> 1000%Z ->
      websocketTranscribe_close code s
      = set_errorModal (Some ("Websocket Error", websocketErrorText))
          (set_micStream (Some false)
             (set_websocketTranscribe (Some CLOSED) s)))
  /\ websocketTranscribe_error s
     = set_errorModal (Some ("Websocket Error", websocketErrorText))
         (set_websocketTranscribe (Some CLOSED) s)
  /\ micStream (websocketTranscribe_close code s) = Some false
  /\ getUserMediaRequests (websocketTranscribe_failure code s)
     = getUserMediaRequests s
  /\ getUserMediaRequests (websocketTranscribe_close code s)
     = getUserMediaRequests s
  /\ websocketTranscribe (websocketTranscribe_failure code s) = Some CLOSED
  /\ websocketTranscribe (websocketTranscribe_close code s) = Some CLOSED
  /\ fetchRequests (websocketApplication_error s) = S (fetchRequests s).
Proof.
  unfold websocketTranscribe_failure, websocketTranscribe_error,
    websocketTranscribe_close, websocketApplication_error,
    websocketApplicationConnect, showErrorMessage, micStream_stop.
  split; [now destruct (negb (code =? 1000)%Z) |].
  split.
  { intros Hcode. apply Z.eqb_neq in Hcode. now rewrite Hcode. }
  split; [reflexivity |].
  split; [now destruct (negb (code =? 1000)%Z) |].
  split; [now destruct (negb (code =? 1000)%Z) |].
  split; [now destruct (negb (code =? 1000)%Z) |].
  split; [now destruct (negb (code =? 1000)%Z) |].
  split; [now destruct (negb (code =? 1000)%Z) |].
  simpl. now rewrite websocketApplicationQueueProcessor_fetchRequests.
Qed.

Lemma transcribe_failure_surfaces_error_without_retry_witness :
  websocketTranscribe_close 1006 (websocketTranscribeConnect loadedSession)
  = set_errorModal (Some ("Websocket Error", websocketErrorText))
      (set_micStream (Some false)
         (set_websocketTranscribe (Some CLOSED)
            (websocketTranscribeConnect loadedSession))).
Proof.
  refine (proj1 (proj2
    (transcribe_failure_surfaces_error_without_retry 1006
       (websocketTranscribeConnect loadedSession))) _).
  lia.
Defined.

(** ** Control channel *)

Lemma websocketApplication_flush_app (queue sent : list ControlMessage) :
  websocketApplication_flush queue sent = sent ++ queue.
Proof.
  revert sent. induction queue as [| m queue IH]; intros sent; simpl.
  - now rewrite app_nil_r.
  - now rewrite IH, <- app_assoc.
Qed.

(** A message given to [websocketApplicationQueueProcessor] is sent or
    waits in the queue, behind those that waited before it. *)
Lemma websocketApplicationQueueProcessor_push (m : ControlMessage)
    (s : Session) :
  let s' := websocketApplicationQueueProcessor (Some m) s in
  applicationSent s' ++ websocketApplicationQueue s'
  = applicationSent s ++ websocketApplicationQueue s ++ [m]
  /\ fetchRequests s' = fetchRequests s.
Proof.
  unfold websocketApplicationQueueProcessor. simpl.
  destruct (websocketApplicationQueue s ++ [m]) as [| x q] eqn:Eq.
  { now destruct (websocketApplicationQueue s). }
  destruct (websocketApplication s) as [[] |]; simpl; rewrite ?Eq;
    try (split; reflexivity).
  rewrite websocketApplication_flush_app, app_nil_r, <- app_assoc.
  split; reflexivity.
Qed.

Lemma websocketApplicationQueueProcessor_waits (m : ControlMessage)
    (s : Session) :
  websocketApplication s <> Some OPEN ->
  websocketApplicationQueueProcessor (Some m) s
  = set_websocketApplicationQueue (websocketApplicationQueue s ++ [m]) s.
Proof.
  intros Hnotopen. unfold websocketApplicationQueueProcessor. cbn.
  destruct (websocketApplicationQueue s ++ [m]); [reflexivity |].
  destruct (websocketApplication s) as [[] |]; try reflexivity.
  now contradiction Hnotopen.
Qed.

Lemma websocketApplicationQueueProcessor_sends (m : ControlMessage)
    (s : Session) :
  websocketApplication s = Some OPEN ->
  websocketApplicationQueueProcessor (Some m) s
  = set_websocketApplicationQueue []
      (set_applicationSent
         (applicationSent s ++ websocketApplicationQueue s ++ [m])
         (set_websocketApplicationQueue (websocketApplicationQueue s ++ [m]) s)).
Proof.
  intros Hopen. unfold websocketApplicationQueueProcessor. cbn.
  destruct (websocketApplicationQueue s ++ [m]) as [| x q] eqn:Eq;
    [now destruct (websocketApplicationQueue s) |].
  rewrite Hopen, websocketApplication_flush_app. reflexivity.
Qed.

Lemma websocketApplicationQueueProcessor_nothing (s : Session) :
  websocketApplication s <> Some OPEN ->
  websocketApplicationQueueProcessor None s = s.
Proof.
  intros Hnotopen. unfold websocketApplicationQueueProcessor.
  destruct s. cbn in *.
  repeat (match goal with
          | |- context [match ?x with _ => _ end] => is_var x; destruct x
          end; cbn); try reflexivity.
  now contradiction Hnotopen.
Qed.

(** C8, amended.  On a keepalive tick, if the variable
    [websocketApplication] holds no socket a reconnect is started (one more
    [fetch] of the socket URL) and no ping is queued or sent; otherwise no
    reconnect is started and one ping message is added behind the messages
    already queued.  With an open socket the queue, the ping last, is sent
    at once; with a socket in any other state the ping waits and nothing
    else changes.  That is the case after the [close] event, which leaves
    the closed socket in the variable. *)
Theorem keepalive_reconnects_or_pings (s : Session) :
  (websocketApplication s = None ->
   fetchRequests (keepalive_tick s) = S (fetchRequests s)
   /\ websocketApplicationQueue (keepalive_tick s) = websocketApplicationQueue s
   /\ applicationSent (keepalive_tick s) = applicationSent s)
  /\ (websocketApplication s <> None ->
      fetchRequests (keepalive_tick s) = fetchRequests s
      /\ applicationSent (keepalive_tick s)
         ++ websocketApplicationQueue (keepalive_tick s)
         = applicationSent s ++ websocketApplicationQueue s
           ++ [mkControlMessage "ping" None None])
  /\ (websocketApplication s = Some OPEN ->
      applicationSent (keepalive_tick s)
      = applicationSent s ++ websocketApplicationQueue s
        ++ [mkControlMessage "ping" None None]
      /\ websocketApplicationQueue (keepalive_tick s) = [])
  /\ (websocketApplication s <> None ->
      websocketApplication s <> Some OPEN ->
      keepalive_tick s
      = set_websocketApplicationQueue
          (websocketApplicationQueue s ++ [mkControlMessage "ping" None None])
          s)
  /\ keepalive_tick (websocketApplication_close s)
     = set_websocketApplicationQueue
         (websocketApplicationQueue s ++ [mkControlMessage "ping" None None])
         (set_websocketApplication (Some CLOSED) s).
Proof.
  unfold keepalive_tick. split; [| split; [| split; [| split]]].
  - intros Hnone. rewrite Hnone.
    assert (E : websocketApplicationQueueProcessor None s = s).
    { unfold websocketApplicationQueueProcessor. rewrite Hnone.
      now destruct (websocketApplicationQueue s). }
    unfold websocketApplicationConnect. rewrite E. repeat split.
  - intros Hsome. destruct (websocketApplication s) as [st |]; [| done].
    destruct (websocketApplicationQueueProcessor_push
                (mkControlMessage "ping" None None) s) as [Hq Hf].
    split; assumption.
  - intros Hopen. rewrite Hopen.
    rewrite websocketApplicationQueueProcessor_sends by exact Hopen.
    split; reflexivity.
  - intros Hsome Hnotopen.
    destruct (websocketApplication s) as [st |] eqn:E; [| done].
    apply websocketApplicationQueueProcessor_waits. now rewrite E.
  - unfold websocketApplication_close.
    rewrite websocketApplicationQueueProcessor_nothing by discriminate.
    cbn [websocketApplication set_websocketApplication].
    now rewrite websocketApplicationQueueProcessor_waits by discriminate.
Qed.

Lemma keepalive_reconnects_or_pings_witness :
  fetchRequests (keepalive_tick loadedSession) = S (fetchRequests loadedSession)
  /\ applicationSent (keepalive_tick (fetch_resolved "wss://backend" loadedSession))
     ++ websocketApplicationQueue
          (keepalive_tick (fetch_resolved "wss://backend" loadedSession))
     = applicationSent (fetch_resolved "wss://backend" loadedSession)
       ++ websocketApplicationQueue (fetch_resolved "wss://backend" loadedSession)
       ++ [mkControlMessage "ping" None None].
Proof.
  split.
  - refine (proj1 (proj1 (keepalive_reconnects_or_pings loadedSession) _)).
    reflexivity.
  - refine (proj2 (proj1 (proj2 (keepalive_reconnects_or_pings
                            (fetch_resolved "wss://backend" loadedSession))) _)).
    discriminate.
Defined.

(** C8, counterexample.  The control socket has opened and then closed: no
    connection exists, and the keepalive tick starts no reconnect; it queues
    a ping that is not sent. *)
Lemma keepalive_does_not_reconnect_after_close :
  let s := websocketApplication_close
             (websocketApplication_open "{}"
                (fetch_resolved "wss://backend" loadedSession)) in
  websocketApplication s = Some CLOSED
  /\ fetchRequests (keepalive_tick s) = fetchRequests s
  /\ applicationSent (keepalive_tick s) = applicationSent s
  /\ websocketApplicationQueue (keepalive_tick s)
     = [mkControlMessage "ping" None None].
Proof. repeat split. Qed.

(** ** Utterance assembler *)

(** C4, amended.  A transcript event without results that arrives while
    [isListening] is false and the pending utterance splits into at most two
    tokens changes nothing: no utterance is emitted, no field of the page is
    written, and both buffers keep their contents. *)
Theorem short_pending_utterance_is_left_pending `{Platform}
    (now : Z) (s : Session)
    (Hlistening : isListening s = false)
    (Hshort : (length (split_nonword (trim (utterance s))) <= 2)%nat) :
  handleEventStreamMessage now [] s = Normal s.
Proof.
  unfold handleEventStreamMessage. rewrite Hlistening. simpl.
  destruct (Nat.ltb_spec 2 (length (split_nonword (trim (utterance s)))));
    [lia | reflexivity].
Qed.

Lemma short_pending_utterance_is_left_pending_witness :
  let s := transcript_run (H := browserPlatform) [(0%Z, heard false "yes")]
             loadedSession in
  handleEventStreamMessage (H := browserPlatform) 1 [] s = Normal s.
Proof.
  intros s.
  refine (short_pending_utterance_is_left_pending (H := browserPlatform) 1 s _ _).
  - reflexivity.
  - vm_compute. lia.
Defined.

(** C4, counterexample.  After the final result [yes], an event without
    results arrives while not listening: the pending utterance has one token
    and is still there afterwards. *)
Lemma short_pending_utterance_is_not_cleared :
  let s := transcript_run (H := browserPlatform) [(0%Z, heard false "yes")]
             loadedSession in
  isListening s = false
  /\ split_nonword (trim (utterance s)) = ["yes"]
  /\ utterance
       (session_of (handleEventStreamMessage (H := browserPlatform) 1 [] s))
     = "yes" +:+ newline.
Proof. vm_compute. repeat split. Qed.

Lemma transcript_run_app `{Platform}
    (events events' : list (Z * list TranscriptResult)) (s : Session) :
  transcript_run (events ++ events') s
  = transcript_run events' (transcript_run events s).
Proof.
  revert s. induction events as [| [now results] events IH]; intros s;
    [reflexivity |]. simpl. apply IH.
Qed.

(** A partial result changes nothing but the time of the last event. *)
Lemma partial_event_frame `{Platform} (now : Z)
    (results : list TranscriptResult) (s : Session) :
  isPartialEvent results = true ->
  exists last : option Z,
    session_of (handleEventStreamMessage now results s)
    = set_utteranceLastEvent last s.
Proof.
  intros Hpartial. unfold handleEventStreamMessage.
  destruct results as [| result0 results]; [discriminate |].
  simpl in Hpartial. rewrite Hpartial.
  destruct (Alternatives result0) as [| transcript alts].
  - now exists (utteranceLastEvent s).
  - exists (Some now). now destruct (decodeURIComponent transcript).
Qed.

Lemma partial_events_frame `{Platform}
    (partials : list (Z * list TranscriptResult)) (s : Session) :
  Forall (fun e => isPartialEvent (snd e) = true) partials ->
  exists last : option Z,
    transcript_run partials s = set_utteranceLastEvent last s.
Proof.
  intros Hall. revert s.
  induction Hall as [| [now results] partials Hp _ IH]; intros s.
  - now exists (utteranceLastEvent s).
  - simpl. destruct (partial_event_frame now results s Hp) as [last ->].
    destruct (IH (set_utteranceLastEvent last s)) as [last' ->].
    now exists last'.
Qed.

Lemma nonempty_after_space (a b : string) :
  (0 <? String.length (a +:+ " " +:+ b))%nat = true.
Proof. now destruct a. Qed.

(** The click on [sendButton] with a text to send: the text goes out as
    one [sendUtterance] message, after the unsent messages are dropped. *)
Lemma sendButton_click_sends (s : Session) :
  (0 <? String.length (inputText_value s))%nat = true ->
  let s' := session_of (sendButton_click s) in
  applicationSent s' ++ websocketApplicationQueue s'
  = applicationSent s
    ++ [mkControlMessage "sendUtterance" (Some (inputText_value s)) None].
Proof.
  intros Htext. unfold sendButton_click. rewrite Htext.
  unfold sendUtterance, websocketApplicationConnect,
    websocketApplicationQueueProcessor.
  destruct s. cbn.
  repeat (match goal with
          | |- context [match ?x with _ => _ end] => is_var x; destruct x
          end; cbn);
    rewrite ?app_nil_r; reflexivity.
Qed.

(** A final result appends its transcript and a newline to the pending
    utterance. *)
Lemma final_event_appends `{Platform} (now : Z) (final : TranscriptResult)
    (others : list TranscriptResult) (transcript decoded : string)
    (alternatives : list string) (s : Session) :
  IsPartial final = false ->
  Alternatives final = transcript :: alternatives ->
  decodeURIComponent transcript = Some decoded ->
  session_of (handleEventStreamMessage now (final :: others) s)
  = set_transcription EmptyString
      (set_utterance
         (utterance s +:+ (transcription s +:+ decoded +:+ newline))
         (set_transcription (transcription s +:+ decoded +:+ newline)
            (set_utteranceLastEvent (Some now) s))).
Proof.
  intros Hfinal Halt Hdec. unfold handleEventStreamMessage.
  now rewrite Halt, Hdec, Hfinal.
Qed.

(** The event without results, when the pending utterance is long
    enough. *)
Lemma end_event_emits `{Platform} (now : Z) (s : Session) :
  isListening s = false ->
  (2 < length (split_nonword (trim (utterance s))))%nat ->
  let text := inputText_value s +:+ " " +:+ normalized (utterance s) in
  let s' := session_of (handleEventStreamMessage now [] s) in
  utterance s' = EmptyString
  /\ transcription s' = EmptyString
  /\ (allowAudioInputOnly s = true ->
      applicationSent s' ++ websocketApplicationQueue s'
      = applicationSent s ++ [mkControlMessage "sendUtterance" (Some text) None])
  /\ (allowAudioInputOnly s = false ->
      inputText_value s' = text
      /\ disabled s' !! "sendButton" = Some false
      /\ applicationSent s' = applicationSent s
      /\ websocketApplicationQueue s' = websocketApplicationQueue s).
Proof.
  intros Hl Htokens text s'. subst s'.
  unfold handleEventStreamMessage. rewrite Hl. cbn [negb].
  apply Nat.ltb_lt in Htokens. rewrite Htokens.
  set (s2 := match decodeURIComponent (escape (utterance s)) with
             | Some decoded => set_utterance decoded s
             | None => s
             end).
  assert (Hframe :
    utterance s2 = normalized (utterance s)
    /\ inputText_value s2 = inputText_value s
    /\ allowAudioInputOnly s2 = allowAudioInputOnly s
    /\ applicationSent s2 = applicationSent s
    /\ websocketApplicationQueue s2 = websocketApplicationQueue s).
  { subst s2. unfold normalized.
    now destruct (decodeURIComponent (escape (utterance s))). }
  destruct Hframe as (Hu2 & Hi2 & Ha2 & Hs2 & Hq2).
  rewrite Hu2, Hi2. fold text.
  set (s3 := setDisabled "sendButton" false (set_inputText_value text s2)).
  change (allowAudioInputOnly s3) with (allowAudioInputOnly s2).
  rewrite Ha2. cbn [session_of].
  split; [reflexivity |]. split; [reflexivity |].
  split.
  - intros Honly. rewrite Honly.
    cbn [applicationSent websocketApplicationQueue set_transcription
         set_utterance].
    rewrite (sendButton_click_sends s3) by apply nonempty_after_space.
    now rewrite <- Hs2.
  - intros Honly. rewrite Honly. cbn. rewrite Hs2, Hq2.
    repeat split. apply lookup_insert_eq.
Qed.

(** An event with results touches the two buffers and the time of the
    last event, nothing else; what it leaves in the pending utterance does
    not depend on that time. *)
Lemma result_event_frame `{Platform} (now : Z)
    (results : list TranscriptResult) (last : option Z) (s : Session) :
  results <> [] ->
  (exists (l : option Z) (t u : string),
     session_of
       (handleEventStreamMessage now results (set_utteranceLastEvent last s))
     = set_transcription t (set_utterance u (set_utteranceLastEvent l s)))
  /\ utterance
       (session_of
          (handleEventStreamMessage now results (set_utteranceLastEvent last s)))
     = utterance (session_of (handleEventStreamMessage now results s)).
Proof.
  intros Hne. unfold handleEventStreamMessage.
  destruct results as [| result0 results]; [done |].
  destruct (Alternatives result0) as [| transcript alts].
  { split; [| reflexivity]. now exists last, (transcription s), (utterance s). }
  destruct (decodeURIComponent transcript) as [decoded |].
  - destruct (IsPartial result0); cbn.
    + split; [| reflexivity].
      now exists (Some now), (transcription s), (utterance s).
    + split; [| reflexivity]. now eexists (Some now), _, _.
  - split; [| reflexivity].
    now exists (Some now), (transcription s), (utterance s).
Qed.

(** C3, amended.  Partial results, then an event whose first result is
    final, then an event without results while [isListening] is false.  The
    pending utterance after the final result is what it would be without the
    partial results; when the final transcript decodes to [decoded], it is
    the earlier pending text followed by [decoded] and a newline.  If it
    splits into more than two tokens, both buffers end up empty and the
    outgoing text is the previous content of the input field, a space, and
    the pending utterance after its best-effort re-decoding.  In audio-only
    mode exactly one [sendUtterance] message with that text is sent or
    queued; otherwise the text is left in the input field, the send button
    is enabled and no message goes out. *)
Theorem final_transcript_emits_pending_utterance `{Platform}
    (partials : list (Z * list TranscriptResult))
    (now_final now_end : Z) (results : list TranscriptResult) (s : Session)
    (Hpartials : Forall (fun e => isPartialEvent (snd e) = true) partials)
    (Hresults : results <> [])
    (Hfinal : isPartialEvent results = false)
    (Hlistening : isListening s = false) :
  let pending :=
    utterance (transcript_run (partials ++ [(now_final, results)]) s) in
  let text := inputText_value s +:+ " " +:+ normalized pending in
  let s' :=
    transcript_run (partials ++ [(now_final, results); (now_end, [])]) s in
  pending = utterance (transcript_run [(now_final, results)] s)
  /\ (forall (final : TranscriptResult) (others : list TranscriptResult)
             (transcript decoded : string) (alternatives : list string),
        results = final :: others ->
        Alternatives final = transcript :: alternatives ->
        decodeURIComponent transcript = Some decoded ->
        pending
        = utterance s +:+ (transcription s +:+ decoded +:+ newline))
  /\ ((2 < length (split_nonword (trim pending)))%nat ->
      utterance s' = EmptyString
      /\ transcription s' = EmptyString
      /\ (allowAudioInputOnly s = true ->
          applicationSent s' ++ websocketApplicationQueue s'
          = applicationSent s
            ++ [mkControlMessage "sendUtterance" (Some text) None])
      /\ (allowAudioInputOnly s = false ->
          inputText_value s' = text
          /\ disabled s' !! "sendButton" = Some false
          /\ applicationSent s' = applicationSent s
          /\ websocketApplicationQueue s' = websocketApplicationQueue s)).
Proof.
  intros pending text s'. subst s' text pending.
  rewrite !transcript_run_app in *.
  destruct (partial_events_frame partials s Hpartials) as [last Hrun].
  rewrite Hrun in *. cbn [transcript_run] in *.
  destruct (result_event_frame now_final results last s Hresults)
    as [(l & t & u & Hs) Hu].
  split; [exact Hu |]. split.
  - intros final others transcript decoded alternatives -> Halt Hdec.
    rewrite Hu.
    now rewrite (final_event_appends now_final final others transcript decoded
                   alternatives s) by (assumption || exact Hfinal).
  - intros Htokens.
    set (s1 := session_of (handleEventStreamMessage now_final results
                             (set_utteranceLastEvent last s))) in *.
    assert (Hpres :
      isListening s1 = isListening s
      /\ inputText_value s1 = inputText_value s
      /\ allowAudioInputOnly s1 = allowAudioInputOnly s
      /\ applicationSent s1 = applicationSent s
      /\ websocketApplicationQueue s1 = websocketApplicationQueue s).
    { subst s1. rewrite Hs. now repeat split. }
    destruct Hpres as (H1 & H2 & H3 & H4 & H5).
    destruct (end_event_emits now_end s1) as (Hu' & Ht' & Hsend & Hkeep);
      [congruence | exact Htokens |].
    rewrite H2, H3, H4, H5 in *.
    split; [exact Hu' |]. split; [exact Ht' |].
    split; [exact Hsend | exact Hkeep].
Qed.

Lemma final_transcript_emits_pending_utterance_witness :
  applicationSent
    (transcript_run (H := browserPlatform)
       ([(0%Z, heard true "tell"); (1%Z, heard true "tell me")]
        ++ [(2%Z, heard false "tell me more"); (3%Z, [])]) loadedSession)
  ++ websocketApplicationQueue
       (transcript_run (H := browserPlatform)
          ([(0%Z, heard true "tell"); (1%Z, heard true "tell me")]
           ++ [(2%Z, heard false "tell me more"); (3%Z, [])]) loadedSession)
  = applicationSent loadedSession
    ++ [mkControlMessage "sendUtterance"
          (Some (inputText_value loadedSession +:+ " "
                 +:+ normalized (H := browserPlatform)
                       (utterance
                          (transcript_run (H := browserPlatform)
                             ([(0%Z, heard true "tell");
                               (1%Z, heard true "tell me")]
                              ++ [(2%Z, heard false "tell me more")])
                             loadedSession))))
          None].
Proof.
  refine (proj1 (proj2 (proj2 (proj2 (proj2
    (final_transcript_emits_pending_utterance (H := browserPlatform)
       [(0%Z, heard true "tell"); (1%Z, heard true "tell me")] 2 3
       (heard false "tell me more") loadedSession _ _ _ _)) _))) _).
  - repeat constructor.
  - discriminate.
  - reflexivity.
  - reflexivity.
  - vm_compute. lia.
  - reflexivity.
Defined.

(** C3, counterexample.  Two partial results, the final result
    [tell me more] and the event without results, from the loaded page: the
    utterance sent is the fragment with a space before it and a newline after
    it, not the fragment. *)
Lemma emitted_text_is_not_the_bare_fragment :
  websocketApplicationQueue
    (transcript_run (H := browserPlatform)
       [(0%Z, heard true "tell"); (1%Z, heard true "tell me");
        (2%Z, heard false "tell me more"); (3%Z, [])] loadedSession)
  = [mkControlMessage "sendUtterance"
       (Some (" tell me more" +:+ newline)) None]
  /\ " tell me more" +:+ newline <> "tell me more".
Proof.
  split; [vm_compute; reflexivity | discriminate].
Qed.

(** ** More on the audio front-end *)



Lemma Qtruncate_nonpos (q : Q) : (q <= 0)%Q -> (Qtruncate q <= 0)%Z.
Proof.
  intros H. unfold Qtruncate. destruct (Qlt_le_dec q 0).
  - apply Qceiling_nonpos. lra.
  - apply Qfloor_upper. change (inject_Z 0) with 0%Q. lra.
Qed.

Lemma Qtruncate_nonneg (q : Q) : (0 <= q)%Q -> (0 <= Qtruncate q)%Z.
Proof.
  intros H. unfold Qtruncate. destruct (Qlt_le_dec q 0); [lra |].
  now apply Qfloor_nonneg.
Qed.

Lemma clamped_mono (x y : Q) : (x <= y)%Q -> (clamped x <= clamped y)%Q.
Proof.
  intros Hxy. unfold clamped, Math_max, Math_min.
  repeat (destruct (Qlt_le_dec _ _); simpl); lra.
Qed.

(** X2.  The 16-bit value [pcmEncode] writes is monotone in the sample:
    a larger sample never encodes to a smaller value (the two scale factors
    and the truncation do not cross at zero or at the clamp). *)
Theorem pcmEncode_is_monotone (x y : Q) (Hxy : (x <= y)%Q) :
  (ToInt16 (pcmSample (Fin x)) <= ToInt16 (pcmSample (Fin y)))%Z.
Proof.
  rewrite !pcmSample_value.
  pose proof (clamped_mono x y Hxy) as Hc.
  destruct (Qlt_le_dec (clamped x) 0) as [Hx | Hx],
           (Qlt_le_dec (clamped y) 0) as [Hy | Hy]; try lra.
  - unfold Qtruncate.
    destruct (Qlt_le_dec (clamped x * 32768) 0); [| lra].
    destruct (Qlt_le_dec (clamped y * 32768) 0); [| lra].
    apply Qceiling_resp_le. lra.
  - assert (Qtruncate (clamped x * 32768) <= 0)%Z
      by (apply Qtruncate_nonpos; lra).
    assert (0 <= Qtruncate (clamped y * 32767))%Z
      by (apply Qtruncate_nonneg; lra).
    lia.
  - unfold Qtruncate.
    destruct (Qlt_le_dec (clamped x * 32767) 0); [lra |].
    destruct (Qlt_le_dec (clamped y * 32767) 0); [lra |].
    apply Qfloor_resp_le. lra.
Qed.

Lemma pcmEncode_is_monotone_witness :
  (ToInt16 (pcmSample (Fin (-3 # 2))) <= ToInt16 (pcmSample (Fin (1 # 3))))%Z.
Proof.
  refine (pcmEncode_is_monotone (-3 # 2) (1 # 3) _).
  intros H. vm_compute in H. discriminate.
Defined.




(** Zero samples *)

Lemma number_add_zero (a b : number) :
  isZero a \/ a = NaN -> isZero b \/ b = NaN ->
  isZero (number_add a b) \/ number_add a b = NaN.
Proof.
  intros [Ha | ->] [Hb | ->]; try (now right); try (destruct a; now right).
  destruct a as [x | | |], b as [y | | |]; try contradiction.
  left. simpl in *. lra.
Qed.

Lemma buffer_get_zero (buffer : list number) (i : Z) :
  Forall isZero buffer ->
  isZero (buffer_get buffer i) \/ buffer_get buffer i = NaN.
Proof.
  intros Hall. unfold buffer_get.
  destruct (i <? 0)%Z; [now right |].
  destruct (nth_in_or_default (Z.to_nat i) buffer NaN) as [Hin | ->];
    [| now right].
  left. rewrite Forall_forall in Hall. apply Hall.
  now apply list_elem_of_In.
Qed.

Lemma window_loop_zero (buffer : list number) (next : Z) :
  Forall isZero buffer ->
  forall (fuel : nat) (i : Z) (accum : number) (count : nat),
    isZero accum \/ accum = NaN ->
    let r := window_loop buffer fuel i next accum count in
    isZero (fst r) \/ fst r = NaN.
Proof.
  intros Hall. induction fuel as [| fuel IH]; intros i accum count Hacc;
    [exact Hacc |].
  simpl.
  destruct ((i <? next)%Z && (i <? Z.of_nat (length buffer))%Z);
    [| exact Hacc].
  apply IH. apply number_add_zero; [exact Hacc |].
  now apply buffer_get_zero.
Qed.

Lemma downsample_while_zero (buffer : list number) (R : Q) :
  Forall isZero buffer ->
  forall (remaining : nat) (offsetResult offsetBuffer : Z),
    Forall (fun w => isZero (fst w) \/ fst w = NaN)
      (downsample_while buffer R remaining offsetResult offsetBuffer).
Proof.
  intros Hall. induction remaining as [| remaining IH];
    intros offsetResult offsetBuffer; [constructor |].
  simpl. constructor; [| apply IH].
  unfold window. apply window_loop_zero; [exact Hall |].
  left. simpl. lra.
Qed.

Lemma number_div_count_zero (a : number) (count : nat) :
  isZero a \/ a = NaN ->
  isZero (number_div_count a count) \/ number_div_count a count = NaN.
Proof.
  intros [Ha | ->]; [| destruct count; now right].
  destruct a as [x | | |]; try contradiction. simpl in Ha.
  destruct count as [| n]; simpl.
  - right. destruct (Qlt_le_dec 0 x); [lra |].
    destruct (Qlt_le_dec x 0); [lra | reflexivity].
  - left. simpl. rewrite Ha. unfold Qdiv. ring.
Qed.

Lemma setInt16_of_zero (x : number) :
  isZero x \/ x = NaN ->
  setInt16_littleEndian (pcmSample x) = [0%Z; 0%Z].
Proof.
  intros [Hx | ->]; [| reflexivity].
  destruct x as [q | | |]; try contradiction. simpl in Hx.
  unfold setInt16_littleEndian. rewrite pcmSample_value.
  destruct (clamped_spec q) as (_ & _ & _ & Hmid).
  assert (E : (clamped q == 0)%Q) by (rewrite Hmid; lra).
  destruct (Qlt_le_dec (clamped q) 0); [lra |].
  rewrite (Qtruncate_comp _ 0) by (rewrite E; ring).
  reflexivity.
Qed.

(** X4.  Silence stays silence: a buffer of zero samples, downsampled
    between positive rates and encoded, gives only zero bytes (also where a
    window is empty and its mean is [NaN]). *)
Theorem silent_samples_encode_to_zero_bytes
    (buffer : list number) (inputSampleRate outputSampleRate : Q)
    (Hin : (0 < inputSampleRate)%Q) (Hout : (0 < outputSampleRate)%Q)
    (Hsilent : Forall isZero buffer) :
  Forall (eq 0%Z)
    (pcmEncode (downsampleBuffer buffer inputSampleRate outputSampleRate)).
Proof.
  assert (Hsamples :
    Forall (fun x => isZero x \/ x = NaN)
      (downsampleBuffer buffer inputSampleRate outputSampleRate)).
  { unfold downsampleBuffer.
    destruct (Qeq_bool outputSampleRate inputSampleRate).
    - eapply Forall_impl; [exact Hsilent |]. now left.
    - apply Forall_fmap. unfold downsample_windows.
      eapply Forall_impl; [now apply downsample_while_zero |].
      intros w Hw. now apply number_div_count_zero. }
  induction Hsamples as [| x out Hx _ IH]; [constructor |].
  rewrite pcmEncode_cons, (setInt16_of_zero x Hx).
  simpl. repeat constructor. exact IH.
Qed.

Lemma silent_samples_encode_to_zero_bytes_witness :
  Forall (eq 0%Z) (pcmEncode (downsampleBuffer (repeat (Fin 0) 11) 44100 16000)).
Proof.
  refine (silent_samples_encode_to_zero_bytes (repeat (Fin 0) 11) 44100 16000
            _ _ _).
  - reflexivity.
  - reflexivity.
  - repeat constructor.
Defined.




Lemma pushed_nil (data : option QueueItem) (s : Session) :
  pushed data s = [] -> websocketQueue s = [].
Proof.
  destruct data; simpl; [| easy]. now destruct (websocketQueue s).
Qed.

(** A call that returns with the flag clear has emptied the queue and shows
    [Ready]; a call that throws leaves the flag set. *)
Lemma queueProcessor_rec_idle (fuel : nat) :
  forall (data : option QueueItem) (s : Session) (c : completion),
    queueProcessor_rec fuel data s = Some c ->
    (isQueueProcessing (session_of c) = false ->
     c = Normal (session_of c)
     /\ websocketQueue (session_of c) = []
     /\ statusDiv (session_of c) = ("Ready", "success", "check-square"))
    /\ (c = Throw (session_of c) -> isQueueProcessing (session_of c) = true).
Proof.
  induction fuel as [| fuel IH]; intros data s c Hrun; [discriminate |].
  pose proof (queueProcessor_rec_step fuel data s) as Hstep.
  destruct (pushed data s) as [| queueItem rest] eqn:Eq.
  - rewrite Hstep in Hrun. inversion Hrun; subst c; clear Hrun. simpl.
    split; [| discriminate]. intros _.
    repeat split. now apply pushed_nil in Eq.
  - destruct (isQueueProcessing s) eqn:Eflag.
    + rewrite Hstep in Hrun. inversion Hrun; subst c; clear Hrun. simpl.
      split; [congruence | discriminate].
    + destruct Hstep as (s1 & (Hq1 & Hf1 & Hp1) & Hcases).
      simpl in Hq1, Hf1, Hp1.
      destruct Hcases as [[Hplay Hres] | [Hres | [Hsync Hres]]];
        rewrite Hres in Hrun.
      * inversion Hrun; subst c; clear Hrun. simpl.
        destruct (ready_when_empty_frame s1) as (_ & Hf & _).
        split; [congruence | discriminate].
      * inversion Hrun; subst c; clear Hrun. simpl.
        split; [congruence | now intros _].
      * destruct (queueProcessor_rec fuel None (set_isQueueProcessing false s1))
          as [[s0 | s0] |] eqn:Erec; simpl in Hrun; inversion Hrun; subst c;
          clear Hrun; simpl.
        -- destruct (IH _ _ _ Erec) as (Hidle & _). simpl in Hidle.
           destruct (ready_when_empty_frame s0) as (Hq & Hf & _).
           split; [| discriminate]. intros Hflag.
           rewrite Hf in Hflag. destruct (Hidle Hflag) as (_ & Hempty & _).
           unfold ready_when_empty. rewrite Hempty. now repeat split.
        -- destruct (IH _ _ _ Erec) as (_ & Hthrow). simpl in Hthrow.
           split; [| now intros _; apply Hthrow].
           intros Hflag. rewrite Hthrow in Hflag; [discriminate | reflexivity].
Qed.

Lemma sequencer_step_idle (e : SequencerEvent) (s s' : Session) :
  sequencer_step e s = Some s' ->
  isQueueProcessing s' = false ->
  websocketQueue s' = []
  /\ statusDiv s' = ("Ready", "success", "check-square").
Proof.
  intros Hstep Hflag.
  destruct e as [data |]; simpl in Hstep.
  - unfold queueProcessor in Hstep.
    destruct (queueProcessor_rec _ _ _) as [c |] eqn:Erun; [| discriminate].
    injection Hstep as <-.
    now destruct (queueProcessor_rec_idle _ _ _ _ Erun) as (Hidle & _);
      destruct (Hidle Hflag) as (_ & ? & ?).
  - unfold audioDiv_ended, queueProcessorCompletedAction, queueProcessor
      in Hstep.
    destruct (queueProcessor_rec _ _ _) as [c |] eqn:Erun; [| discriminate].
    injection Hstep as <-.
    now destruct (queueProcessor_rec_idle _ _ _ _ Erun) as (Hidle & _);
      destruct (Hidle Hflag) as (_ & ? & ?).
Qed.

(** X6.  After at least one event of the sequencer, a clear processing
    flag means that the queue is empty and the status shows [Ready]; so an
    item never waits while nothing is in flight. *)
Theorem sequencer_idle_means_drained
    (es : list SequencerEvent) (s s' : Session)
    (Hevents : es <> [])
    (Hrun : sequencer_run es s = Some s') :
  (isQueueProcessing s' = false ->
   websocketQueue s' = []
   /\ statusDiv s' = ("Ready", "success", "check-square"))
  /\ (websocketQueue s' <> [] -> isQueueProcessing s' = true).
Proof.
  assert (Hidle :
    isQueueProcessing s' = false ->
    websocketQueue s' = []
    /\ statusDiv s' = ("Ready", "success", "check-square")).
  { revert s Hrun. induction es as [| e es IH]; intros s Hrun; [easy |].
    simpl in Hrun.
    destruct (sequencer_step e s) as [s1 |] eqn:Estep; [| discriminate].
    destruct es as [| e' es'].
    - injection Hrun as <-. now apply (sequencer_step_idle e s).
    - now apply (IH ltac:(discriminate) s1). }
  split; [exact Hidle |].
  intros Hwaiting. destruct (isQueueProcessing s') eqn:Eflag; [reflexivity |].
  now destruct (Hidle eq_refl) as (Hempty & _).
Qed.

Lemma sequencer_idle_means_drained_witness :
  let es := [Enqueue (item "PLAY_FEEDBACK"); Enqueue (item "REASONING");
             Ended; Enqueue (item "FEEDBACK_END")] in
  exists s' : Session,
    sequencer_run es loadedSession = Some s'
    /\ isQueueProcessing s' = false
    /\ websocketQueue s' = []
    /\ statusDiv s' = ("Ready", "success", "check-square").
Proof.
  intros es.
  destruct (sequencer_run es loadedSession) as [s' |] eqn:Erun;
    [| vm_compute in Erun; discriminate].
  exists s'. split; [reflexivity |].
  assert (Hflag : isQueueProcessing s' = false).
  { vm_compute in Erun. injection Erun as <-. reflexivity. }
  split; [exact Hflag |].
  refine (proj1 (sequencer_idle_means_drained es loadedSession s' _ Erun) Hflag).
  discriminate.
Defined.

Lemma queueProcessor_fuel (fuel : nat) (data : option QueueItem) (s : Session)
    (c : completion) :
  queueProcessor_rec fuel data s = Some c -> queueProcessor data s = Some c.
Proof.
  intros Hrun. destruct (queueProcessor_total data s) as [c' Hc'].
  rewrite Hc'. f_equal. unfold queueProcessor in Hc'.
  exact (queueProcessor_rec_fuel _ _ _ _ _ _ Hc' Hrun).
Qed.

(** While an item is in flight, an arriving item is appended to the queue
    and nothing else changes. *)
Lemma sequencer_run_busy (es : list SequencerEvent) :
  forall s : Session,
    isQueueProcessing s = true ->
    Ended ∉ es ->
    sequencer_run es s
    = Some (set_websocketQueue (websocketQueue s ++ enqueued es) s).
Proof.
  induction es as [| e es IH]; intros s Hflag Hes.
  - simpl. rewrite app_nil_r. reflexivity.
  - destruct e as [data |]; [| exfalso; apply Hes; left].
    assert (Hstep : sequencer_step (Enqueue data) s
                    = Some (set_websocketQueue (websocketQueue s ++ [data]) s)).
    { simpl. unfold queueProcessor.
      pose proof (queueProcessor_rec_step
                    (S (length (websocketQueue s))) (Some data) s) as H.
      simpl pushed in H.
      destruct (websocketQueue s ++ [data]) as [| x l] eqn:E.
      { apply (f_equal length) in E. rewrite length_app in E.
        simpl in E. lia. }
      rewrite Hflag in H. rewrite H. reflexivity. }
    cbn [sequencer_run]. rewrite Hstep.
    rewrite IH; [| exact Hflag | intros Hin; apply Hes; now right].
    cbn [enqueued]. f_equal.
    unfold set_websocketQueue. cbn. now rewrite <- app_assoc.
Qed.

Lemma untyped_item_throws (fuel : nat) (s : Session) (queueItem : QueueItem)
    (rest : list QueueItem) :
  isQueueProcessing s = false ->
  websocketQueue s = queueItem :: rest ->
  action queueItem = "WAIT" \/ action queueItem = "ERROR" ->
  type queueItem = None ->
  exists icon : string,
    queueProcessor_rec (S fuel) None s
    = Some (Throw (updateStatus "Processing" "success" icon
                     (dequeued queueItem rest s))).
Proof.
  intros Hflag Hqueue Haction Htype.
  cbn [queueProcessor_rec]. rewrite Hqueue, Hflag.
  destruct Haction as [Ha | Ha]; rewrite Ha, Htype; cbn; eexists; reflexivity.
Qed.

(** X7.  A [WAIT] or [ERROR] item without a [type], taken by an idle
    sequencer, makes [queueProcessor] throw after the item is off the queue:
    nothing is displayed and the processing flag stays set.  From then on,
    until an [ended] event, arriving items are only appended to the queue
    and nothing else changes. *)
Theorem untyped_item_stalls_the_sequencer
    (data : option QueueItem) (s : Session)
    (queueItem : QueueItem) (rest : list QueueItem)
    (es : list SequencerEvent)
    (Hidle : isQueueProcessing s = false)
    (Hhead : pushed data s = queueItem :: rest)
    (Haction : action queueItem = "WAIT" \/ action queueItem = "ERROR")
    (Htype : type queueItem = None)
    (Hes : Ended ∉ es) :
  exists s1 : Session,
    queueProcessor data s = Some (Throw s1)
    /\ isQueueProcessing s1 = true
    /\ websocketQueue s1 = rest
    /\ processed s1 = processed s ++ [queueItem]
    /\ messages s1 = messages s
    /\ sequencer_run es s1
       = Some (set_websocketQueue (rest ++ enqueued es) s1).
Proof.
  destruct (untyped_item_throws (S (length (websocketQueue s)))
              (set_websocketQueue (pushed data s) s) queueItem rest)
    as (icon & Hrun); try assumption.
  rewrite <- queueProcessor_rec_data in Hrun.
  eexists. split; [exact Hrun |].
  repeat split.
  now rewrite sequencer_run_busy.
Qed.

Lemma untyped_item_stalls_the_sequencer_witness :
  exists s1 : Session,
    queueProcessor (Some (mkQueueItem "WAIT" "One moment" None)) loadedSession
    = Some (Throw s1)
    /\ isQueueProcessing s1 = true
    /\ websocketQueue s1 = []
    /\ processed s1
       = processed loadedSession ++ [mkQueueItem "WAIT" "One moment" None]
    /\ messages s1 = messages loadedSession
    /\ sequencer_run
         [Enqueue (item "DISPLAY_FEEDBACK"); Enqueue (item "PLAY_FEEDBACK")] s1
       = Some (set_websocketQueue
                 ([] ++ enqueued [Enqueue (item "DISPLAY_FEEDBACK");
                                  Enqueue (item "PLAY_FEEDBACK")]) s1).
Proof.
  refine (untyped_item_stalls_the_sequencer
            (Some (mkQueueItem "WAIT" "One moment" None)) loadedSession
            (mkQueueItem "WAIT" "One moment" None) []
            [Enqueue (item "DISPLAY_FEEDBACK"); Enqueue (item "PLAY_FEEDBACK")]
            _ _ _ _ _).
  - reflexivity.
  - reflexivity.
  - now left.
  - reflexivity.
  - rewrite list_elem_of_In. simpl. intuition discriminate.
Defined.

(** Text items *)

Lemma text_item_step (fuel : nat) (s : Session) (queueItem : QueueItem)
    (rest : list QueueItem) :
  isQueueProcessing s = false ->
  websocketQueue s = queueItem :: rest ->
  isTextItem queueItem ->
  queueProcessor_rec (S fuel) None s
  = finalize
      (queueProcessor_rec fuel None
         (set_isQueueProcessing false
            (set_messages (messages s ++ [displayCall_of queueItem])
               (dequeued queueItem rest s)))).
Proof.
  intros Hflag Hqueue Htext.
  cbn [queueProcessor_rec]. rewrite Hqueue, Hflag.
  unfold displayCall_of.
  destruct Htext as [Ha | [Ha Hty]]; rewrite Ha.
  - cbn. unfold finalize, ready_when_empty, dequeued.
    destruct (queueProcessor_rec fuel None _) as [[x | x] |];
      [destruct (websocketQueue x) | |]; reflexivity.
  - rewrite (bool_decide_eq_false_2 _ Hty). cbn.
    unfold finalize, ready_when_empty, dequeued.
    destruct (queueProcessor_rec fuel None _) as [[x | x] |];
      [destruct (websocketQueue x) | |]; reflexivity.
Qed.

Lemma text_items_drain (items : list QueueItem) :
  forall (fuel : nat) (rest : list QueueItem) (s : Session),
    isQueueProcessing s = false ->
    websocketQueue s = items ++ rest ->
    Forall isTextItem items ->
    exists s1 : Session,
      queueProcessor_rec (length items + S fuel) None s
      = queueProcessor_rec (S fuel) None s1
      /\ isQueueProcessing s1 = false
      /\ websocketQueue s1 = rest
      /\ messages s1 = messages s ++ map displayCall_of items
      /\ processed s1 = processed s ++ items
      /\ audioDiv_plays s1 = audioDiv_plays s
      /\ audioDiv_src s1 = audioDiv_src s
      /\ audioDiv_type s1 = audioDiv_type s.
Proof.
  induction items as [| queueItem items IH]; intros fuel rest s Hflag Hqueue Htext.
  - exists s. simpl. rewrite !app_nil_r. now repeat split.
  - inversion Htext as [| ? ? Hhead Htail]; subst.
    cbn [length Nat.add].
    rewrite (text_item_step _ s queueItem (items ++ rest) Hflag Hqueue Hhead).
    destruct (IH fuel rest
                (set_isQueueProcessing false
                   (set_messages (messages s ++ [displayCall_of queueItem])
                      (dequeued queueItem (items ++ rest) s))))
      as (s1 & Hrun & Hf & Hq & Hm & Hp & Hplays & Hsrc & Hty);
      [reflexivity | reflexivity | exact Htail |].
    exists s1. rewrite Hrun, queueProcessor_rec_finalized.
    split; [reflexivity |]. split; [exact Hf |]. split; [exact Hq |].
    rewrite Hm, Hp. cbn. rewrite <- !app_assoc. now repeat split.
Qed.

Lemma playback_item_step (fuel : nat) (s : Session) (clip : QueueItem)
    (later : list QueueItem) :
  isQueueProcessing s = false ->
  websocketQueue s = clip :: later ->
  action clip ∈ playbackActions ->
  exists (s' : Session) (kind : string),
    queueProcessor_rec (S fuel) None s = Some (Normal s')
    /\ action clip = "PLAY_" +:+ kind
    /\ isQueueProcessing s' = true
    /\ websocketQueue s' = later
    /\ messages s' = messages s
    /\ processed s' = processed s ++ [clip]
    /\ audioDiv_plays s' = audioDiv_plays s ++ [(value clip, kind)].
Proof.
  intros Hflag Hqueue Hplay.
  cbn [queueProcessor_rec]. rewrite Hqueue, Hflag.
  rewrite list_elem_of_In in Hplay. simpl in Hplay.
  destruct Hplay as [Ha | [Ha | [Ha | []]]]; rewrite <- Ha; cbn;
    destruct later; eexists _, _; (split; [reflexivity |]); now repeat split.
Qed.

(** X8.  When a playback ends and only text items wait, they are all
    displayed at once, in their order, nothing is played, and the sequencer
    is idle with an empty queue.  When the text items are followed by a
    playback item, the texts are displayed, that item is started (source and
    type of the audio element are set and [play] is called once), the flag
    stays set and the items behind it keep waiting. *)
Theorem waiting_text_is_shown_when_playback_ends
    (items rest : list QueueItem) (s : Session)
    (Htext : Forall isTextItem items)
    (Hqueue : websocketQueue s = items ++ rest) :
  (rest = [] ->
   exists s' : Session,
     audioDiv_ended s = Some (Normal s')
     /\ messages s' = messages s ++ map displayCall_of items
     /\ processed s' = processed s ++ items
     /\ websocketQueue s' = []
     /\ isQueueProcessing s' = false
     /\ audioDiv_plays s' = audioDiv_plays s)
  /\ (forall (clip : QueueItem) (later : list QueueItem),
        rest = clip :: later ->
        action clip ∈ playbackActions ->
        exists (s' : Session) (kind : string),
          audioDiv_ended s = Some (Normal s')
          /\ action clip = "PLAY_" +:+ kind
          /\ messages s' = messages s ++ map displayCall_of items
          /\ processed s' = processed s ++ items ++ [clip]
          /\ websocketQueue s' = later
          /\ isQueueProcessing s' = true
          /\ audioDiv_plays s' = audioDiv_plays s ++ [(value clip, kind)]).
Proof.
  unfold audioDiv_ended, queueProcessorCompletedAction.
  set (s0 := set_isQueueProcessing false
               (setDisabled "stopProcessButton" false
                  (set_isSpeaking false s))).
  destruct (text_items_drain items 0 rest s0 eq_refl Hqueue Htext)
    as (s1 & Hrun & Hf & Hq & Hm & Hp & Hplays & _).
  change (messages s0) with (messages s) in Hm.
  change (processed s0) with (processed s) in Hp.
  change (audioDiv_plays s0) with (audioDiv_plays s) in Hplays.
  split.
  - intros ->. exists (updateStatus "Ready" "success" "check-square" s1).
    split; [| now repeat split].
    apply (queueProcessor_fuel (length items + 1)). rewrite Hrun.
    pose proof (queueProcessor_rec_step 0 None s1) as Hstep.
    simpl pushed in Hstep. now rewrite Hq in Hstep.
  - intros clip later -> Hplay.
    destruct (playback_item_step 0 s1 clip later Hf Hq Hplay)
      as (s' & kind & Hclip & Hkind & Hf' & Hq' & Hm' & Hp' & Hplays').
    exists s', kind. split.
    { apply (queueProcessor_fuel (length items + 1)). now rewrite Hrun. }
    rewrite Hm', Hp', Hplays', Hm, Hp, Hplays, <- app_assoc.
    now repeat split.
Qed.

Lemma waiting_text_is_shown_when_playback_ends_witness :
  let shown := [mkQueueItem "DISPLAY_RESPONSE" "Here is a film" (Some "TEXT");
                mkQueueItem "DISPLAY_FEEDBACK" "Well asked" None] in
  let clip := mkQueueItem "PLAY_RESPONSE" "reply.mp3" None in
  let s := set_isQueueProcessing true
             (set_websocketQueue (shown ++ [clip]) loadedSession) in
  exists (s' : Session) (kind : string),
    audioDiv_ended s = Some (Normal s')
    /\ action clip = "PLAY_" +:+ kind
    /\ messages s' = messages s ++ map displayCall_of shown
    /\ processed s' = processed s ++ shown ++ [clip]
    /\ websocketQueue s' = []
    /\ isQueueProcessing s' = true
    /\ audioDiv_plays s' = audioDiv_plays s ++ [(value clip, kind)].
Proof.
  intros shown clip s.
  refine (proj2 (waiting_text_is_shown_when_playback_ends shown [clip] s _ _)
            clip [] eq_refl _).
  - apply Forall_cons. split; [right; split; [reflexivity | discriminate] |].
    apply Forall_cons. split; [now left | constructor].
  - reflexivity.
  - rewrite list_elem_of_In. simpl. now left.
Defined.

Lemma queued_while_not_open (ms : list ControlMessage) :
  forall s : Session,
    websocketApplication s <> Some OPEN ->
    fold_left (fun s m => websocketApplicationQueueProcessor (Some m) s) ms s
    = set_websocketApplicationQueue (websocketApplicationQueue s ++ ms) s.
Proof.
  induction ms as [| m ms IH]; intros s Hnotopen; simpl.
  - now rewrite app_nil_r.
  - rewrite websocketApplicationQueueProcessor_waits by exact Hnotopen.
    rewrite IH by exact Hnotopen.
    unfold set_websocketApplicationQueue. cbn. now rewrite <- app_assoc.
Qed.

(** X9.  Control messages handed over while the socket is not open are
    only queued, in their order, and nothing else changes.  The [open]
    listener then sends what waited, oldest first, followed by
    [startProcess], and empties the queue; after that every message is sent
    at once. *)
Theorem queued_control_messages_go_out_on_open
    (ms : list ControlMessage) (controls : string) (s : Session)
    (Hnotopen : websocketApplication s <> Some OPEN) :
  let s1 :=
    fold_left (fun s m => websocketApplicationQueueProcessor (Some m) s) ms s in
  let s2 := websocketApplication_open controls s1 in
  s1 = set_websocketApplicationQueue (websocketApplicationQueue s ++ ms) s
  /\ applicationSent s2
     = applicationSent s ++ websocketApplicationQueue s ++ ms
       ++ [mkControlMessage "startProcess" None (Some controls)]
  /\ websocketApplicationQueue s2 = []
  /\ (forall m : ControlMessage,
        applicationSent (websocketApplicationQueueProcessor (Some m) s2)
        = applicationSent s2 ++ [m]
        /\ websocketApplicationQueue
             (websocketApplicationQueueProcessor (Some m) s2) = []).
Proof.
  intros s1 s2. subst s2 s1.
  rewrite queued_while_not_open by exact Hnotopen.
  unfold websocketApplication_open.
  rewrite websocketApplicationQueueProcessor_sends by reflexivity.
  split; [reflexivity |]. split; [cbn; now rewrite <- app_assoc |].
  split; [reflexivity |].
  intros m. rewrite websocketApplicationQueueProcessor_sends by reflexivity.
  split; reflexivity.
Qed.

Lemma queued_control_messages_go_out_on_open_witness :
  let ms := [mkControlMessage "sendUtterance" (Some "a western") None;
             mkControlMessage "ping" None None] in
  let s := fetch_resolved "wss://backend" loadedSession in
  applicationSent
    (websocketApplication_open "{}"
       (fold_left
          (fun s m => websocketApplicationQueueProcessor (Some m) s) ms s))
  = applicationSent s ++ websocketApplicationQueue s ++ ms
    ++ [mkControlMessage "startProcess" None (Some "{}")].
Proof.
  intros ms s.
  refine (proj1 (proj2 (queued_control_messages_go_out_on_open ms "{}" s _))).
  discriminate.
Defined.

Lemma sendButton_click_disconnected (s : Session) :
  (0 < String.length (inputText_value s))%nat ->
  websocketApplication s = None ->
  exists s1 : Session,
    sendButton_click s = Normal s1
    /\ fetchRequests s1 = S (fetchRequests s)
    /\ applicationSent s1 = applicationSent s
    /\ inputText_value s1 = EmptyString
    /\ websocketApplicationQueue s1
       = [mkControlMessage "sendUtterance" (Some (inputText_value s)) None].
Proof.
  intros Htext Hnone. apply Nat.ltb_lt in Htext.
  unfold sendButton_click. rewrite Htext. clear Htext.
  unfold sendUtterance, websocketApplicationConnect,
    websocketApplicationQueueProcessor.
  destruct s. cbn in Hnone. subst. cbn -[insert].
  repeat (match goal with
          | |- context [match ?x with _ => _ end] => is_var x; destruct x
          end; cbn -[insert]).
  all: eexists; (split; [reflexivity |]); repeat split.
Qed.

(** X10.  A click on the send button with a text in the field, before any
    control socket exists, starts one connection attempt, sends nothing yet
    and clears the field; once the socket has been created and opens, the
    utterance and then [startProcess] are what has gone out since, and the
    queue is empty (messages that waited before the click are
    discarded). *)
Theorem utterance_sent_before_connection_is_delivered
    (url controls : string) (s : Session)
    (Htext : (0 < String.length (inputText_value s))%nat)
    (Hnone : websocketApplication s = None) :
  let s1 := session_of (sendButton_click s) in
  let s2 := websocketApplication_open controls (fetch_resolved url s1) in
  fetchRequests s1 = S (fetchRequests s)
  /\ applicationSent s1 = applicationSent s
  /\ inputText_value s1 = EmptyString
  /\ applicationSent s2
     = applicationSent s
       ++ [mkControlMessage "sendUtterance" (Some (inputText_value s)) None;
           mkControlMessage "startProcess" None (Some controls)]
  /\ websocketApplicationQueue s2 = [].
Proof.
  intros s1 s2. subst s2 s1.
  destruct (sendButton_click_disconnected s Htext Hnone)
    as (s1 & -> & Hfetch & Hsent & Hinput & Hqueue).
  cbn [session_of].
  split; [exact Hfetch |]. split; [exact Hsent |]. split; [exact Hinput |].
  unfold websocketApplication_open.
  rewrite websocketApplicationQueueProcessor_sends by reflexivity.
  cbn. rewrite Hsent, Hqueue. split; reflexivity.
Qed.

Lemma utterance_sent_before_connection_is_delivered_witness :
  let s := set_inputText_value "a western" loadedSession in
  applicationSent
    (websocketApplication_open "{}"
       (fetch_resolved "wss://backend" (session_of (sendButton_click s))))
  = applicationSent s
    ++ [mkControlMessage "sendUtterance" (Some (inputText_value s)) None;
        mkControlMessage "startProcess" None (Some "{}")].
Proof.
  intros s.
  refine (proj1 (proj2 (proj2 (proj2
            (utterance_sent_before_connection_is_delivered
               "wss://backend" "{}" s _ _))))).
  - vm_compute. lia.
  - reflexivity.
Defined.

(** X11.  After the [close] event of the control socket the variable still
    holds the closed socket, so the keepalive ticks never reconnect: [n]
    ticks add [n] pings to the queue and change nothing else. *)
Theorem keepalive_after_close_only_queues_pings (n : nat) (s : Session) :
  Nat.iter n keepalive_tick (websocketApplication_close s)
  = set_websocketApplicationQueue
      (websocketApplicationQueue s
       ++ repeat (mkControlMessage "ping" None None) n)
      (set_websocketApplication (Some CLOSED) s).
Proof.
  induction n as [| n IH].
  - change (Nat.iter 0 keepalive_tick (websocketApplication_close s))
      with (websocketApplication_close s).
    cbn [repeat]. rewrite app_nil_r.
    unfold websocketApplication_close.
    now rewrite websocketApplicationQueueProcessor_nothing.
  - rewrite Nat.iter_succ, IH. unfold keepalive_tick.
    cbn [websocketApplication set_websocketApplicationQueue
         set_websocketApplication].
    rewrite websocketApplicationQueueProcessor_waits by discriminate.
    unfold set_websocketApplicationQueue. cbn.
    now rewrite <- app_assoc, <- repeat_cons.
Qed.

Lemma websocketApplicationQueueProcessor_spec (m : ControlMessage)
    (s : Session) :
  exists (sent queue : list ControlMessage),
    websocketApplicationQueueProcessor (Some m) s
    = set_websocketApplicationQueue queue (set_applicationSent sent s)
    /\ (sent, queue)
       = (if readyState_is_OPEN (websocketApplication s) then
            (applicationSent s ++ websocketApplicationQueue s ++ [m], [])
          else (applicationSent s, websocketApplicationQueue s ++ [m])).
Proof.
  assert (Hcases : websocketApplication s = Some OPEN
                   \/ websocketApplication s <> Some OPEN).
  { destruct (websocketApplication s) as [[] |];
      (now left) || (right; discriminate). }
  destruct Hcases as [Hopen | Hnot].
  - rewrite websocketApplicationQueueProcessor_sends by exact Hopen.
    rewrite Hopen. eexists _, _. split; [| reflexivity]. reflexivity.
  - rewrite websocketApplicationQueueProcessor_waits by exact Hnot.
    eexists _, _. split.
    + reflexivity.
    + destruct (websocketApplication s) as [[] |]; try reflexivity.
      now contradiction Hnot.
Qed.

(** X12.  The click on the stop button.  Without a transcription socket
    the listener throws at once and changes nothing.  With one but without a
    control socket it throws after the queue of control messages has been
    emptied; status and sent messages are as before.  With both it
    returns: the status is [Stopped], the queue is empty, [stopProcess] went
    out (behind the messages that waited) only if the control socket was
    open, one empty audio frame went out only if the transcription socket
    was open, and a control socket that was connecting or open is
    closing. *)
Theorem stop_button_needs_both_sockets `{Platform} (s : Session) :
  (websocketTranscribe s = None -> stopProcessButton_click s = Throw s)
  /\ (websocketTranscribe s <> None ->
      websocketApplication s = None ->
      exists s' : Session,
        stopProcessButton_click s = Throw s'
        /\ statusDiv s' = statusDiv s
        /\ applicationSent s' = applicationSent s
        /\ websocketApplicationQueue s' = [])
  /\ (websocketTranscribe s <> None ->
      forall r : ReadyState,
        websocketApplication s = Some r ->
        exists s' : Session,
          stopProcessButton_click s = Normal s'
          /\ statusDiv s' = ("Stopped", "success", "slash-square")
          /\ websocketApplicationQueue s' = []
          /\ applicationSent s'
             = (if readyState_is_OPEN (Some r) then
                  applicationSent s ++ websocketApplicationQueue s
                  ++ [mkControlMessage "stopProcess" None None]
                else applicationSent s)
          /\ transcribeSent s'
             = (if readyState_is_OPEN (websocketTranscribe s) then
                  transcribeSent s ++ [Some (marshall (getAudioEventMessage []))]
                else transcribeSent s)
          /\ websocketApplication s'
             = Some match r with
                    | CONNECTING | OPEN => CLOSING
                    | CLOSING | CLOSED => r
                    end).
Proof.
  unfold stopProcessButton_click, websocketTranscribeDisconnect,
    websocketTranscribe_send, micStream_stop.
  split; [| split].
  - intros ->. reflexivity.
  - intros Hsocket Hnone.
    destruct (websocketTranscribe s) as [t |] eqn:Et; [| contradiction].
    destruct t; cbn [websocketTranscribe set_micStream]; rewrite ?Et;
      cbn [andThen];
      match goal with
      | |- context [websocketApplicationQueueProcessor (Some ?m) ?s0] =>
          destruct (websocketApplicationQueueProcessor_spec m s0)
            as (sent & queue & -> & Hsq)
      end;
      cbn in Hsq; rewrite Hnone in Hsq; cbn in Hsq;
      injection Hsq as -> ->;
      unfold websocketApplicationDisconnect; cbn; rewrite Hnone; cbn;
      eexists; (split; [reflexivity |]); now repeat split.
  - intros Hsocket r Hr.
    destruct (websocketTranscribe s) as [t |] eqn:Et; [| contradiction].
    destruct t; cbn [websocketTranscribe set_micStream]; rewrite ?Et;
      cbn [andThen];
      match goal with
      | |- context [websocketApplicationQueueProcessor (Some ?m) ?s0] =>
          destruct (websocketApplicationQueueProcessor_spec m s0)
            as (sent & queue & -> & Hsq)
      end;
      cbn in Hsq; rewrite Hr in Hsq;
      unfold websocketApplicationDisconnect; cbn -[insert]; rewrite Hr;
      destruct r; cbn -[insert] in *; injection Hsq as -> ->;
      destruct (allowAudioInput s);
      eexists; (split; [reflexivity |]); now repeat split.
Qed.

Lemma stop_button_needs_both_sockets_witness :
  stopProcessButton_click (H := browserPlatform) loadedSession
  = Throw loadedSession.
Proof.
  refine (proj1 (stop_button_needs_both_sockets (H := browserPlatform)
                   loadedSession) _).
  reflexivity.
Defined.

Lemma micStream_data_sends `{Platform} (rawAudioChunk : list Z) (s : Session) :
  websocketTranscribe s = Some OPEN ->
  transcribeSent (session_of (micStream_data rawAudioChunk s))
  = transcribeSent s
    ++ [convertAudioToBinaryMessage
          (if negb (isSpeaking s) && isListening s then rawAudioChunk
           else emptyChunk) s].
Proof.
  intros Hopen. unfold micStream_data, websocketTranscribe_send.
  destruct s as [? ? ? ? ? ? ? speaking listening]. cbn in Hopen. subst.
  destruct speaking, listening; reflexivity.
Qed.

Ltac session_cases :=
  repeat (match goal with
          | |- context [match ?x with _ => _ end] => is_var x; destruct x
          | |- context [if ?c then _ else _] => destruct c
          end; cbn).

Lemma whileListeningStart_frame (s : Session) :
  isListening (whileListeningStart s) = true
  /\ isSpeaking (whileListeningStart s) = false
  /\ websocketQueue (whileListeningStart s) = []
  /\ websocketApplicationQueue (whileListeningStart s) = []
  /\ websocketTranscribe (whileListeningStart s) = websocketTranscribe s
  /\ transcribeSent (whileListeningStart s) = transcribeSent s
  /\ micSampleRate (whileListeningStart s) = micSampleRate s
  /\ allowAudioInputOnly (whileListeningStart s) = allowAudioInputOnly s
  /\ isQueueProcessing (whileListeningStart s) = isQueueProcessing s
  /\ audioDiv_plays (whileListeningStart s)
     = audioDiv_plays s ++ [(pathEmptyToneUrl, audioDiv_type s)].
Proof.
  unfold whileListeningStart. destruct s. cbn. session_cases.
  all: now repeat split.
Qed.

Lemma whileListeningStop_frame (s : Session) :
  isListening (whileListeningStop s) = false
  /\ websocketTranscribe (whileListeningStop s) = websocketTranscribe s
  /\ transcribeSent (whileListeningStop s) = transcribeSent s
  /\ micSampleRate (whileListeningStop s) = micSampleRate s
  /\ allowAudioInputOnly (whileListeningStop s) = allowAudioInputOnly s.
Proof.
  unfold whileListeningStop. destruct s. cbn. session_cases.
  all: now repeat split.
Qed.

Lemma audioDiv_playing_frame (s : Session) :
  isSpeaking (audioDiv_playing s) = true
  /\ websocketTranscribe (audioDiv_playing s) = websocketTranscribe s
  /\ transcribeSent (audioDiv_playing s) = transcribeSent s
  /\ micSampleRate (audioDiv_playing s) = micSampleRate s.
Proof.
  unfold audioDiv_playing. destruct s. cbn. session_cases.
  all: now repeat split.
Qed.

(** X13.  Push to talk.  With the transcription socket open, after
    [whileListeningStart] a captured chunk goes out as it is; once the audio
    element reports [playing], or after [whileListeningStop], silence goes
    out instead.  [whileListeningStart] also empties both queues. *)
Theorem push_to_talk_gates_the_microphone `{Platform}
    (rawAudioChunk : list Z) (s : Session)
    (Hopen : websocketTranscribe s = Some OPEN) :
  transcribeSent
    (session_of (micStream_data rawAudioChunk (whileListeningStart s)))
  = transcribeSent s ++ [convertAudioToBinaryMessage rawAudioChunk s]
  /\ transcribeSent
       (session_of
          (micStream_data rawAudioChunk
             (audioDiv_playing (whileListeningStart s))))
     = transcribeSent s ++ [convertAudioToBinaryMessage emptyChunk s]
  /\ transcribeSent
       (session_of
          (micStream_data rawAudioChunk
             (whileListeningStop (whileListeningStart s))))
     = transcribeSent s ++ [convertAudioToBinaryMessage emptyChunk s]
  /\ isListening (whileListeningStart s) = true
  /\ isSpeaking (whileListeningStart s) = false
  /\ websocketQueue (whileListeningStart s) = []
  /\ websocketApplicationQueue (whileListeningStart s) = [].
Proof.
  destruct (whileListeningStart_frame s)
    as (Hl & Hs & Hq & Haq & Ht & Hsent & Hrate & _).
  assert (Hconv : forall chunk s',
            micSampleRate s' = micSampleRate s ->
            convertAudioToBinaryMessage chunk s'
            = convertAudioToBinaryMessage chunk s).
  { intros chunk s' E. unfold convertAudioToBinaryMessage. now rewrite E. }
  split; [| split; [| split]].
  - rewrite micStream_data_sends by congruence.
    rewrite Hl, Hs, Hsent. cbn [negb andb].
    now rewrite Hconv.
  - destruct (audioDiv_playing_frame (whileListeningStart s))
      as (Hsp & Ho & Hts & Hr).
    rewrite micStream_data_sends by congruence.
    rewrite Hsp, Hts, Hsent. cbn [negb andb].
    rewrite Hconv; [reflexivity | congruence].
  - destruct (whileListeningStop_frame (whileListeningStart s))
      as (Hli & Ho & Hts & Hr & _).
    rewrite micStream_data_sends by congruence.
    rewrite Hli, Hts, Hsent, andb_false_r.
    rewrite Hconv; [reflexivity | congruence].
  - now repeat split.
Qed.

Lemma push_to_talk_gates_the_microphone_witness :
  let s := set_isSpeaking true
             (set_websocketTranscribe (Some OPEN) loadedSession) in
  transcribeSent
    (session_of
       (micStream_data (H := browserPlatform) [0; 0; 128; 63]%Z
          (whileListeningStart s)))
  = transcribeSent s
    ++ [convertAudioToBinaryMessage (H := browserPlatform)
          [0; 0; 128; 63]%Z s].
Proof.
  intros s.
  refine (proj1 (push_to_talk_gates_the_microphone (H := browserPlatform)
                   [0; 0; 128; 63]%Z s _)).
  reflexivity.
Defined.

(** X14.  The space key.  A repeated [keydown] has the effect of one, and
    so has a repeated [keyup]; a [keyup] without a [keydown] before it, and
    both events outside the audio-only mode, change nothing.  In audio-only
    mode a press starts listening and the release stops it. *)
Theorem space_key_toggles_listening_once (key : string) (p : Page) :
  window_keydown key (window_keydown key p) = window_keydown key p
  /\ window_keyup key (window_keyup key p) = window_keyup key p
  /\ (isListeningKeyDown p = false -> window_keyup key p = p)
  /\ (allowAudioInputOnly (session p) = false ->
      window_keydown key p = p /\ window_keyup key p = p)
  /\ (isSpaceKey key = true ->
      isListeningKeyDown p = false ->
      allowAudioInputOnly (session p) = true ->
      isListening (session (window_keydown key p)) = true
      /\ isListeningKeyDown (window_keydown key p) = true
      /\ isListening (session (window_keyup key (window_keydown key p)))
         = false
      /\ isListeningKeyDown (window_keyup key (window_keydown key p)) = false).
Proof.
  assert (Hstart : forall s,
            allowAudioInputOnly (whileListeningStart s) = allowAudioInputOnly s
            /\ isListening (whileListeningStart s) = true).
  { intros s. now destruct (whileListeningStart_frame s)
      as (? & _ & _ & _ & _ & _ & _ & ? & _). }
  assert (Hstop : forall s,
            allowAudioInputOnly (whileListeningStop s) = allowAudioInputOnly s
            /\ isListening (whileListeningStop s) = false).
  { intros s. now destruct (whileListeningStop_frame s)
      as (? & _ & _ & _ & ?). }
  split; [| split; [| split; [| split]]].
  - unfold window_keydown at 2 3.
    destruct (isSpaceKey key && negb (isListeningKeyDown p)
              && allowAudioInputOnly (session p)) eqn:E; [| now unfold window_keydown; rewrite E].
    unfold window_keydown. cbn [isListeningKeyDown negb].
    now rewrite andb_false_r.
  - unfold window_keyup at 2 3.
    destruct (isSpaceKey key && isListeningKeyDown p
              && allowAudioInputOnly (session p)) eqn:E; [| now unfold window_keyup; rewrite E].
    unfold window_keyup. cbn [isListeningKeyDown].
    now rewrite andb_false_r.
  - intros Hup. unfold window_keyup. now rewrite Hup, andb_false_r.
  - intros Htext. unfold window_keydown, window_keyup.
    now rewrite Htext, !andb_false_r.
  - intros Hspace Hup Hmode.
    unfold window_keydown. rewrite Hspace, Hup, Hmode. cbn [negb andb].
    unfold window_keyup. cbn [isListeningKeyDown session].
    rewrite Hspace.
    rewrite (proj1 (Hstart _)), (proj2 (Hstart _)). cbn [allowAudioInputOnly setDisplay set_display].
    rewrite Hmode. cbn [andb session isListeningKeyDown].
    rewrite (proj2 (Hstop _)). now repeat split.
Qed.

Lemma space_key_toggles_listening_once_witness :
  let p := mkPage loadedSession false in
  isListening (session (window_keydown " " p)) = true
  /\ isListeningKeyDown (window_keydown " " p) = true
  /\ isListening (session (window_keyup " " (window_keydown " " p))) = false
  /\ isListeningKeyDown (window_keyup " " (window_keydown " " p)) = false.
Proof.
  intros p.
  refine (proj2 (proj2 (proj2 (proj2
            (space_key_toggles_listening_once " " p)))) _ _ _);
    reflexivity.
Defined.

(** X15.  The start button and [whileListeningStart] empty the action
    queue and leave the processing flag as it is, and play the empty tone;
    the [ended] event of that tone then leaves the sequencer idle, with an
    empty queue and the status [Ready], whatever was in flight before. *)
Theorem end_of_empty_tone_frees_the_sequencer (s : Session) :
  (forall s0 : Session,
     s0 = startProcessButton_click s \/ s0 = whileListeningStart s ->
     websocketQueue s0 = []
     /\ isQueueProcessing s0 = isQueueProcessing s
     /\ audioDiv_plays s0
        = audioDiv_plays s ++ [(pathEmptyToneUrl, audioDiv_type s)]
     /\ exists s' : Session,
          audioDiv_ended s0 = Some (Normal s')
          /\ isQueueProcessing s' = false
          /\ websocketQueue s' = []
          /\ isSpeaking s' = false
          /\ statusDiv s' = ("Ready", "success", "check-square")).
Proof.
  assert (Hended : forall s0 : Session,
            websocketQueue s0 = [] ->
            exists s' : Session,
              audioDiv_ended s0 = Some (Normal s')
              /\ isQueueProcessing s' = false
              /\ websocketQueue s' = []
              /\ isSpeaking s' = false
              /\ statusDiv s' = ("Ready", "success", "check-square")).
  { intros s0 Hq. unfold audioDiv_ended, queueProcessorCompletedAction.
    eexists. split.
    - apply (queueProcessor_fuel 1).
      pose proof (queueProcessor_rec_step 0 None
                    (set_isQueueProcessing false
                       (setDisabled "stopProcessButton" false
                          (set_isSpeaking false s0)))) as Hstep.
      cbn [pushed websocketQueue set_isQueueProcessing setDisabled
           set_disabled set_isSpeaking] in Hstep.
      rewrite Hq in Hstep. exact Hstep.
    - cbn. now rewrite Hq. }
  intros s0 [-> | ->].
  - assert (Hfacts :
      websocketQueue (startProcessButton_click s) = []
      /\ isQueueProcessing (startProcessButton_click s) = isQueueProcessing s
      /\ audioDiv_plays (startProcessButton_click s)
         = audioDiv_plays s ++ [(pathEmptyToneUrl, audioDiv_type s)]).
    { unfold startProcessButton_click, websocketApplicationConnect,
        websocketApplicationQueueProcessor.
      destruct s. cbn.
      repeat (match goal with
              | |- context [match ?x with _ => _ end] => is_var x; destruct x
              end; cbn);
        now repeat split. }
    destruct Hfacts as (Hq & Hf & Hp).
    split; [exact Hq |]. split; [exact Hf |]. split; [exact Hp |].
    now apply Hended.
  - assert (Hfacts :
      websocketQueue (whileListeningStart s) = []
      /\ isQueueProcessing (whileListeningStart s) = isQueueProcessing s
      /\ audioDiv_plays (whileListeningStart s)
         = audioDiv_plays s ++ [(pathEmptyToneUrl, audioDiv_type s)]).
    { now destruct (whileListeningStart_frame s)
        as (_ & _ & ? & _ & _ & _ & _ & _ & ? & ?). }
    destruct Hfacts as (Hq & Hf & Hp).
    split; [exact Hq |]. split; [exact Hf |]. split; [exact Hp |].
    now apply Hended.
Qed.

Lemma end_of_empty_tone_frees_the_sequencer_witness :
  let s := set_isQueueProcessing true
             (set_websocketQueue [item "PLAY_RESPONSE"] loadedSession) in
  exists s' : Session,
    audioDiv_ended (whileListeningStart s) = Some (Normal s')
    /\ isQueueProcessing s' = false
    /\ websocketQueue s' = []
    /\ isSpeaking s' = false
    /\ statusDiv s' = ("Ready", "success", "check-square").
Proof.
  intros s.
  refine (proj2 (proj2 (proj2
            (end_of_empty_tone_frees_the_sequencer s (whileListeningStart s)
               _)))).
  now right.
Defined.

(** X16.  The ringtone of the [open] listener of the transcription socket
    goes through the sequencer: on an idle sequencer with an empty queue it
    is played at once and the speak button and the text field are enabled;
    while an item is in flight it is appended to the queue and neither the
    audio element nor the buttons change. *)
Theorem ringtone_is_sequenced_like_any_item (s : Session) :
  (isQueueProcessing s = false ->
   websocketQueue s = [] ->
   exists s' : Session,
     websocketTranscribe_open s = Some (Normal s')
     /\ websocketTranscribe s' = Some OPEN
     /\ isQueueProcessing s' = true
     /\ websocketQueue s' = []
     /\ audioDiv_plays s'
        = audioDiv_plays s ++ [(pathRingToneUrl, "RINGTONE")]
     /\ disabled s' !! "speakButton" = Some false
     /\ disabled s' !! "inputText" = Some false)
  /\ (isQueueProcessing s = true ->
      exists s' : Session,
        websocketTranscribe_open s = Some (Normal s')
        /\ websocketTranscribe s' = Some OPEN
        /\ websocketQueue s'
           = websocketQueue s
             ++ [mkQueueItem "PLAY_RINGTONE" pathRingToneUrl None]
        /\ audioDiv_plays s' = audioDiv_plays s
        /\ disabled s' = disabled s
        /\ processed s' = processed s).
Proof.
  unfold websocketTranscribe_open.
  set (s0 := websocketApplicationQueueProcessor None
               (set_websocketTranscribe (Some OPEN) s)).
  assert (Hs0 : websocketQueue s0 = websocketQueue s
                /\ isQueueProcessing s0 = isQueueProcessing s
                /\ websocketTranscribe s0 = Some OPEN
                /\ audioDiv_plays s0 = audioDiv_plays s
                /\ disabled s0 = disabled s
                /\ processed s0 = processed s).
  { subst s0. unfold websocketApplicationQueueProcessor. destruct s. cbn.
    repeat (match goal with
            | |- context [match ?x with _ => _ end] => is_var x; destruct x
            end; cbn);
      now repeat split. }
  destruct Hs0 as (Hq & Hf & Ht & Hp & Hd & Hpr).
  split.
  - intros Hidle Hempty. rewrite Hidle in Hf. rewrite Hempty in Hq.
    eexists. split.
    + apply (queueProcessor_fuel 1). cbn [queueProcessor_rec].
      cbn [websocketQueue set_websocketQueue isQueueProcessing].
      rewrite Hq, Hf. cbn -[insert]. reflexivity.
    + cbn -[insert lookup]. rewrite Ht, Hp, Hd.
      rewrite lookup_insert_ne by discriminate.
      rewrite !lookup_insert_eq. now repeat split.
  - intros Hbusy. rewrite Hbusy in Hf.
    pose proof (queueProcessor_rec_step 0
                  (Some (mkQueueItem "PLAY_RINGTONE" pathRingToneUrl None)) s0)
      as Hstep.
    simpl pushed in Hstep.
    destruct (websocketQueue s0 ++ [_]) as [| x l] eqn:E;
      [now destruct (websocketQueue s0) |].
    rewrite Hf in Hstep.
    eexists. split; [apply (queueProcessor_fuel 1); exact Hstep |].
    cbn. rewrite <- Hq. now repeat split.
Qed.

Lemma ringtone_is_sequenced_like_any_item_witness :
  exists s' : Session,
    websocketTranscribe_open (websocketTranscribeConnect loadedSession)
    = Some (Normal s')
    /\ websocketTranscribe s' = Some OPEN
    /\ isQueueProcessing s' = true
    /\ websocketQueue s' = []
    /\ audioDiv_plays s'
       = audioDiv_plays (websocketTranscribeConnect loadedSession)
         ++ [(pathRingToneUrl, "RINGTONE")]
    /\ disabled s' !! "speakButton" = Some false
    /\ disabled s' !! "inputText" = Some false.
Proof.
  refine (proj1 (ringtone_is_sequenced_like_any_item
                   (websocketTranscribeConnect loadedSession)) _ _);
    reflexivity.
Defined.

Lemma append_nil_r (a : string) : a +:+ EmptyString = a.
Proof.
  induction a as [| c a IH]; [reflexivity |].
  change (String c (a +:+ EmptyString) = String c a). now f_equal.
Qed.

Lemma append_assoc (a b c : string) : a +:+ (b +:+ c) = (a +:+ b) +:+ c.
Proof.
  induction a as [| x a IH]; [reflexivity |].
  change (String x (a +:+ (b +:+ c)) = String x ((a +:+ b) +:+ c)).
  now f_equal.
Qed.

(** A transcript event with results adds its contribution to the pending
    utterance and changes nothing that is shown or sent. *)
Lemma result_event_accumulates `{Platform} (now : Z)
    (results : list TranscriptResult) (s : Session) :
  results <> [] ->
  transcription s = EmptyString ->
  let s' := session_of (handleEventStreamMessage now results s) in
  utterance s' = utterance s +:+ contribution results
  /\ transcription s' = EmptyString
  /\ inputText_value s' = inputText_value s
  /\ applicationSent s' = applicationSent s
  /\ websocketApplicationQueue s' = websocketApplicationQueue s
  /\ messages s' = messages s
  /\ disabled s' = disabled s.
Proof.
  intros Hresults Hclean.
  destruct results as [| result0 others]; [contradiction |].
  unfold handleEventStreamMessage, contribution.
  destruct (Alternatives result0) as [| transcript alternatives].
  { cbn. rewrite append_nil_r. now repeat split. }
  destruct (decodeURIComponent transcript) as [decoded |].
  - destruct (IsPartial result0); cbn.
    + rewrite append_nil_r. now repeat split.
    + destruct s. cbn in *. subst. cbn. now repeat split.
  - cbn. rewrite append_nil_r. destruct s. cbn in *. now repeat split.
Qed.

(** X17.  Transcript events that carry results only accumulate: starting
    with an empty [transcription], the pending utterance after the events is
    the one before them followed by the contribution of each event in order
    (the decoded transcript and a newline for a final result, nothing for a
    partial or undecodable one); [transcription] is empty again, and the
    text field, the messages shown, the buttons and the control channel are
    untouched. *)
Theorem transcript_results_only_accumulate `{Platform}
    (events : list (Z * list TranscriptResult)) (s : Session)
    (Hresults : Forall (fun e => snd e <> []) events)
    (Hclean : transcription s = EmptyString) :
  let s' := transcript_run events s in
  utterance s'
  = utterance s
    +:+ fold_right (fun e pending => contribution (snd e) +:+ pending)
          EmptyString events
  /\ transcription s' = EmptyString
  /\ inputText_value s' = inputText_value s
  /\ applicationSent s' = applicationSent s
  /\ websocketApplicationQueue s' = websocketApplicationQueue s
  /\ messages s' = messages s
  /\ disabled s' = disabled s.
Proof.
  revert s Hclean.
  induction Hresults as [| [now results] events Hhead _ IH]; intros s Hclean.
  - cbn. rewrite append_nil_r. now repeat split.
  - cbn [transcript_run fold_right snd].
    destruct (result_event_accumulates now results s Hhead Hclean)
      as (Hu & Ht & Hi & Hs & Hq & Hm & Hd).
    destruct (IH _ Ht) as (Hu' & Ht' & Hi' & Hs' & Hq' & Hm' & Hd').
    cbv zeta. rewrite Hu', Ht', Hi', Hs', Hq', Hm', Hd'.
    rewrite Hu, Hi, Hs, Hq, Hm, Hd, append_assoc. now repeat split.
Qed.

Lemma transcript_results_only_accumulate_witness :
  let events := [(0%Z, heard true "tell"); (1%Z, heard false "tell me");
                 (2%Z, heard true "mo"); (3%Z, heard false "more")] in
  utterance (transcript_run (H := browserPlatform) events loadedSession)
  = utterance loadedSession
    +:+ fold_right
          (fun e pending =>
             contribution (H := browserPlatform) (snd e) +:+ pending)
          EmptyString events.
Proof.
  intros events.
  refine (proj1 (transcript_results_only_accumulate (H := browserPlatform)
                   events loadedSession _ _)).
  - repeat constructor; discriminate.
  - reflexivity.
Defined.

(** ** Stored settings *)

(** X18.  A setting stored with [setLocalStorageValue] is read back by
    [getLocalStorageValue] as the text of the value, and the storage is not
    changed by the read; what is read for another key is not affected.
    Without [localStorage] nothing is stored and a read gives the default of
    the key. *)
Theorem stored_setting_is_read_back_as_text
    (scenarioOptions : gmap string JsValue) (key : string) (value : JsValue)
    (items : gmap string string) :
  getLocalStorageValue scenarioOptions key
    (setLocalStorageValue key value (Some items))
  = Some (VString (ToString value),
          setLocalStorageValue key value (Some items))
  /\ (forall other : string,
        other <> key ->
        fst <$> getLocalStorageValue scenarioOptions other
                  (setLocalStorageValue key value (Some items))
        = fst <$> getLocalStorageValue scenarioOptions other (Some items))
  /\ setLocalStorageValue key value None = None
  /\ getLocalStorageValue scenarioOptions key None
     = (fun d => (d, None)) <$> getDefaultValue scenarioOptions key.
Proof.
  split; [| split; [| split]].
  - unfold getLocalStorageValue, setLocalStorageValue.
    now rewrite lookup_insert_eq.
  - intros other Hother. unfold getLocalStorageValue, setLocalStorageValue.
    rewrite lookup_insert_ne by congruence.
    destruct (items !! other); [reflexivity |].
    now destruct (getDefaultValue scenarioOptions other).
  - reflexivity.
  - unfold getLocalStorageValue.
    now destruct (getDefaultValue scenarioOptions key).
Qed.

(** X19.  The first read of a key that is not stored returns the default
    of its table as it is and stores its text; the next read returns that
    text (for [audioPlaybackSpeed] the number [4], then the string).  For a
    key that names neither a table nor a property every object inherits the
    read throws and stores nothing; for an inherited name ([constructor],
    [toString], ...) it returns [undefined] and stores the text
    [undefined].  The defaults of the two built-in tables do not depend on
    the scenario table. *)
Theorem first_read_stores_the_default
    (scenarioOptions : gmap string JsValue) (key : string)
    (items : gmap string string)
    (Hfresh : items !! key = None) :
  (forall d : JsValue,
     getDefaultValue scenarioOptions key = Some d ->
     getLocalStorageValue scenarioOptions key (Some items)
     = Some (d, Some (<[key := ToString d]> items))
     /\ getLocalStorageValue scenarioOptions key
          (Some (<[key := ToString d]> items))
        = Some (VString (ToString d), Some (<[key := ToString d]> items)))
  /\ (controlValues scenarioOptions !! key = None ->
      key ∉ objectPrototypeNames ->
      getLocalStorageValue scenarioOptions key (Some items) = None)
  /\ (controlValues scenarioOptions !! key = None ->
      key ∈ objectPrototypeNames ->
      getLocalStorageValue scenarioOptions key (Some items)
      = Some (VUndefined, Some (<[key := "undefined"]> items)))
  /\ getDefaultValue scenarioOptions "audioPlaybackSpeed" = Some (VNumber 4)
  /\ getDefaultValue scenarioOptions "languageCode" = Some (VString "en-US")
  /\ getDefaultValue scenarioOptions "scenarioSelection"
     = Some (default VUndefined (scenarioOptions !! "DEFAULT")).
Proof.
  split; [| split; [| split; [| split; [| split]]]].
  - intros d Hd. unfold getLocalStorageValue.
    rewrite Hfresh, Hd, lookup_insert_eq. split; reflexivity.
  - intros Hunknown Hown. unfold getLocalStorageValue, getDefaultValue.
    now rewrite Hfresh, Hunknown, (bool_decide_eq_false_2 _ Hown).
  - intros Hunknown Hinherited. unfold getLocalStorageValue, getDefaultValue.
    now rewrite Hfresh, Hunknown, (bool_decide_eq_true_2 _ Hinherited).
  - reflexivity.
  - unfold getDefaultValue, controlValues. cbn [list_to_map foldr uncurry].
    rewrite lookup_insert_ne by discriminate.
    rewrite lookup_insert_ne by discriminate.
    now rewrite lookup_insert_eq.
  - unfold getDefaultValue, controlValues. cbn [list_to_map foldr uncurry].
    rewrite lookup_insert_ne by discriminate.
    now rewrite lookup_insert_eq.
Qed.

Lemma first_read_stores_the_default_witness :
  (getLocalStorageValue ∅ "audioPlaybackSpeed" (Some ∅)
   = Some (VNumber 4,
           Some (<["audioPlaybackSpeed" := ToString (VNumber 4)]> ∅))
   /\ getLocalStorageValue ∅ "audioPlaybackSpeed"
        (Some (<["audioPlaybackSpeed" := ToString (VNumber 4)]> ∅))
      = Some (VString (ToString (VNumber 4)),
              Some (<["audioPlaybackSpeed" := ToString (VNumber 4)]> ∅)))
  /\ getLocalStorageValue ∅ "constructor" (Some ∅)
     = Some (VUndefined, Some (<["constructor" := "undefined"]> ∅))
  /\ getLocalStorageValue ∅ "volume" (Some ∅) = None.
Proof.
  split; [| split].
  - refine (proj1 (first_read_stores_the_default ∅ "audioPlaybackSpeed" ∅ _)
              (VNumber 4) _); reflexivity.
  - refine (proj1 (proj2 (proj2
              (first_read_stores_the_default ∅ "constructor" ∅ _))) _ _).
    + reflexivity.
    + reflexivity.
    + rewrite list_elem_of_In. simpl. tauto.
  - refine (proj1 (proj2
              (first_read_stores_the_default ∅ "volume" ∅ _)) _ _).
    + reflexivity.
    + reflexivity.
    + rewrite list_elem_of_In. simpl. intuition discriminate.
Defined.

Lemma channels_frame_refl (s : Session) : channels_frame s s.
Proof. now repeat split. Qed.

Lemma channels_frame_trans (s1 s2 s3 : Session) :
  channels_frame s1 s2 -> channels_frame s2 s3 -> channels_frame s1 s3.
Proof.
  unfold channels_frame. intros H12 H23.
  repeat match goal with
         | H : _ /\ _ |- _ => destruct H
         end.
  repeat split; congruence.
Qed.

Lemma ready_when_empty_channels (s : Session) :
  channels_frame s (ready_when_empty s).
Proof.
  unfold ready_when_empty. destruct (websocketQueue s); now repeat split.
Qed.

(** One level of [queueProcessor] leaves the channels alone. *)
Lemma queueProcessor_rec_step_channels (fuel : nat) (s0 : Session)
    (queueItem : QueueItem) (rest : list QueueItem) :
  websocketQueue s0 = queueItem :: rest ->
  isQueueProcessing s0 = false ->
  exists s1 : Session,
    channels_frame s0 s1
    /\ (queueProcessor_rec (S fuel) None s0
        = Some (Normal (ready_when_empty s1))
        \/ queueProcessor_rec (S fuel) None s0 = Some (Throw s1)
        \/ queueProcessor_rec (S fuel) None s0
           = finalize
               (queueProcessor_rec fuel None (set_isQueueProcessing false s1))).
Proof.
  intros Hq Eflag.
  cbn [queueProcessor_rec]. rewrite Hq, Eflag.
  repeat match goal with
  | |- context [if (?a =? ?b)%string then _ else _] =>
      destruct (a =? b)%string eqn:?
  | |- context [if (?a && ?b) then _ else _] =>
      destruct (a && b) eqn:?
  | |- context [displayText _ (type queueItem) _ _] =>
      destruct (type queueItem)
  end;
  cbn [displayText andb];
  first
    [ match goal with
      | |- context [queueProcessor_rec fuel None
                      (set_isQueueProcessing false ?A)] =>
          exists A; split;
          [| right; right;
             unfold finalize, ready_when_empty;
             (destruct (queueProcessor_rec _ None _) as [[x | x] |];
              [destruct (websocketQueue x) | |]; reflexivity) ]
      end
    | match goal with
      | |- context [Some (Throw ?A)] =>
          exists A; split; [| right; left; reflexivity ]
      end
    | match goal with
      | |- context [updateStatus "Ready" "success" "check-square" ?A] =>
          exists A; split;
          [| left; unfold ready_when_empty;
             destruct (websocketQueue A); reflexivity ]
      end ].
  all: try (cbn; repeat split; reflexivity).
  all: destruct (allowAudioInput _); cbn; repeat split; reflexivity.
Qed.

Lemma queueProcessor_rec_channels (fuel : nat) :
  forall (data : option QueueItem) (s : Session) (c : completion),
    queueProcessor_rec fuel data s = Some c ->
    channels_frame s (session_of c).
Proof.
  induction fuel as [| fuel IH]; intros data s c Hrun; [discriminate |].
  rewrite queueProcessor_rec_data in Hrun.
  assert (Hs0 : channels_frame s (set_websocketQueue (pushed data s) s))
    by now repeat split.
  revert Hrun Hs0. generalize (set_websocketQueue (pushed data s) s).
  intros s0 Hrun Hs0.
  apply (channels_frame_trans s s0); [exact Hs0 |]. clear Hs0.
  pose proof (queueProcessor_rec_step fuel None s0) as Hstep.
  simpl pushed in Hstep.
  destruct (websocketQueue s0) as [| queueItem rest] eqn:Eq.
  - rewrite Hstep in Hrun. injection Hrun as <-. now repeat split.
  - destruct (isQueueProcessing s0) eqn:Eflag.
    + rewrite Hstep in Hrun. injection Hrun as <-. now repeat split.
    + clear Hstep.
      destruct (queueProcessor_rec_step_channels fuel s0 queueItem rest
                  Eq Eflag) as (s1 & Hframe & [Hres | [Hres | Hres]]);
        rewrite Hres in Hrun.
      * injection Hrun as <-. cbn [session_of].
        eapply channels_frame_trans; [exact Hframe |].
        apply ready_when_empty_channels.
      * injection Hrun as <-. exact Hframe.
      * destruct (queueProcessor_rec fuel None (set_isQueueProcessing false s1))
          as [[x | x] |] eqn:Erec; cbn in Hrun; [| | discriminate];
          injection Hrun as <-; cbn [session_of];
          apply IH in Erec; cbn [session_of] in Erec;
          (eapply channels_frame_trans; [exact Hframe |]);
          (eapply channels_frame_trans;
           [| first [apply ready_when_empty_channels
                    | apply channels_frame_refl]]);
          (eapply channels_frame_trans; [| exact Erec]);
          now repeat split.
Qed.

(** X20.  The sequencer never touches the channels: over every sequence
    of its events the two sockets, what was sent on them, the queue of
    control messages, the number of fetches, the microphone, the listening
    flag, the transcript buffers, the text field and the error dialog are as
    before. *)
Theorem sequencer_leaves_the_channels_alone
    (es : list SequencerEvent) (s s' : Session)
    (Hrun : sequencer_run es s = Some s') :
  channels_frame s s'.
Proof.
  revert s Hrun. induction es as [| e es IH]; intros s Hrun.
  - injection Hrun as <-. apply channels_frame_refl.
  - cbn [sequencer_run] in Hrun.
    destruct (sequencer_step e s) as [s1 |] eqn:Estep; [| discriminate].
    apply (channels_frame_trans s s1); [| now apply IH].
    destruct e as [data |]; cbn [sequencer_step] in Estep.
    + unfold queueProcessor in Estep.
      destruct (queueProcessor_rec _ _ _) as [c |] eqn:Erec; [| discriminate].
      injection Estep as <-. now apply queueProcessor_rec_channels in Erec.
    + unfold audioDiv_ended, queueProcessorCompletedAction, queueProcessor
        in Estep.
      destruct (queueProcessor_rec _ _ _) as [c |] eqn:Erec; [| discriminate].
      injection Estep as <-. apply queueProcessor_rec_channels in Erec.
      eapply channels_frame_trans; [| exact Erec]. now repeat split.
Qed.

Lemma sequencer_leaves_the_channels_alone_witness :
  let es := [Enqueue (item "PLAY_FEEDBACK"); Enqueue (item "FEEDBACK_END");
             Enqueue (item "TRANSCRIBE_CONNECTION"); Ended] in
  exists s' : Session,
    sequencer_run es loadedSession = Some s'
    /\ channels_frame loadedSession s'.
Proof.
  intros es.
  destruct (sequencer_run es loadedSession) as [s' |] eqn:Erun;
    [| vm_compute in Erun; discriminate].
  exists s'. split; [reflexivity |].
  exact (sequencer_leaves_the_channels_alone es loadedSession s' Erun).
Defined.

(** X21.  Every message of the control channel is handed to the sequencer,
    whatever its action, and the listener returns or throws: the item is
    taken or waits behind those that waited, and nothing is sent.
    [FEEDBACK_END] first drops the unsent control messages and closes the
    socket; any other action leaves the socket and its queue alone. *)
Theorem every_control_message_is_enqueued (data : QueueItem) (s : Session)
    (Hsocket : websocketApplication s <> None) :
  exists (c : completion) (started : list QueueItem),
    websocketApplication_message data s = Some c
    /\ processed (session_of c) = processed s ++ started
    /\ started ++ websocketQueue (session_of c) = websocketQueue s ++ [data]
    /\ applicationSent (session_of c) = applicationSent s
    /\ (action data = "FEEDBACK_END" ->
        websocketApplicationQueue (session_of c) = []
        /\ websocketApplication (session_of c) <> Some OPEN
        /\ websocketApplication (session_of c) <> Some CONNECTING)
    /\ (action data <> "FEEDBACK_END" ->
        websocketApplicationQueue (session_of c) = websocketApplicationQueue s
        /\ websocketApplication (session_of c) = websocketApplication s).
Proof.
  unfold websocketApplication_message.
  destruct (websocketApplication s) as [r |] eqn:Er; [| contradiction].
  clear Hsocket.
  assert (Hgo : forall s0 : Session,
            websocketQueue s0 = websocketQueue s ->
            processed s0 = processed s ->
            exists (c : completion) (started : list QueueItem),
              queueProcessor (Some data) s0 = Some c
              /\ processed (session_of c) = processed s ++ started
              /\ started ++ websocketQueue (session_of c)
                 = websocketQueue s ++ [data]
              /\ channels_frame s0 (session_of c)).
  { intros s0 Hq Hp.
    destruct (queueProcessor_total (Some data) s0) as [c Hc].
    exists c. unfold queueProcessor in Hc.
    destruct (queueProcessor_rec_result _ _ _ _ Hc)
      as (started & Hproc & Hqueue & _).
    exists started. split; [exact Hc |].
    rewrite Hproc, Hqueue, Hp. cbn [pushed]. rewrite Hq.
    split; [reflexivity |]. split; [reflexivity |].
    now apply queueProcessor_rec_channels in Hc. }
  destruct (action data =? "FEEDBACK_END")%string eqn:Eend.
  - apply String.eqb_eq in Eend.
    unfold websocketApplicationDisconnect.
    cbn [websocketApplication set_websocketApplicationQueue]. rewrite Er.
    destruct r;
      match goal with
      | |- context [queueProcessor (Some data) ?s0] =>
          destruct (Hgo s0 eq_refl eq_refl)
            as (c & started & Hc & Hproc & Hqueue & Hframe)
      end;
      exists c, started; rewrite Hc;
      destruct Hframe as (Haq & Hsent & Hsock & _);
      rewrite Haq, Hsent, Hsock; cbn;
      (split; [reflexivity |]); (split; [exact Hproc |]);
      (split; [exact Hqueue |]); (split; [reflexivity |]);
      (split;
       [intros _; split; [reflexivity | rewrite ?Er; split; discriminate]
       | intros Hne; now contradiction Hne]).
  - apply String.eqb_neq in Eend.
    destruct (action data =? "PROVIDE_FEEDBACK")%string;
      match goal with
      | |- context [queueProcessor (Some data) ?s0] =>
          destruct (Hgo s0 eq_refl eq_refl)
            as (c & started & Hc & Hproc & Hqueue & Hframe)
      end;
      exists c, started; rewrite Hc;
      destruct Hframe as (Haq & Hsent & Hsock & _);
      rewrite Haq, Hsent, Hsock; cbn;
      (split; [reflexivity |]); (split; [exact Hproc |]);
      (split; [exact Hqueue |]); (split; [reflexivity |]);
      (split;
       [intros Hend; now contradiction Eend
       | intros _; split; [reflexivity | exact Er]]).
Qed.

Lemma every_control_message_is_enqueued_witness :
  let s := websocketApplication_open "{}"
             (fetch_resolved "wss://backend" loadedSession) in
  exists (c : completion) (started : list QueueItem),
    websocketApplication_message (item "FEEDBACK_END") s = Some c
    /\ processed (session_of c) = processed s ++ started
    /\ started ++ websocketQueue (session_of c)
       = websocketQueue s ++ [item "FEEDBACK_END"]
    /\ applicationSent (session_of c) = applicationSent s
    /\ (action (item "FEEDBACK_END") = "FEEDBACK_END" ->
        websocketApplicationQueue (session_of c) = []
        /\ websocketApplication (session_of c) <> Some OPEN
        /\ websocketApplication (session_of c) <> Some CONNECTING)
    /\ (action (item "FEEDBACK_END") <> "FEEDBACK_END" ->
        websocketApplicationQueue (session_of c) = websocketApplicationQueue s
        /\ websocketApplication (session_of c) = websocketApplication s).
Proof.
  intros s.
  refine (every_control_message_is_enqueued (item "FEEDBACK_END") s _).
  discriminate.
Defined.

(** X22.  After a failed fetch of the socket URL the error dialog is
    shown and no socket exists, so every keepalive tick starts another
    fetch: after [n] ticks there have been [n] more fetches, and nothing was
    queued or sent. *)
Theorem keepalive_retries_after_failed_fetch (n : nat) (s : Session)
    (Hnone : websocketApplication s = None) :
  let s' := Nat.iter n keepalive_tick (fetch_rejected s) in
  fetchRequests s' = (n + fetchRequests s)%nat
  /\ websocketApplication s' = None
  /\ errorModal s' = Some ("Websocket Error", websocketErrorText)
  /\ applicationSent s' = applicationSent s
  /\ websocketApplicationQueue s' = websocketApplicationQueue s.
Proof.
  induction n as [| n IH].
  - cbn. now repeat split.
  - cbv zeta in *. rewrite Nat.iter_succ.
    destruct IH as (Hf & Hw & He & Hs & Hq).
    set (s1 := Nat.iter n keepalive_tick (fetch_rejected s)) in *.
    unfold keepalive_tick. rewrite Hw.
    unfold websocketApplicationConnect.
    rewrite websocketApplicationQueueProcessor_nothing by congruence.
    cbn. rewrite Hf. now repeat split.
Qed.

Lemma keepalive_retries_after_failed_fetch_witness :
  fetchRequests (Nat.iter 3 keepalive_tick (fetch_rejected loadedSession))
  = (3 + fetchRequests loadedSession)%nat.
Proof.
  refine (proj1 (keepalive_retries_after_failed_fetch 3 loadedSession _)).
  reflexivity.
Defined.

(** ** Text field *)

Lemma sendButton_click_clears (s : Session) :
  (0 <? String.length (inputText_value s))%nat = true ->
  inputText_value (session_of (sendButton_click s)) = EmptyString
  /\ disabled (session_of (sendButton_click s)) !! "sendButton" = Some true.
Proof.
  intros Htext. unfold sendButton_click. rewrite Htext. clear Htext.
  unfold sendUtterance, websocketApplicationConnect,
    websocketApplicationQueueProcessor.
  destruct s. cbn -[insert].
  repeat (match goal with
          | |- context [match ?x with _ => _ end] => is_var x; destruct x
          end; cbn -[insert]).
  all: rewrite lookup_insert_eq; split; reflexivity.
Qed.

Lemma text_step_follows (e : TextEvent) (s : Session) :
  sendButton_follows_text s -> sendButton_follows_text (text_step e s).
Proof.
  intros Hinv.
  assert (Hclick : sendButton_follows_text (session_of (sendButton_click s))).
  { destruct (0 <? String.length (inputText_value s))%nat eqn:Etext.
    - destruct (sendButton_click_clears s Etext) as (Hvalue & Hbutton).
      unfold sendButton_follows_text. now rewrite Hvalue, Hbutton.
    - unfold sendButton_click. now rewrite Etext. }
  destruct e as [value | key |]; cbn [text_step].
  - unfold inputText_input, sendButton_follows_text.
    cbn [inputText_value set_inputText_value].
    destruct value as [| c value]; cbn -[insert];
      now rewrite lookup_insert_eq.
  - unfold inputText_keydown. now destruct (key =? "Enter")%string.
  - exact Hclick.
Qed.

(** X23.  Over every sequence of edits of the text field, key presses in
    it and clicks on the send button, the send button stays disabled exactly
    when the field is empty.  An edit sets the button by the new text alone;
    only [Enter] among the keys does anything, namely what a click on the
    send button does; and a click with an empty field changes nothing. *)
Theorem send_button_follows_the_text_field
    (es : list TextEvent) (s : Session)
    (Hinv : sendButton_follows_text s) :
  sendButton_follows_text (text_run es s)
  /\ (forall value : string,
        disabled (inputText_input value s) !! "sendButton"
        = Some (String.length value =? 0)%nat)
  /\ (forall key : string, key <> "Enter" -> inputText_keydown key s = s)
  /\ inputText_keydown "Enter" s = text_step SendClick s
  /\ (inputText_value s = EmptyString -> text_step SendClick s = s).
Proof.
  split; [| split; [| split; [| split]]].
  - revert s Hinv. induction es as [| e es IH]; intros s Hinv; [exact Hinv |].
    cbn [text_run fold_left]. apply IH. now apply text_step_follows.
  - intros value. unfold inputText_input.
    cbn [inputText_value set_inputText_value].
    destruct value; cbn -[insert]; now rewrite lookup_insert_eq.
  - intros key Hkey. unfold inputText_keydown.
    apply String.eqb_neq in Hkey. now rewrite Hkey.
  - reflexivity.
  - intros Hempty. cbn [text_step]. unfold sendButton_click.
    now rewrite Hempty.
Qed.

Lemma send_button_follows_the_text_field_witness :
  sendButton_follows_text
    (text_run [Typed "a"; Typed "a western"; KeyDown "Enter"; SendClick;
               Typed ""] loadedSession).
Proof.
  refine (proj1 (send_button_follows_the_text_field
                   [Typed "a"; Typed "a western"; KeyDown "Enter"; SendClick;
                    Typed ""] loadedSession _)).
  reflexivity.
Defined.
